(** * ThreeScene: character, ball physics and animation state machine

    Shallow embedding of the simulation core of the [ThreeScene] component
    (three-scene.ts): collision queries, the animation bookkeeping done by
    [playAnimation] and the mixer's [finished] listeners, character movement
    and the basketball physics tick.

    Numbers.  The program computes on JavaScript doubles; they are idealised
    here as real numbers ([R]), so [Math.sin], [Math.sqrt], [Math.abs], ...
    are the functions of the same name of the standard library of reals and
    rounding, infinities and NaN are out of the model.

    The three.js objects the component drives ([Vector3], [Box3],
    [AnimationAction], [AnimationMixer], [EventDispatcher]) are modelled by the
    few fields and methods the component uses. *)

From Stdlib Require Import Reals Lra List String Bool Arith Lia.
Import ListNotations.
Open Scope R_scope.

(** ** Comparisons of numbers, as the booleans JavaScript computes *)

Definition Rltb (a b : R) : bool := if Rlt_dec a b then true else false.
Definition Rleb (a b : R) : bool := if Rle_dec a b then true else false.
Definition Rgtb (a b : R) : bool := Rltb b a.
Definition Rgeb (a b : R) : bool := Rleb b a.

(** [Math.floor] *)
Definition floor (a : R) : R := IZR (Int_part a).

(** [Math.atan2 y x] *)
Definition atan2 (y x : R) : R :=
  if Rltb 0 x then atan (y / x)
  else if Rltb x 0 then (if Rleb 0 y then atan (y / x) + PI else atan (y / x) - PI)
  else if Rltb 0 y then PI / 2
  else if Rltb y 0 then - (PI / 2)
  else 0.

(** ** THREE.Vector3 *)

Record Vector3 : Type := vec3 { vec_x : R; vec_y : R; vec_z : R }.

Definition vadd (a b : Vector3) : Vector3 :=
  vec3 (vec_x a + vec_x b) (vec_y a + vec_y b) (vec_z a + vec_z b).

Definition vsub (a b : Vector3) : Vector3 :=
  vec3 (vec_x a - vec_x b) (vec_y a - vec_y b) (vec_z a - vec_z b).

Definition multiplyScalar (a : Vector3) (k : R) : Vector3 :=
  vec3 (vec_x a * k) (vec_y a * k) (vec_z a * k).

(** [length()] *)
Definition vlength (a : Vector3) : R :=
  sqrt (vec_x a * vec_x a + vec_y a * vec_y a + vec_z a * vec_z a).

(** [divideScalar(s)] is [multiplyScalar(1 / s)] *)
Definition divideScalar (a : Vector3) (k : R) : Vector3 :=
  multiplyScalar a (1 / k).

(** [normalize()] is [divideScalar(length() || 1)] *)
Definition normalize (a : Vector3) : Vector3 :=
  divideScalar a (if Rltb 0 (vlength a) then vlength a else 1).

Definition distanceTo (a b : Vector3) : R := vlength (vsub a b).

(** [applyAxisAngle(new Vector3(0, 1, 0), angle)]: rotation about the Y axis *)
Definition applyAxisAngleY (a : Vector3) (angle : R) : Vector3 :=
  vec3 (vec_x a * cos angle + vec_z a * sin angle)
       (vec_y a)
       (vec_z a * cos angle - vec_x a * sin angle).

Definition vzero : Vector3 := vec3 0 0 0.

(** ** THREE.Box3 *)

Record Box3 : Type := box3 { box_min : Vector3; box_max : Vector3 }.

Definition expandByScalar (b : Box3) (k : R) : Box3 :=
  box3 (vec3 (vec_x (box_min b) - k) (vec_y (box_min b) - k) (vec_z (box_min b) - k))
       (vec3 (vec_x (box_max b) + k) (vec_y (box_max b) + k) (vec_z (box_max b) + k)).

Definition containsPoint (b : Box3) (p : Vector3) : bool :=
  Rleb (vec_x (box_min b)) (vec_x p) && Rleb (vec_x p) (vec_x (box_max b)) &&
  Rleb (vec_y (box_min b)) (vec_y p) && Rleb (vec_y p) (vec_y (box_max b)) &&
  Rleb (vec_z (box_min b)) (vec_z p) && Rleb (vec_z p) (vec_z (box_max b)).

Definition isEmpty (b : Box3) : bool :=
  Rltb (vec_x (box_max b)) (vec_x (box_min b)) ||
  Rltb (vec_y (box_max b)) (vec_y (box_min b)) ||
  Rltb (vec_z (box_max b)) (vec_z (box_min b)).

(** [getCenter(target)]: the midpoint, the origin for an empty box *)
Definition getCenter (b : Box3) : Vector3 :=
  if isEmpty b then vzero
  else multiplyScalar (vadd (box_min b) (box_max b)) (1 / 2).

(** ** Constants of the component *)

Definition moveSpeed : R := 2.
Definition sprintSpeed : R := 4.
Definition gravity : R := - (981 / 100).
Definition bounceReduction : R := 7 / 10.
Definition groundY : R := - (15 / 10).
Definition basketballRadius : R := 12 / 100.
Definition pickupDistance : R := 15 / 10.

(** ** Collision queries *)

Inductive Face : Type := Top | Bottom | Left | Right | Front | Back.

Definition Face_eqb (a b : Face) : bool :=
  match a, b with
  | Top, Top | Bottom, Bottom | Left, Left | Right, Right
  | Front, Front | Back, Back => true
  | _, _ => false
  end.

(** The result object [{ hasCollision, hitFace? }] *)
Record CollisionInfo : Type :=
  mkCollisionInfo { hasCollision : bool; hitFace : option Face }.

Definition noCollision : CollisionInfo := mkCollisionInfo false None.

(** A sphere centre touches a box: inside the box grown by the radius and
    not inside the box itself (the two nested [if]s of both queries). *)
Definition surfaceHit (radius : R) (collisionBox : Box3) (center : Vector3) : bool :=
  containsPoint (expandByScalar collisionBox radius) center &&
  negb (containsPoint collisionBox center).

(** [checkCollision]: the loop over [collisionBoxes] *)
Definition characterRadius : R := 2 / 10.

Definition checkCollision (collisionBoxes : list Box3) (newPosition : Vector3) : bool :=
  let characterCenter :=
    vec3 (vec_x newPosition) (vec_y newPosition + 5 / 10) (vec_z newPosition) in
  existsb (fun collisionBox => surfaceHit characterRadius collisionBox characterCenter)
          collisionBoxes.

Definition penetrationX (expandedBox : Box3) (ballCenter : Vector3) : R :=
  Rmin (vec_x ballCenter - vec_x (box_min expandedBox))
       (vec_x (box_max expandedBox) - vec_x ballCenter).
Definition penetrationY (expandedBox : Box3) (ballCenter : Vector3) : R :=
  Rmin (vec_y ballCenter - vec_y (box_min expandedBox))
       (vec_y (box_max expandedBox) - vec_y ballCenter).
Definition penetrationZ (expandedBox : Box3) (ballCenter : Vector3) : R :=
  Rmin (vec_z ballCenter - vec_z (box_min expandedBox))
       (vec_z (box_max expandedBox) - vec_z ballCenter).

(** The [if / else if / else] chain that assigns [hitFace] *)
Definition classifyFace (collisionBox : Box3) (ballCenter : Vector3) : Face :=
  let expandedBox := expandByScalar collisionBox basketballRadius in
  let pX := penetrationX expandedBox ballCenter in
  let pY := penetrationY expandedBox ballCenter in
  let pZ := penetrationZ expandedBox ballCenter in
  if Rleb pX pY && Rleb pX pZ then
    if Rltb (vec_x ballCenter) (vec_x (getCenter collisionBox)) then Left else Right
  else if Rleb pY pZ then
    if Rltb (vec_y ballCenter) (vec_y (getCenter collisionBox)) then Bottom else Top
  else
    if Rltb (vec_z ballCenter) (vec_z (getCenter collisionBox)) then Back else Front.

(** [collisionObjectNames[i] === 'Object_28'] with a face other than front
    and back: the [continue] of the loop *)
Definition restrictedName : string := "Object_28"%string.

Definition faceAllowed (name : option string) (f : Face) : bool :=
  match name with
  | Some n => if String.eqb n restrictedName
              then Face_eqb f Front || Face_eqb f Back
              else true
  | None => true
  end.

(** The [for] loop of [checkBasketballCollision], from index [i] on;
    [boxes] is the part of [collisionBoxes] not yet visited. *)
Fixpoint scanBoxes (names : list string) (i : nat) (boxes : list Box3)
         (ballCenter : Vector3) : CollisionInfo :=
  match boxes with
  | [] => noCollision
  | collisionBox :: rest =>
      if surfaceHit basketballRadius collisionBox ballCenter then
        let f := classifyFace collisionBox ballCenter in
        if faceAllowed (nth_error names i) f
        then mkCollisionInfo true (Some f)
        else scanBoxes names (S i) rest ballCenter
      else scanBoxes names (S i) rest ballCenter
  end.

Definition checkBasketballCollision (collisionBoxes : list Box3)
           (collisionObjectNames : list string) (newPosition : Vector3) : CollisionInfo :=
  scanBoxes collisionObjectNames 0 collisionBoxes newPosition.

(** ** Animation clips and actions *)

(** The clip names of [animationStates] (the strings passed to
    [playAnimation]). *)
Inductive AnimState : Type :=
  | idle | wlking | walkingbackward | running
  | holdingball | standingtocrouched | throwball.

Definition AnimState_eqb (a b : AnimState) : bool :=
  match a, b with
  | idle, idle | wlking, wlking | walkingbackward, walkingbackward
  | running, running | holdingball, holdingball
  | standingtocrouched, standingtocrouched | throwball, throwball => true
  | _, _ => false
  end.

Inductive Loop : Type := LoopRepeat | LoopOnce.
Inductive FadeKind : Type := FadeIn | FadeOut.

(** The part of a [THREE.AnimationAction] the component relies on.  A
    scheduled fade is kept as its kind and the mixer time at which it ends. *)
Record AnimationAction : Type := mkAction {
  time : R;
  clipDuration : R;
  loop : Loop;
  clampWhenFinished : bool;
  paused : bool;
  enabled : bool;
  fading : option (FadeKind * R)
}.

Definition reset (a : AnimationAction) : AnimationAction :=
  mkAction 0 (clipDuration a) (loop a) (clampWhenFinished a) false true None.

Definition fadeIn (now duration : R) (a : AnimationAction) : AnimationAction :=
  mkAction (time a) (clipDuration a) (loop a) (clampWhenFinished a)
           (paused a) (enabled a) (Some (FadeIn, now + duration)).

Definition fadeOut (now duration : R) (a : AnimationAction) : AnimationAction :=
  mkAction (time a) (clipDuration a) (loop a) (clampWhenFinished a)
           (paused a) (enabled a) (Some (FadeOut, now + duration)).

(** ** Listeners of the mixer's [finished] event

    [this.onCrouchFinished.bind(this)] builds a new function object at every
    evaluation; a listener is therefore a function identity together with
    the method it runs. *)
Inductive Handler : Type := OnCrouchFinished | OnThrowFinished.

Record Listener : Type := mkListener { functionId : nat; handler : Handler }.

(** ** Console messages (the banners the component prints) *)
Inductive LogEntry : Type :=
  | LogPickupCompleted        (* ===== BALL PICKUP COMPLETED ===== *)
  | LogThrowFinished          (* ===== THROW ANIMATION FINISHED ===== *)
  | LogReleasing              (* Releasing ball at 80% of throw animation *)
  | LogThrown                 (* ===== BASKETBALL THROWN ===== *)
  | LogBallWasThrown          (* Ball was thrown - preventing hand update *)
  | LogVelocityNotThrowing    (* Ball has velocity but not throwing *)
  | LogFellThroughWorld       (* BASKETBALL FELL THROUGH WORLD - RESETTING *)
  | LogTooFarAway             (* BASKETBALL TOO FAR AWAY - RESETTING *)
  | LogBounce (f : Face)      (* Basketball collision detected - bouncing off *)
  | LogPickingUp              (* ===== PICKING UP BALL ===== *)
  | LogStartingThrow.         (* ===== STARTING THROW ANIMATION ===== *)

Definition LogEntry_eqb (a b : LogEntry) : bool :=
  match a, b with
  | LogPickupCompleted, LogPickupCompleted | LogThrowFinished, LogThrowFinished
  | LogReleasing, LogReleasing | LogThrown, LogThrown
  | LogBallWasThrown, LogBallWasThrown
  | LogVelocityNotThrowing, LogVelocityNotThrowing
  | LogFellThroughWorld, LogFellThroughWorld | LogTooFarAway, LogTooFarAway
  | LogPickingUp, LogPickingUp | LogStartingThrow, LogStartingThrow => true
  | LogBounce f, LogBounce g => Face_eqb f g
  | _, _ => false
  end.

(** ** The component's state *)

(** [avatar.position] and [avatar.rotation.y] *)
Record Avatar : Type := mkAvatar { position : Vector3; rotationY : R }.

(** [basketball.position] and [basketball.visible] *)
Record Basketball : Type := mkBasketball { ballPosition : Vector3; visible : bool }.

(** The fields of [ThreeScene] that the simulation reads and writes.
    [avatar] and [basketball] are [None] until their model is loaded;
    [actions] is the table filled from the loaded clips and [keys] the table
    of pressed keys, both kept as association lists; [activeActions],
    [mixerTime] and [listeners] belong to the mixer. *)
Record State : Type := mkState {
  avatar : option Avatar;
  basketball : option Basketball;
  basketballVelocity : Vector3;
  hasBall : bool;
  isCrouched : bool;
  isTransitioning : bool;
  isThrowingBall : bool;
  ballWasThrown : bool;
  currentState : AnimState;
  currentAction : option AnimState;
  actions : list (AnimState * AnimationAction);
  activeActions : list AnimState;
  mixerTime : R;
  listeners : list Listener;
  nextFunctionId : nat;
  keys : list (string * bool);
  cameraAngle : R;
  collisionBoxes : list Box3;
  collisionObjectNames : list string;
  console : list LogEntry
}.

Definition set_avatar (v : option Avatar) (s : State) : State :=
  mkState v (basketball s) (basketballVelocity s) (hasBall s) (isCrouched s)
    (isTransitioning s) (isThrowingBall s) (ballWasThrown s) (currentState s)
    (currentAction s) (actions s) (activeActions s) (mixerTime s)
    (listeners s) (nextFunctionId s) (keys s) (cameraAngle s)
    (collisionBoxes s) (collisionObjectNames s) (console s).
Definition set_basketball (v : option Basketball) (s : State) : State :=
  mkState (avatar s) v (basketballVelocity s) (hasBall s) (isCrouched s)
    (isTransitioning s) (isThrowingBall s) (ballWasThrown s) (currentState s)
    (currentAction s) (actions s) (activeActions s) (mixerTime s)
    (listeners s) (nextFunctionId s) (keys s) (cameraAngle s)
    (collisionBoxes s) (collisionObjectNames s) (console s).
Definition set_basketballVelocity (v : Vector3) (s : State) : State :=
  mkState (avatar s) (basketball s) v (hasBall s) (isCrouched s)
    (isTransitioning s) (isThrowingBall s) (ballWasThrown s) (currentState s)
    (currentAction s) (actions s) (activeActions s) (mixerTime s)
    (listeners s) (nextFunctionId s) (keys s) (cameraAngle s)
    (collisionBoxes s) (collisionObjectNames s) (console s).
Definition set_hasBall (v : bool) (s : State) : State :=
  mkState (avatar s) (basketball s) (basketballVelocity s) v (isCrouched s)
    (isTransitioning s) (isThrowingBall s) (ballWasThrown s) (currentState s)
    (currentAction s) (actions s) (activeActions s) (mixerTime s)
    (listeners s) (nextFunctionId s) (keys s) (cameraAngle s)
    (collisionBoxes s) (collisionObjectNames s) (console s).
Definition set_isCrouched (v : bool) (s : State) : State :=
  mkState (avatar s) (basketball s) (basketballVelocity s) (hasBall s) v
    (isTransitioning s) (isThrowingBall s) (ballWasThrown s) (currentState s)
    (currentAction s) (actions s) (activeActions s) (mixerTime s)
    (listeners s) (nextFunctionId s) (keys s) (cameraAngle s)
    (collisionBoxes s) (collisionObjectNames s) (console s).
Definition set_isTransitioning (v : bool) (s : State) : State :=
  mkState (avatar s) (basketball s) (basketballVelocity s) (hasBall s)
    (isCrouched s) v (isThrowingBall s) (ballWasThrown s) (currentState s)
    (currentAction s) (actions s) (activeActions s) (mixerTime s)
    (listeners s) (nextFunctionId s) (keys s) (cameraAngle s)
    (collisionBoxes s) (collisionObjectNames s) (console s).
Definition set_isThrowingBall (v : bool) (s : State) : State :=
  mkState (avatar s) (basketball s) (basketballVelocity s) (hasBall s)
    (isCrouched s) (isTransitioning s) v (ballWasThrown s) (currentState s)
    (currentAction s) (actions s) (activeActions s) (mixerTime s)
    (listeners s) (nextFunctionId s) (keys s) (cameraAngle s)
    (collisionBoxes s) (collisionObjectNames s) (console s).
Definition set_ballWasThrown (v : bool) (s : State) : State :=
  mkState (avatar s) (basketball s) (basketballVelocity s) (hasBall s)
    (isCrouched s) (isTransitioning s) (isThrowingBall s) v (currentState s)
    (currentAction s) (actions s) (activeActions s) (mixerTime s)
    (listeners s) (nextFunctionId s) (keys s) (cameraAngle s)
    (collisionBoxes s) (collisionObjectNames s) (console s).
Definition set_currentState (v : AnimState) (s : State) : State :=
  mkState (avatar s) (basketball s) (basketballVelocity s) (hasBall s)
    (isCrouched s) (isTransitioning s) (isThrowingBall s) (ballWasThrown s) v
    (currentAction s) (actions s) (activeActions s) (mixerTime s)
    (listeners s) (nextFunctionId s) (keys s) (cameraAngle s)
    (collisionBoxes s) (collisionObjectNames s) (console s).
Definition set_currentAction (v : option AnimState) (s : State) : State :=
  mkState (avatar s) (basketball s) (basketballVelocity s) (hasBall s)
    (isCrouched s) (isTransitioning s) (isThrowingBall s) (ballWasThrown s)
    (currentState s) v (actions s) (activeActions s) (mixerTime s)
    (listeners s) (nextFunctionId s) (keys s) (cameraAngle s)
    (collisionBoxes s) (collisionObjectNames s) (console s).
Definition set_actions (v : list (AnimState * AnimationAction)) (s : State) : State :=
  mkState (avatar s) (basketball s) (basketballVelocity s) (hasBall s)
    (isCrouched s) (isTransitioning s) (isThrowingBall s) (ballWasThrown s)
    (currentState s) (currentAction s) v (activeActions s) (mixerTime s)
    (listeners s) (nextFunctionId s) (keys s) (cameraAngle s)
    (collisionBoxes s) (collisionObjectNames s) (console s).
Definition set_activeActions (v : list AnimState) (s : State) : State :=
  mkState (avatar s) (basketball s) (basketballVelocity s) (hasBall s)
    (isCrouched s) (isTransitioning s) (isThrowingBall s) (ballWasThrown s)
    (currentState s) (currentAction s) (actions s) v (mixerTime s)
    (listeners s) (nextFunctionId s) (keys s) (cameraAngle s)
    (collisionBoxes s) (collisionObjectNames s) (console s).
Definition set_mixerTime (v : R) (s : State) : State :=
  mkState (avatar s) (basketball s) (basketballVelocity s) (hasBall s)
    (isCrouched s) (isTransitioning s) (isThrowingBall s) (ballWasThrown s)
    (currentState s) (currentAction s) (actions s) (activeActions s) v
    (listeners s) (nextFunctionId s) (keys s) (cameraAngle s)
    (collisionBoxes s) (collisionObjectNames s) (console s).
Definition set_listeners (v : list Listener) (s : State) : State :=
  mkState (avatar s) (basketball s) (basketballVelocity s) (hasBall s)
    (isCrouched s) (isTransitioning s) (isThrowingBall s) (ballWasThrown s)
    (currentState s) (currentAction s) (actions s) (activeActions s)
    (mixerTime s) v (nextFunctionId s) (keys s) (cameraAngle s)
    (collisionBoxes s) (collisionObjectNames s) (console s).
Definition set_nextFunctionId (v : nat) (s : State) : State :=
  mkState (avatar s) (basketball s) (basketballVelocity s) (hasBall s)
    (isCrouched s) (isTransitioning s) (isThrowingBall s) (ballWasThrown s)
    (currentState s) (currentAction s) (actions s) (activeActions s)
    (mixerTime s) (listeners s) v (keys s) (cameraAngle s) (collisionBoxes s)
    (collisionObjectNames s) (console s).
Definition set_keys (v : list (string * bool)) (s : State) : State :=
  mkState (avatar s) (basketball s) (basketballVelocity s) (hasBall s)
    (isCrouched s) (isTransitioning s) (isThrowingBall s) (ballWasThrown s)
    (currentState s) (currentAction s) (actions s) (activeActions s)
    (mixerTime s) (listeners s) (nextFunctionId s) v (cameraAngle s)
    (collisionBoxes s) (collisionObjectNames s) (console s).
Definition set_cameraAngle (v : R) (s : State) : State :=
  mkState (avatar s) (basketball s) (basketballVelocity s) (hasBall s)
    (isCrouched s) (isTransitioning s) (isThrowingBall s) (ballWasThrown s)
    (currentState s) (currentAction s) (actions s) (activeActions s)
    (mixerTime s) (listeners s) (nextFunctionId s) (keys s) v
    (collisionBoxes s) (collisionObjectNames s) (console s).
Definition set_collisionBoxes (v : list Box3) (s : State) : State :=
  mkState (avatar s) (basketball s) (basketballVelocity s) (hasBall s)
    (isCrouched s) (isTransitioning s) (isThrowingBall s) (ballWasThrown s)
    (currentState s) (currentAction s) (actions s) (activeActions s)
    (mixerTime s) (listeners s) (nextFunctionId s) (keys s) (cameraAngle s) v
    (collisionObjectNames s) (console s).
Definition set_collisionObjectNames (v : list string) (s : State) : State :=
  mkState (avatar s) (basketball s) (basketballVelocity s) (hasBall s)
    (isCrouched s) (isTransitioning s) (isThrowingBall s) (ballWasThrown s)
    (currentState s) (currentAction s) (actions s) (activeActions s)
    (mixerTime s) (listeners s) (nextFunctionId s) (keys s) (cameraAngle s)
    (collisionBoxes s) v (console s).
Definition set_console (v : list LogEntry) (s : State) : State :=
  mkState (avatar s) (basketball s) (basketballVelocity s) (hasBall s)
    (isCrouched s) (isTransitioning s) (isThrowingBall s) (ballWasThrown s)
    (currentState s) (currentAction s) (actions s) (activeActions s)
    (mixerTime s) (listeners s) (nextFunctionId s) (keys s) (cameraAngle s)
    (collisionBoxes s) (collisionObjectNames s) v.

Definition log (e : LogEntry) (s : State) : State :=
  set_console (console s ++ [e]) s.

(** [this.actions[k]] *)
Fixpoint lookupAction (k : AnimState) (l : list (AnimState * AnimationAction))
  : option AnimationAction :=
  match l with
  | [] => None
  | (k', a) :: rest => if AnimState_eqb k' k then Some a else lookupAction k rest
  end.

Definition action (s : State) (k : AnimState) : option AnimationAction :=
  lookupAction k (actions s).

(** The action object stored under [k] is mutated in place *)
Definition setAction (k : AnimState) (a : AnimationAction) (s : State) : State :=
  set_actions
    (map (fun e => if AnimState_eqb (fst e) k then (fst e, a) else e) (actions s)) s.

(** [this.keys[name]], [undefined] counting as not pressed *)
Fixpoint lookupKey (name : string) (l : list (string * bool)) : bool :=
  match l with
  | [] => false
  | (n, v) :: rest => if String.eqb n name then v else lookupKey name rest
  end.

Definition key (s : State) (name : string) : bool := lookupKey name (keys s).

(** [this.keys[name] = v] *)
Fixpoint assignKey (name : string) (v : bool) (l : list (string * bool))
  : list (string * bool) :=
  match l with
  | [] => [(name, v)]
  | (n, w) :: rest =>
      if String.eqb n name then (n, v) :: rest else (n, w) :: assignKey name v rest
  end.

(** Apply a method to the action stored under [k] *)
Definition onAction (k : AnimState) (f : AnimationAction -> AnimationAction)
           (s : State) : State :=
  match action s k with
  | Some a => setAction k (f a) s
  | None => s
  end.

(** [action.play()]: the mixer activates the action if it is not yet active *)
Definition play (k : AnimState) (s : State) : State :=
  if existsb (AnimState_eqb k) (activeActions s) then s
  else set_activeActions (activeActions s ++ [k]) s.

(** [method.bind(this)]: a fresh function object *)
Definition bind (h : Handler) (s : State) : Listener * State :=
  (mkListener (nextFunctionId s) h, set_nextFunctionId (S (nextFunctionId s)) s).

(** [EventDispatcher.addEventListener]: pushed unless already registered *)
Definition addEventListener (l : Listener) (s : State) : State :=
  if existsb (fun l' => Nat.eqb (functionId l') (functionId l)) (listeners s) then s
  else set_listeners (listeners s ++ [l]) s.

(** [indexOf] followed by [splice(index, 1)] *)
Fixpoint removeFirst (id : nat) (ls : list Listener) : list Listener :=
  match ls with
  | [] => []
  | l :: rest => if Nat.eqb (functionId l) id then rest else l :: removeFirst id rest
  end.

Definition removeEventListener (l : Listener) (s : State) : State :=
  set_listeners (removeFirst (functionId l) (listeners s)) s.

(** ** playAnimation *)

Definition playAnimation (state : AnimState) (s : State) : State :=
  match action s state with
  | None => s
  | Some _ =>
      let s :=
        match currentAction s with
        | Some cur =>
            if negb (AnimState_eqb cur state)
            then onAction cur (fadeOut (mixerTime s) (3 / 10)) s
            else s
        | None => s
        end in
      let s := set_currentAction (Some state) s in
      let s := onAction state (fun a => fadeIn (mixerTime s) (3 / 10) (reset a)) s in
      let s := play state s in
      match state with
      | standingtocrouched =>
          let s := set_isTransitioning true s in
          let (l, s) := bind OnCrouchFinished s in
          addEventListener l s
      | throwball =>
          let s := set_isTransitioning true s in
          let s := set_isThrowingBall true s in
          let (l, s) := bind OnThrowFinished s in
          addEventListener l s
      | _ => s
      end
  end.

(** ** Throwing and hand following *)

Definition throwBasketball (s : State) : State :=
  match basketball s, avatar s with
  | Some b, Some av =>
      let throwDirection := vec3 (sin (rotationY av)) 0 (cos (rotationY av)) in
      let s := set_basketball (Some (mkBasketball (ballPosition b) true)) s in
      let throwForce := 8 in
      let v := multiplyScalar throwDirection throwForce in
      let s := set_basketballVelocity (vec3 (vec_x v) 6 (vec_z v)) s in
      let s := set_ballWasThrown true s in
      log LogThrown s
  | _, _ => s
  end.

(** [Math.min(animationTime / animationDuration, 1)] *)
Definition progressOf (a : AnimationAction) : R :=
  Rmin (time a / clipDuration a) 1.

(** The hand offset of the first three phases of the throw
    ([progress <= 0.6]) *)
Definition throwOffset (progress : R) : Vector3 :=
  if Rleb progress (3 / 10) then
    let downProgress := progress / (3 / 10) in
    let downCurve := sin (downProgress * PI * (5 / 10)) in
    vec3 0 (1 - downCurve * (2 / 10)) (4 / 10 - downCurve * (1 / 10))
  else if Rleb progress (55 / 100) then
    let upProgress := (progress - 3 / 10) / (25 / 100) in
    let upCurve := Rpower upProgress (3 / 10) in
    vec3 0 (1 + (- (2 / 10) + upCurve * (9 / 10)))
           (4 / 10 + (- (1 / 10) + upCurve * (15 / 100)))
  else
    let throwProgress := (progress - 55 / 100) / (25 / 100) in
    vec3 0 (1 + 7 / 10) (4 / 10 + (5 / 100 - throwProgress * (3 / 10))).

(** The last two statements: rotate the offset and place the ball *)
Definition placeBallInHand (handOffset : Vector3) (b : Basketball) (av : Avatar)
           (s : State) : State :=
  let handOffset := applyAxisAngleY handOffset (rotationY av) in
  set_basketball (Some (mkBasketball (vadd (position av) handOffset) (visible b))) s.

Definition updateBasketballInHand (s : State) : State :=
  match basketball s, avatar s with
  | Some b, Some av =>
      if negb (hasBall s) then s
      else if ballWasThrown s then
        set_hasBall false (log LogBallWasThrown s)
      else if negb (isThrowingBall s) && Rgtb (vlength (basketballVelocity s)) (1 / 10)
      then log LogVelocityNotThrowing s
      else
        let handOffset := vec3 0 1 (4 / 10) in
        match (if isThrowingBall s then currentAction s else None) with
        | Some cur =>
            match action s cur with
            | Some a =>
                let progress := progressOf a in
                if Rleb progress (6 / 10)
                then placeBallInHand (throwOffset progress) b av s
                else if hasBall s
                     then throwBasketball (set_hasBall false (log LogReleasing s))
                     else s
            | None => placeBallInHand handOffset b av s
            end
        | None => placeBallInHand handOffset b av s
        end
  | _, _ => s
  end.

Definition attachBasketballToHand (s : State) : State :=
  match basketball s, avatar s with
  | Some b, Some _ =>
      updateBasketballInHand
        (set_basketball (Some (mkBasketball (ballPosition b) true)) s)
  | _, _ => s
  end.

(** ** Completion handlers *)

Definition onCrouchFinished (s : State) : State :=
  let (l, s) := bind OnCrouchFinished s in
  let s := removeEventListener l s in
  let s := set_isCrouched true s in
  let s := set_hasBall true s in
  let s := set_isTransitioning false s in
  let s := set_ballWasThrown false s in
  let s := attachBasketballToHand s in
  let s := playAnimation holdingball s in
  let s := set_currentState holdingball s in
  log LogPickupCompleted s.

Definition onThrowFinished (s : State) : State :=
  let (l, s) := bind OnThrowFinished s in
  let s := removeEventListener l s in
  let s := set_isCrouched false s in
  let s := set_isTransitioning false s in
  let s := set_isThrowingBall false s in
  let s := set_hasBall false s in
  let s := log LogThrowFinished s in
  let s := playAnimation idle s in
  set_currentState idle s.

Definition call (h : Handler) (s : State) : State :=
  match h with
  | OnCrouchFinished => onCrouchFinished s
  | OnThrowFinished => onThrowFinished s
  end.

(** ** The mixer

    [dispatchEvent({ type: 'finished' })] calls a copy of the listener
    array, in registration order. *)
Definition dispatchFinished (s : State) : State :=
  fold_left (fun s l => call (handler l) s) (listeners s) s.

(** [AnimationAction._updateTime] for a non-zero [deltaTime]: the new clip
    time, the new [paused] and [enabled] flags, and whether [finished] is
    dispatched. *)
Definition updateTime (deltaTime : R) (a : AnimationAction)
  : AnimationAction * bool :=
  let t := time a + deltaTime in
  match loop a with
  | LoopOnce =>
      if Rgeb t (clipDuration a) || Rltb t 0 then
        let t := if Rgeb t (clipDuration a) then clipDuration a else 0 in
        (mkAction t (clipDuration a) (loop a) (clampWhenFinished a)
                  (if clampWhenFinished a then true else paused a)
                  (if clampWhenFinished a then enabled a else false)
                  (fading a), true)
      else
        (mkAction t (clipDuration a) (loop a) (clampWhenFinished a)
                  (paused a) (enabled a) (fading a), false)
  | LoopRepeat =>
      let t := if Rgeb t (clipDuration a) || Rltb t 0
               then t - clipDuration a * floor (t / clipDuration a)
               else t in
      (mkAction t (clipDuration a) (loop a) (clampWhenFinished a)
                (paused a) (enabled a) (fading a), false)
  end.

(** [AnimationAction._updateWeight]: a fade whose end the mixer time has
    passed is dropped, and a faded-out action is disabled. *)
Definition updateWeight (now : R) (a : AnimationAction) : AnimationAction :=
  if enabled a then
    match fading a with
    | Some (kind, fadeEnd) =>
        if Rgtb now fadeEnd then
          mkAction (time a) (clipDuration a) (loop a) (clampWhenFinished a)
                   (paused a)
                   (match kind with FadeOut => false | FadeIn => enabled a end)
                   None
        else a
    | None => a
    end
  else a.

(** [AnimationAction._update], called by the mixer for an active action *)
Definition updateAction (deltaTime : R) (s : State) (k : AnimState) : State :=
  match action s k with
  | None => s
  | Some a =>
      if negb (enabled a) then s
      else
        let deltaTime := if paused a then 0 else deltaTime in
        let s :=
          if Rltb deltaTime 0 || Rltb 0 deltaTime then
            let (a', finished) := updateTime deltaTime a in
            let s := setAction k a' s in
            if finished then dispatchFinished s else s
          else s in
        onAction k (updateWeight (mixerTime s)) s
  end.

(** [mixer.update(delta)] *)
Definition mixerUpdate (delta : R) (s : State) : State :=
  let s := set_mixerTime (mixerTime s + delta) s in
  fold_left (updateAction delta) (activeActions s) s.

(** ** Ball physics *)

Definition resetBasketball (b : Basketball) (s : State) : State :=
  let s := set_basketball
             (Some (mkBasketball (vec3 3 (- (12 / 10)) 0) (visible b))) s in
  let s := set_basketballVelocity vzero s in
  let s := set_hasBall false s in
  let s := set_isThrowingBall false s in
  set_ballWasThrown false s.

(** The bounce applied for the face hit, followed by
    [basketballVelocity.multiplyScalar(0.9)] *)
Definition bounceVelocity (f : Face) (v : Vector3) : Vector3 :=
  let bounceStrength := 8 / 10 in
  let v :=
    match f with
    | Top => vec3 (vec_x v) (- Rabs (vec_y v) * bounceStrength) (vec_z v)
    | Bottom => vec3 (vec_x v) (Rabs (vec_y v) * bounceStrength) (vec_z v)
    | Left => vec3 (Rabs (vec_x v) * bounceStrength) (vec_y v) (vec_z v)
    | Right => vec3 (- Rabs (vec_x v) * bounceStrength) (vec_y v) (vec_z v)
    | Front => vec3 (vec_x v) (vec_y v) (- Rabs (vec_z v) * bounceStrength)
    | Back => vec3 (vec_x v) (vec_y v) (Rabs (vec_z v) * bounceStrength)
    end in
  multiplyScalar v (9 / 10).

(** The block under [// Ground collision] *)
Definition groundCollision (b : Basketball) (s : State) : State :=
  if Rleb (vec_y (ballPosition b)) (groundY + basketballRadius) then
    let p := ballPosition b in
    let s := set_basketball
               (Some (mkBasketball (vec3 (vec_x p) (groundY + basketballRadius) (vec_z p))
                                   (visible b))) s in
    let v := basketballVelocity s in
    let y := if Rgtb (Rabs (vec_y v)) (1 / 10)
             then - vec_y v * bounceReduction else 0 in
    set_basketballVelocity (vec3 (vec_x v * (8 / 10)) y (vec_z v * (8 / 10))) s
  else s.

(** The candidate position of a free-flight tick, from the velocity after
    gravity *)
Definition gravityVelocity (delta : R) (v : Vector3) : Vector3 :=
  vec3 (vec_x v) (vec_y v + gravity * delta) (vec_z v).

Definition candidatePosition (delta : R) (p v : Vector3) : Vector3 :=
  vadd p (vec3 (vec_x v * delta) (vec_y v * delta) (vec_z v * delta)).

Definition updateBasketballPhysics (delta : R) (s : State) : State :=
  match basketball s with
  | None => s
  | Some b =>
      if hasBall s then updateBasketballInHand s
      else if Rltb (vec_y (ballPosition b)) (- 10) then
        resetBasketball b (log LogFellThroughWorld s)
      else if Rgtb (vlength (ballPosition b)) 50 then
        resetBasketball b (log LogTooFarAway s)
      else
        let v := gravityVelocity delta (basketballVelocity s) in
        let s := set_basketballVelocity v s in
        let newPosition := candidatePosition delta (ballPosition b) v in
        let collisionInfo :=
          checkBasketballCollision (collisionBoxes s) (collisionObjectNames s)
                                   newPosition in
        let (b, s) :=
          match hasCollision collisionInfo, hitFace collisionInfo with
          | true, Some f =>
              (b, set_basketballVelocity (bounceVelocity f v) (log (LogBounce f) s))
          | true, None => (b, set_basketballVelocity (multiplyScalar v (9 / 10)) s)
          | false, _ =>
              let b := mkBasketball newPosition (visible b) in
              (b, set_basketball (Some b) s)
          end in
        groundCollision b s
  end.

Definition canPickupBall (s : State) : bool :=
  match basketball s, avatar s with
  | Some b, Some av =>
      if hasBall s then false
      else Rleb (distanceTo (position av) (ballPosition b)) pickupDistance
  | _, _ => false
  end.

(** ** Character movement *)

(** The arrow keys of [updateCameraPosition] that turn the camera; the
    camera's own position is rendering only. *)
Definition updateCameraPosition (s : State) : State :=
  match avatar s with
  | None => s
  | Some _ =>
      let s := if key s "arrowleft"%string
               then set_cameraAngle (cameraAngle s + 2 / 100) s else s in
      if key s "arrowright"%string
      then set_cameraAngle (cameraAngle s - 2 / 100) s else s
  end.

Definition cameraForward (s : State) : Vector3 :=
  vec3 (- sin (cameraAngle s)) 0 (- cos (cameraAngle s)).
Definition cameraRight (s : State) : Vector3 :=
  vec3 (cos (cameraAngle s)) 0 (- sin (cameraAngle s)).

Definition currentSpeed (s : State) : R :=
  if key s "shift"%string then sprintSpeed else moveSpeed.

(** [moveDir] after the four key tests *)
Definition moveDirOf (s : State) : Vector3 :=
  let moveDir := vzero in
  let moveDir := if key s "z"%string then vadd moveDir (cameraForward s) else moveDir in
  let moveDir := if key s "s"%string then vsub moveDir (cameraForward s) else moveDir in
  let moveDir := if key s "q"%string then vsub moveDir (cameraRight s) else moveDir in
  if key s "d"%string then vadd moveDir (cameraRight s) else moveDir.

(** [newState] after the four key tests *)
Definition newStateOf (s : State) : AnimState :=
  let isSprinting := key s "shift"%string in
  let ahead := if hasBall s then holdingball
               else if isSprinting then running else wlking in
  let newState := if hasBall s then holdingball else idle in
  let newState := if key s "z"%string then ahead else newState in
  let newState := if key s "s"%string
                  then (if hasBall s then holdingball else walkingbackward)
                  else newState in
  let newState := if key s "q"%string then ahead else newState in
  if key s "d"%string then ahead else newState.

Definition handleMovement (delta : R) (s : State) : State :=
  match avatar s with
  | None => s
  | Some av =>
      if isTransitioning s then s
      else
        let moveDir := moveDirOf s in
        let newState := newStateOf s in
        let s :=
          if Rgtb (vlength moveDir) 0 then
            let moveDir := normalize moveDir in
            let movement := multiplyScalar moveDir (currentSpeed s * delta) in
            let newPosition := vadd (position av) movement in
            let angle := atan2 (vec_x moveDir) (vec_z moveDir) in
            let s :=
              if negb (checkCollision (collisionBoxes s) newPosition)
              then set_avatar (Some (mkAvatar newPosition angle)) s
              else set_avatar (Some (mkAvatar (position av) angle)) s in
            if negb (AnimState_eqb newState (currentState s))
            then set_currentState newState (playAnimation newState s)
            else s
          else
            let idleState := if hasBall s then holdingball else idle in
            if negb (AnimState_eqb (currentState s) idleState)
            then set_currentState idleState (playAnimation idleState s)
            else s in
        updateCameraPosition s
  end.

(** ** The frame and the key events *)

Definition animate (delta : R) (s : State) : State :=
  let s := mixerUpdate delta s in
  let s := handleMovement delta s in
  let s := updateBasketballPhysics delta s in
  updateCameraPosition s.

Definition setKey (name : string) (v : bool) (s : State) : State :=
  set_keys (assignKey name v (keys s)) s.

(** [key] is [event.key.toLowerCase()] *)
Definition onKeyDown (key : string) (s : State) : State :=
  let s := setKey key true s in
  if String.eqb key "e" && negb (hasBall s) && negb (isTransitioning s)
     && canPickupBall s
  then
    let s := log LogPickingUp s in
    let s := set_basketballVelocity vzero s in
    let s := playAnimation standingtocrouched s in
    set_currentState standingtocrouched s
  else if String.eqb key "r" && hasBall s && negb (isTransitioning s) then
    let s := log LogStartingThrow s in
    let s := playAnimation throwball s in
    set_currentState throwball s
  else s.

Definition onKeyUp (key : string) (s : State) : State := setKey key false s.

(** A [mousemove] with the button held, [deltaX] pixels to the right *)
Definition onMouseDrag (deltaX : R) (s : State) : State :=
  set_cameraAngle (cameraAngle s - deltaX * (1 / 100)) s.

(** ** Initial state and reachable states

    The state once the three models are loaded: [clips] gives the duration
    of each animation clip found in the avatar's file, [boxes] and [names]
    are the collision boxes built from the court.  The crouch and throw
    actions are set to [LoopOnce] with [clampWhenFinished]. *)

Definition isPlayOnce (k : AnimState) : bool :=
  match k with
  | standingtocrouched | throwball => true
  | _ => false
  end.

Definition allAnimStates : list AnimState :=
  [idle; wlking; walkingbackward; running; holdingball; standingtocrouched;
   throwball].

Definition loadedActions (clips : AnimState -> option R)
  : list (AnimState * AnimationAction) :=
  flat_map
    (fun k =>
       match clips k with
       | Some d =>
           [(k, mkAction 0 d (if isPlayOnce k then LoopOnce else LoopRepeat)
                         (isPlayOnce k) false true None)]
       | None => []
       end)
    allAnimStates.

Definition initialState (clips : AnimState -> option R)
           (boxes : list Box3) (names : list string) : State :=
  playAnimation idle
    (mkState (Some (mkAvatar (vec3 0 (- (15 / 10)) 0) 0))
             (Some (mkBasketball (vec3 3 (- (12 / 10)) 0) true))
             vzero false false false false false
             idle None (loadedActions clips) [] 0 [] 0%nat
             [] 0 boxes names []).

Inductive Event : Type :=
  | Frame (delta : R)
  | KeyDown (key : string)
  | KeyUp (key : string)
  | MouseDrag (deltaX : R).

Definition step (e : Event) (s : State) : State :=
  match e with
  | Frame delta => animate delta s
  | KeyDown key => onKeyDown key s
  | KeyUp key => onKeyUp key s
  | MouseDrag deltaX => onMouseDrag deltaX s
  end.

(** [clock.getDelta()] is never negative *)
Definition validEvent (e : Event) : Prop :=
  match e with
  | Frame delta => 0 <= delta
  | _ => True
  end.

Definition run (es : list Event) (s : State) : State :=
  fold_left (fun s e => step e s) es s.

Inductive reachable (clips : AnimState -> option R) (boxes : list Box3)
          (names : list string) : State -> Prop :=
  | reachable_init : reachable clips boxes names (initialState clips boxes names)
  | reachable_step : forall s e,
      reachable clips boxes names s -> validEvent e ->
      reachable clips boxes names (step e s).


(** ** Building the collision boxes ([createCourtCollisions]) *)

(** A node visited by [basketballCourt.traverse]: its name, whether it is a
    mesh, and the box [new THREE.Box3().setFromObject(mesh)] gives for it *)
Record SceneChild : Type :=
  mkSceneChild { childName : string; isMesh : bool; localBox : Box3 }.

(** [basketballCourt]: its scale, its position and the nodes below it *)
Record Court : Type :=
  mkCourt { courtScale : Vector3; courtPosition : Vector3;
            courtChildren : list SceneChild }.

(** The court as [loadBasketballCourt] places it *)
Definition loadedCourt (children : list SceneChild) : Court :=
  mkCourt (vec3 4 3 3) (vec3 0 (- (21 / 10)) 0) children.

Definition collisionName : string := "Object_7"%string.

(** [worldBox] of a child: the local box scaled and moved with the court,
    and made two units taller for [Object_7] *)
Definition worldBoxOf (court : Court) (child : SceneChild) : Box3 :=
  let courtScale := courtScale court in
  let courtPos := courtPosition court in
  let b := localBox child in
  let scaledMin :=
    vec3 (vec_x (box_min b) * vec_x courtScale + vec_x courtPos)
         (vec_y (box_min b) * vec_y courtScale + vec_y courtPos)
         (vec_z (box_min b) * vec_z courtScale + vec_z courtPos) in
  let scaledMax :=
    vec3 (vec_x (box_max b) * vec_x courtScale + vec_x courtPos)
         (vec_y (box_max b) * vec_y courtScale + vec_y courtPos)
         (vec_z (box_max b) * vec_z courtScale + vec_z courtPos) in
  if String.eqb (childName child) collisionName then
    let heightIncrease := 2 in
    box3 scaledMin
         (vec3 (vec_x scaledMax) (vec_y scaledMax + heightIncrease) (vec_z scaledMax))
  else box3 scaledMin scaledMax.

(** The callback of [traverse] *)
Definition visitChild (court : Court) (s : State) (child : SceneChild) : State :=
  if String.eqb (childName child) collisionName then
    if isMesh child then
      let s := set_collisionBoxes (collisionBoxes s ++ [worldBoxOf court child]) s in
      set_collisionObjectNames (collisionObjectNames s ++ [childName child]) s
    else s
  else s.

Definition createCourtCollisions (basketballCourt : option Court) (s : State) : State :=
  match basketballCourt with
  | None => s
  | Some court =>
      let s := set_collisionBoxes [] s in
      fold_left (visitChild court) (courtChildren court) s
  end.

(** ** Camera controls (the mouse listeners of [initThreeJS]) *)

Module CameraControls.

Record t : Type := mk {
  cameraDistance : R;
  cameraAngle : R;
  cameraVerticalAngle : R;
  isMouseDown : bool;
  lastMouseX : R;
  lastMouseY : R
}.

(** The field initialisers of the component *)
Definition initial : t := mk 4 0 0 false 0 0.

Definition onMouseDown (clientX clientY : R) (c : t) : t :=
  mk (cameraDistance c) (cameraAngle c) (cameraVerticalAngle c) true clientX clientY.

Definition onMouseUp (c : t) : t :=
  mk (cameraDistance c) (cameraAngle c) (cameraVerticalAngle c) false
     (lastMouseX c) (lastMouseY c).

Definition onMouseMove (clientX clientY : R) (c : t) : t :=
  if isMouseDown c then
    let deltaX := clientX - lastMouseX c in
    let deltaY := clientY - lastMouseY c in
    let angle := cameraAngle c - deltaX * (1 / 100) in
    let vertical := cameraVerticalAngle c + deltaY * (1 / 100) in
    let vertical := Rmax (- PI / 3) (Rmin (PI / 3) vertical) in
    mk (cameraDistance c) angle vertical true clientX clientY
  else c.

Definition onWheel (deltaY : R) (c : t) : t :=
  let distance := cameraDistance c + deltaY * (1 / 100) in
  let distance := Rmax 1 (Rmin 10 distance) in
  mk distance (cameraAngle c) (cameraVerticalAngle c) (isMouseDown c)
     (lastMouseX c) (lastMouseY c).

Inductive MouseEvent : Type :=
  | MouseDown (clientX clientY : R)
  | MouseUp
  | MouseMove (clientX clientY : R)
  | Wheel (deltaY : R).

Definition handle (c : t) (e : MouseEvent) : t :=
  match e with
  | MouseDown x y => onMouseDown x y c
  | MouseUp => onMouseUp c
  | MouseMove x y => onMouseMove x y c
  | Wheel d => onWheel d c
  end.

Definition handleAll (es : list MouseEvent) (c : t) : t := fold_left handle es c.

End CameraControls.

(** ** Statements used by the properties below *)

(** The face choice as the specification words it: the axis of smallest
    penetration, ties going to X, then Y, then Z; on that axis the side of
    the box centre the sphere centre lies on. *)
Definition faceBySpec (collisionBox : Box3) (center : Vector3) (f : Face) : Prop :=
  let expanded := expandByScalar collisionBox basketballRadius in
  let pX := Rmin (vec_x center - vec_x (box_min expanded))
                 (vec_x (box_max expanded) - vec_x center) in
  let pY := Rmin (vec_y center - vec_y (box_min expanded))
                 (vec_y (box_max expanded) - vec_y center) in
  let pZ := Rmin (vec_z center - vec_z (box_min expanded))
                 (vec_z (box_max expanded) - vec_z center) in
  let boxCenter := getCenter collisionBox in
  (pX <= pY /\ pX <= pZ /\
   ((vec_x center < vec_x boxCenter /\ f = Left) \/
    (vec_x boxCenter <= vec_x center /\ f = Right))) \/
  (pY < pX /\ pY <= pZ /\
   ((vec_y center < vec_y boxCenter /\ f = Bottom) \/
    (vec_y boxCenter <= vec_y center /\ f = Top))) \/
  (pZ < pX /\ pZ < pY /\
   ((vec_z center < vec_z boxCenter /\ f = Back) \/
    (vec_z boxCenter <= vec_z center /\ f = Front))).

(** The state a free-flight tick leaves when the collision query reports
    nothing: the velocity after gravity, the candidate position committed,
    then the ground block. *)
Definition freeFlightNoHit (delta : R) (b : Basketball) (s : State) : State :=
  let v := gravityVelocity delta (basketballVelocity s) in
  let b' := mkBasketball (candidatePosition delta (ballPosition b) v) (visible b) in
  groundCollision b' (set_basketball (Some b') (set_basketballVelocity v s)).

(** The hand offset [updateBasketballInHand] uses when it places the ball *)
Definition handOffsetOf (s : State) : Vector3 :=
  match (if isThrowingBall s then currentAction s else None) with
  | Some cur =>
      match action s cur with
      | Some a => throwOffset (progressOf a)
      | None => vec3 0 1 (4 / 10)
      end
  | None => vec3 0 1 (4 / 10)
  end.

(** The animation state [handleMovement] selects for the tick *)
Definition selectedState (s : State) : AnimState :=
  if Rgtb (vlength (moveDirOf s)) 0 then newStateOf s
  else if hasBall s then holdingball else idle.

(** The movement of a tick as the specification words it, written out in
    coordinates.  Each held direction key contributes its camera-relative
    unit vector: forward [(- sin yaw, 0, - cos yaw)] for [z], its opposite
    for [s], right [(cos yaw, 0, - sin yaw)] for [d], its opposite for [q]. *)
Definition pressedBySpec (s : State) (name : string) : R :=
  if key s name then 1 else 0.

Definition directionSumBySpec (s : State) : Vector3 :=
  let yaw := cameraAngle s in
  let ahead := pressedBySpec s "z" - pressedBySpec s "s" in
  let right := pressedBySpec s "d" - pressedBySpec s "q" in
  vec3 (ahead * - sin yaw + right * cos yaw)
       0
       (ahead * - cos yaw + right * - sin yaw).

(** The sprint speed when the sprint modifier is held, the base speed
    otherwise *)
Definition speedBySpec (s : State) : R :=
  if key s "shift" then sprintSpeed else moveSpeed.

(** The sum divided by its Euclidean length if it is not zero, scaled by
    speed times delta *)
Definition displacementBySpec (delta : R) (s : State) : Vector3 :=
  let d := directionSumBySpec s in
  let len := sqrt (vec_x d * vec_x d + vec_y d * vec_y d + vec_z d * vec_z d) in
  if Rltb 0 len
  then vec3 (vec_x d / len * (speedBySpec s * delta))
            (vec_y d / len * (speedBySpec s * delta))
            (vec_z d / len * (speedBySpec s * delta))
  else vzero.

(** ** Invariants of the reachable states *)

Definition isThrowHandler (l : Listener) : bool :=
  match handler l with
  | OnThrowFinished => true
  | OnCrouchFinished => false
  end.

(** Function objects handed out so far are older than the next one *)
Definition freshIds (s : State) : Prop :=
  Forall (fun l => (functionId l < nextFunctionId s)%nat) (listeners s).

(** While [isThrowingBall] is set, a throw transition is under way and its
    completion handler is registered. *)
Definition throwingInv (s : State) : Prop :=
  freshIds s /\
  (isThrowingBall s = true ->
   isTransitioning s = true /\ currentState s = throwball /\
   existsb isThrowHandler (listeners s) = true).

(** The character stays on the floor it was loaded on and the ball never
    rests lower than on the ground. *)
Definition heightInv (s : State) : Prop :=
  (forall av, avatar s = Some av -> vec_y (position av) = - (15 / 10)) /\
  (forall b, basketball s = Some b ->
             groundY + basketballRadius <= vec_y (ballPosition b)).

(** Two states with the same throw bookkeeping *)
Definition sameControl (s s' : State) : Prop :=
  isThrowingBall s' = isThrowingBall s /\
  isTransitioning s' = isTransitioning s /\
  currentState s' = currentState s /\
  listeners s' = listeners s /\
  nextFunctionId s' = nextFunctionId s.

(** A thin slab under the spot where the ball is loaded *)
Definition slabUnderBall : Box3 :=
  box3 (vec3 (25 / 10) (- (15 / 10)) (- (5 / 10)))
       (vec3 (35 / 10) (- (14 / 10)) (5 / 10)).

(** The state [onCrouchFinished] hands to [updateBasketballInHand]: the
    listener removal attempted, the flags of a completed pickup set, the ball
    made visible *)
Definition afterCrouchFlags (s : State) (b : Basketball) : State :=
  set_basketball (Some (mkBasketball (ballPosition b) true))
    (set_ballWasThrown false
       (set_isTransitioning false
          (set_hasBall true
             (set_isCrouched true
                (removeEventListener
                   (mkListener (nextFunctionId s) OnCrouchFinished)
                   (set_nextFunctionId (S (nextFunctionId s)) s)))))).

(** How often a message was printed *)
Definition countLog (e : LogEntry) (l : list LogEntry) : nat :=
  List.length (filter (LogEntry_eqb e) l).

(** Two states with the same listener bookkeeping *)
Definition sameListeners (s s' : State) : Prop :=
  listeners s' = listeners s /\ nextFunctionId s' = nextFunctionId s.

(** While the character is locked, the recorded state is one of the two
    play-once clips and a completion handler is registered. *)
Definition lockInv (s : State) : Prop :=
  isTransitioning s = true ->
  (currentState s = standingtocrouched \/ currentState s = throwball) /\
  listeners s <> [].

(** ** Vocabulary for the properties of the collision boxes *)

(** A box with [min <= max] on every axis ([isEmpty] is false) *)
Definition nonEmptyBox (b : Box3) : Prop :=
  vec_x (box_min b) <= vec_x (box_max b) /\
  vec_y (box_min b) <= vec_y (box_max b) /\
  vec_z (box_min b) <= vec_z (box_max b).

(** The point lies straight outside face [f] of the box: beyond it on the
    axis of the face, within the box on the two other axes *)
Definition overFace (f : Face) (b : Box3) (p : Vector3) : Prop :=
  let inX := vec_x (box_min b) <= vec_x p <= vec_x (box_max b) in
  let inY := vec_y (box_min b) <= vec_y p <= vec_y (box_max b) in
  let inZ := vec_z (box_min b) <= vec_z p <= vec_z (box_max b) in
  match f with
  | Left => vec_x p < vec_x (box_min b) /\ inY /\ inZ
  | Right => vec_x (box_max b) < vec_x p /\ inY /\ inZ
  | Bottom => vec_y p < vec_y (box_min b) /\ inX /\ inZ
  | Top => vec_y (box_max b) < vec_y p /\ inX /\ inZ
  | Back => vec_z p < vec_z (box_min b) /\ inX /\ inY
  | Front => vec_z (box_max b) < vec_z p /\ inX /\ inY
  end.

(** The box at index [i] is touched by the sphere and passes the face rule
    of its name *)
Definition hitAt (boxes : list Box3) (names : list string) (p : Vector3)
           (i : nat) : bool :=
  match nth_error boxes i with
  | Some box => surfaceHit basketballRadius box p &&
                faceAllowed (nth_error names i) (classifyFace box p)
  | None => false
  end.

(** The children [createCourtCollisions] turns into boxes *)
Definition isCollisionChild (child : SceneChild) : bool :=
  String.eqb (childName child) collisionName && isMesh child.

(** Some children for the examples: a wall mesh, a group and a mesh under
    other names *)
Definition wallChild : SceneChild :=
  mkSceneChild "Object_7" true (box3 (vec3 (- 1) 0 (- 1)) (vec3 1 1 1)).

Definition demoChildren : list SceneChild :=
  [ mkSceneChild "Object_28" true (box3 (vec3 0 0 0) (vec3 1 1 1));
    wallChild;
    mkSceneChild "Object_7" false (box3 (vec3 0 0 0) (vec3 2 2 2)) ].

(** The limits the mouse listeners keep the zoom and the tilt of the camera
    within *)
Definition cameraInRange (c : CameraControls.t) : Prop :=
  1 <= CameraControls.cameraDistance c <= 10 /\
  - PI / 3 <= CameraControls.cameraVerticalAngle c <= PI / 3.

(** ** Vocabulary for the clip of a running transition *)

(** The loop mode [loadGLBModel] gives the action of a clip *)
Definition loopOf (k : AnimState) : Loop :=
  if isPlayOnce k then LoopOnce else LoopRepeat.

(** Every action still has the loop mode it was loaded with *)
Definition loopsInv (s : State) : Prop :=
  Forall (fun e => loop (snd e) = loopOf (fst e)) (actions s).

(** An action the mixer advances: enabled, not paused, not fading out *)
Definition inProgress (a : AnimationAction) : Prop :=
  enabled a = true /\ paused a = false /\ forall e, fading a <> Some (FadeOut, e).

(** Two states with the same lock, listeners and clips *)
Definition sameAnim (s s' : State) : Prop :=
  isTransitioning s' = isTransitioning s /\
  currentState s' = currentState s /\
  listeners s' = listeners s /\
  actions s' = actions s /\
  activeActions s' = activeActions s.

(** While the character is locked, the clip of the recorded state is active
    in the mixer and in progress *)
Definition lockedClipInv (s : State) : Prop :=
  isTransitioning s = true ->
  In (currentState s) (activeActions s) /\
  exists a, action s (currentState s) = Some a /\ inProgress a.

Definition clipInv (s : State) : Prop :=
  loopsInv s /\ lockInv s /\ lockedClipInv s.

(** [playAnimation] up to and with [action.play()] *)
Definition startClip (state : AnimState) (s : State) : State :=
  let s :=
    match currentAction s with
    | Some cur =>
        if negb (AnimState_eqb cur state)
        then onAction cur (fadeOut (mixerTime s) (3 / 10)) s
        else s
    | None => s
    end in
  let s := set_currentAction (Some state) s in
  let s := onAction state (fun a => fadeIn (mixerTime s) (3 / 10) (reset a)) s in
  play state s.

(** ** Vocabulary for the end of a transition *)

(** The handler [playAnimation] registers for a play-once clip *)
Definition handlerOf (k : AnimState) : option Handler :=
  match k with
  | standingtocrouched => Some OnCrouchFinished
  | throwball => Some OnThrowFinished
  | _ => None
  end.

(** The handler registered last *)
Definition lastHandler (ls : list Listener) : option Handler :=
  last (map (fun l => Some (handler l)) ls) None.

(** While the character is locked, the handler registered last is the one of
    the running transition *)
Definition newestHandlerInv (s : State) : Prop :=
  isTransitioning s = true ->
  lastHandler (listeners s) = handlerOf (currentState s).

(** Two states with the same flags *)
Definition sameFlags (s s' : State) : Prop :=
  isTransitioning s' = isTransitioning s /\
  isThrowingBall s' = isThrowingBall s /\
  hasBall s' = hasBall s /\
  isCrouched s' = isCrouched s /\
  ballWasThrown s' = ballWasThrown s.

(** The flags as handler [h] leaves them *)
Definition endedFlags (h : Handler) (s : State) : Prop :=
  isTransitioning s = false /\ isThrowingBall s = false /\
  match h with
  | OnCrouchFinished =>
      hasBall s = true /\ isCrouched s = true /\ ballWasThrown s = false
  | OnThrowFinished => hasBall s = false /\ isCrouched s = false
  end.

(** ** A small world for the examples

    Every clip found; the two play-once clips last one second. *)
Definition demoClips (k : AnimState) : option R :=
  Some (if isPlayOnce k then 1 else 100).

(** The unit cube, and a ball that drifts into its left side *)
Definition unitBox : Box3 := box3 (vec3 0 0 0) (vec3 1 1 1).

Definition leftOfUnitBox : Vector3 := vec3 (- (5 / 100)) (1 / 2) (1 / 2).

Definition flyingLeftOfBox (names : list string) : State :=
  set_basketball (Some (mkBasketball (vec3 (- (14 / 100)) (5981 / 10000) (1 / 2)) true))
    (set_basketballVelocity (vec3 (9 / 10) 0 0)
       (initialState demoClips [unitBox] names)).

(** The character holding the ball, standing still *)
Definition holdingStill : State :=
  set_hasBall true (initialState demoClips [] []).

(** The idle clip half a second after it was started *)
Definition idleForHalfASecond : State :=
  setAction idle (mkAction (1 / 2) 100 LoopRepeat false false true None)
    (set_mixerTime (1 / 2) (initialState demoClips [] [])).

(** The character walking to the right ([d] held) *)
Definition walkingRight : State :=
  setKey "d" true (initialState demoClips [] []).

(** The character walking right into the unit cube: at the loading position,
    facing a cube that starts 0.3 to its right *)
Definition cubeToTheRight : Box3 :=
  box3 (vec3 (3 / 10) (- 2) (- 1)) (vec3 3 2 1).

Definition walkingIntoCube : State :=
  setKey "d" true (initialState demoClips [cubeToTheRight] []).

(** The ball fallen far below the court *)
Definition fallenThrough : State :=
  set_isThrowingBall true
    (set_basketball (Some (mkBasketball (vec3 0 (- 11) 0) true))
       (initialState demoClips [] [])).

(** A held flag left over on a ball that was thrown *)
Definition staleHold : State :=
  set_ballWasThrown true
    (set_basketballVelocity (vec3 8 6 0) (set_hasBall true (initialState demoClips [] []))).

(** A ball marked held that still moves, with no throw under way *)
Definition heldButMoving : State :=
  set_basketballVelocity (vec3 8 6 0) (set_hasBall true (initialState demoClips [] [])).

(** The ball lying on the ground *)
Definition lyingOnGround : State :=
  set_basketball (Some (mkBasketball (vec3 3 (groundY + basketballRadius) 0) true))
    (set_basketballVelocity (vec3 1 0 0) (initialState demoClips [] [])).

(** ** A play-through: walk to the ball, pick it up, throw it

    The states of the component at the frame and key events of one
    play-through in [demoClips] and an empty court, each given by the fields
    that changed since the state before.  Names ending in [m] and [h] are
    the states inside a frame after [mixer.update] and after
    [handleMovement]. *)

Definition playThrough : list Event :=
  [KeyDown "d"; Frame 1; KeyUp "d"; KeyDown "e"; Frame 1; KeyDown "r";
   Frame (6 / 10); Frame (1 / 10); Frame (1 / 10); Frame (1 / 2)].

(** Loaded: the character at the origin, the ball three units to the right *)
Definition st0 : State :=
  mkState (Some (mkAvatar (vec3 0 (- (15 / 10)) 0) 0))
          (Some (mkBasketball (vec3 3 (- (12 / 10)) 0) true))
          (vec3 0 0 0) false false false false false
          idle (Some idle)
          [(idle, mkAction 0 100 LoopRepeat false false true (Some (FadeIn, 3 / 10)));
           (wlking, mkAction 0 100 LoopRepeat false false true None);
           (walkingbackward, mkAction 0 100 LoopRepeat false false true None);
           (running, mkAction 0 100 LoopRepeat false false true None);
           (holdingball, mkAction 0 100 LoopRepeat false false true None);
           (standingtocrouched, mkAction 0 1 LoopOnce true false true None);
           (throwball, mkAction 0 1 LoopOnce true false true None)]
          [idle] 0 [] 0%nat [] 0 [] [] [].

(** [d] pressed *)
Definition st1 : State := set_keys [("d"%string, true)] st0.

(** A frame of one second: the character walks two units to the right and
    turns; the ball drops to the ground and bounces *)
Definition st1m : State :=
  setAction idle (mkAction 1 100 LoopRepeat false false true None)
    (set_mixerTime 1 st1).

Definition st1h : State :=
  set_currentState wlking
    (set_activeActions [idle; wlking]
       (setAction wlking
          (mkAction 0 100 LoopRepeat false false true (Some (FadeIn, 13 / 10)))
          (set_currentAction (Some wlking)
             (setAction idle
                (mkAction 1 100 LoopRepeat false false true (Some (FadeOut, 13 / 10)))
                (set_avatar (Some (mkAvatar (vec3 2 (- (15 / 10)) 0) (PI / 2)))
                   st1m))))).

Definition st2 : State :=
  set_basketballVelocity (vec3 0 (6867 / 1000) 0)
    (set_basketball (Some (mkBasketball (vec3 3 (- (138 / 100)) 0) true)) st1h).

(** [d] released *)
Definition st3 : State := set_keys [("d"%string, false)] st2.

(** [e] pressed next to the ball: the crouch starts, its completion handler
    is registered as function 0 *)
Definition st4 : State :=
  set_currentState standingtocrouched
    (set_listeners [mkListener 0 OnCrouchFinished]
       (set_nextFunctionId 1
          (set_isTransitioning true
             (set_activeActions [idle; wlking; standingtocrouched]
                (setAction standingtocrouched
                   (mkAction 0 1 LoopOnce true false true (Some (FadeIn, 13 / 10)))
                   (set_currentAction (Some standingtocrouched)
                      (setAction wlking
                         (mkAction 0 100 LoopRepeat false false true
                                   (Some (FadeOut, 13 / 10)))
                         (set_basketballVelocity (vec3 0 0 0)
                            (set_console [LogPickingUp]
                               (set_keys [("d"%string, false); ("e"%string, true)]
                                  st3)))))))))).

(** A frame of one second: the crouch clip ends, [onCrouchFinished] runs *)
Definition st4m : State :=
  set_console [LogPickingUp; LogPickupCompleted]
    (set_currentState holdingball
       (set_activeActions [idle; wlking; standingtocrouched; holdingball]
          (set_currentAction (Some holdingball)
             (set_actions
                [(idle, mkAction 2 100 LoopRepeat false false false None);
                 (wlking, mkAction 1 100 LoopRepeat false false false None);
                 (walkingbackward, mkAction 0 100 LoopRepeat false false true None);
                 (running, mkAction 0 100 LoopRepeat false false true None);
                 (holdingball,
                  mkAction 0 100 LoopRepeat false false true (Some (FadeIn, 23 / 10)));
                 (standingtocrouched,
                  mkAction 1 1 LoopOnce true true true (Some (FadeOut, 23 / 10)));
                 (throwball, mkAction 0 1 LoopOnce true false true None)]
                (set_basketball
                   (Some (mkBasketball (vec3 (24 / 10) (- (5 / 10)) 0) true))
                   (set_ballWasThrown false
                      (set_isTransitioning false
                         (set_hasBall true
                            (set_isCrouched true
                               (set_nextFunctionId 2
                                  (set_mixerTime 2 st4))))))))))).

Definition st5 : State := st4m.

(** [r] pressed: the throw starts, its completion handler is function 2 *)
Definition st6 : State :=
  set_currentState throwball
    (set_listeners [mkListener 0 OnCrouchFinished; mkListener 2 OnThrowFinished]
       (set_nextFunctionId 3
          (set_isThrowingBall true
             (set_isTransitioning true
                (set_activeActions
                   [idle; wlking; standingtocrouched; holdingball; throwball]
                   (setAction throwball
                      (mkAction 0 1 LoopOnce true false true (Some (FadeIn, 23 / 10)))
                      (set_currentAction (Some throwball)
                         (setAction holdingball
                            (mkAction 0 100 LoopRepeat false false true
                                      (Some (FadeOut, 23 / 10)))
                            (set_console
                               [LogPickingUp; LogPickupCompleted; LogStartingThrow]
                               (set_keys
                                  [("d"%string, false); ("e"%string, true);
                                   ("r"%string, true)]
                                  st5)))))))))).

(** A frame of 0.6 s: the throw clip is at progress 0.6, the ball still
    follows the hand *)
Definition st6m : State :=
  set_actions
    [(idle, mkAction 2 100 LoopRepeat false false false None);
     (wlking, mkAction 1 100 LoopRepeat false false false None);
     (walkingbackward, mkAction 0 100 LoopRepeat false false true None);
     (running, mkAction 0 100 LoopRepeat false false true None);
     (holdingball, mkAction (6 / 10) 100 LoopRepeat false false false None);
     (standingtocrouched, mkAction 1 1 LoopOnce true true false None);
     (throwball, mkAction (6 / 10) 1 LoopOnce true false true None)]
    (set_mixerTime (26 / 10) st6).

Definition st7 : State :=
  set_basketball (Some (mkBasketball (vec3 (239 / 100) (2 / 10) 0) true)) st6m.

(** A frame of 0.1 s: progress 0.7, the physics tick releases the ball *)
Definition st7m : State :=
  setAction throwball (mkAction (7 / 10) 1 LoopOnce true false true None)
    (set_mixerTime (27 / 10) st7).

Definition st8 : State :=
  set_console
    [LogPickingUp; LogPickupCompleted; LogStartingThrow; LogReleasing; LogThrown]
    (set_ballWasThrown true
       (set_basketballVelocity (vec3 8 6 0)
          (set_hasBall false st7m))).

(** A frame of 0.1 s: the ball flies *)
Definition st8m : State :=
  setAction throwball (mkAction (8 / 10) 1 LoopOnce true false true None)
    (set_mixerTime (28 / 10) st8).

Definition st9 : State :=
  set_basketball (Some (mkBasketball (vec3 (319 / 100) (7019 / 10000) 0) true))
    (set_basketballVelocity (vec3 8 (5019 / 1000) 0) st8m).

(** A frame of 0.5 s: the throw clip ends; both registered handlers run *)
Definition st9m : State :=
  set_console
    [LogPickingUp; LogPickupCompleted; LogStartingThrow; LogReleasing; LogThrown;
     LogReleasing; LogThrown; LogPickupCompleted; LogThrowFinished]
    (set_currentState idle
       (set_currentAction (Some idle)
          (set_actions
             [(idle, mkAction 0 100 LoopRepeat false false true (Some (FadeIn, 36 / 10)));
              (wlking, mkAction 1 100 LoopRepeat false false false None);
              (walkingbackward, mkAction 0 100 LoopRepeat false false true None);
              (running, mkAction 0 100 LoopRepeat false false true None);
              (holdingball,
               mkAction 0 100 LoopRepeat false false true (Some (FadeOut, 36 / 10)));
              (standingtocrouched, mkAction 1 1 LoopOnce true true false None);
              (throwball,
               mkAction 1 1 LoopOnce true true true (Some (FadeOut, 36 / 10)))]
             (set_basketballVelocity (vec3 8 6 0)
                (set_ballWasThrown true
                   (set_isThrowingBall false
                      (set_isTransitioning false
                         (set_hasBall false
                            (set_isCrouched false
                               (set_nextFunctionId 5
                                  (set_mixerTime (33 / 10) st9))))))))))).

Definition st10 : State :=
  set_basketball (Some (mkBasketball (vec3 (719 / 100) (12494 / 10000) 0) true))
    (set_basketballVelocity (vec3 8 (1095 / 1000) 0) st9m).
(** * Properties *)

(** ** Boolean comparisons *)

Lemma Rltb_true (a b : R) : Rltb a b = true <-> a < b.
Proof. unfold Rltb; destruct (Rlt_dec a b); split; intros; try easy. Qed.

Lemma Rltb_false (a b : R) : Rltb a b = false <-> b <= a.
Proof.
  unfold Rltb; destruct (Rlt_dec a b); split; intros; try easy; lra.
Qed.

Lemma Rleb_true (a b : R) : Rleb a b = true <-> a <= b.
Proof. unfold Rleb; destruct (Rle_dec a b); split; intros; try easy. Qed.

Lemma Rleb_false (a b : R) : Rleb a b = false <-> b < a.
Proof.
  unfold Rleb; destruct (Rle_dec a b); split; intros; try easy; lra.
Qed.

Lemma Rltb_intro_true (a b : R) : a < b -> Rltb a b = true.
Proof. apply Rltb_true. Qed.
Lemma Rltb_intro_false (a b : R) : b <= a -> Rltb a b = false.
Proof. apply Rltb_false. Qed.
Lemma Rleb_intro_true (a b : R) : a <= b -> Rleb a b = true.
Proof. apply Rleb_true. Qed.
Lemma Rleb_intro_false (a b : R) : b < a -> Rleb a b = false.
Proof. apply Rleb_false. Qed.

Lemma Rmin_intro_l (a b : R) : a <= b -> Rmin a b = a.
Proof. apply Rmin_left. Qed.
Lemma Rmin_intro_r (a b : R) : b <= a -> Rmin a b = b.
Proof. apply Rmin_right. Qed.

(** Decide the comparisons of closed arithmetic expressions in the goal *)
Ltac Rdecide :=
  unfold Rgtb, Rgeb;
  repeat match goal with
  | |- context [Rmin ?a ?b] =>
      first [ rewrite (Rmin_intro_l a b) by lra
            | rewrite (Rmin_intro_r a b) by lra ]
  | |- context [Rleb ?a ?b] =>
      first [ rewrite (Rleb_intro_true a b) by lra
            | rewrite (Rleb_intro_false a b) by lra ]
  | |- context [Rltb ?a ?b] =>
      first [ rewrite (Rltb_intro_true a b) by lra
            | rewrite (Rltb_intro_false a b) by lra ]
  end.

(** A field read through the setters that leave it alone *)
Ltac frame :=
  cbv beta iota delta
    [set_avatar set_basketball set_basketballVelocity set_hasBall set_isCrouched
     set_isTransitioning set_isThrowingBall set_ballWasThrown set_currentState
     set_currentAction set_actions set_activeActions set_mixerTime set_listeners
     set_nextFunctionId set_keys set_cameraAngle set_collisionBoxes
     set_collisionObjectNames set_console log setAction setKey
     removeEventListener
     avatar basketball basketballVelocity hasBall isCrouched isTransitioning
     isThrowingBall ballWasThrown currentState currentAction actions
     activeActions mixerTime listeners nextFunctionId keys cameraAngle
     collisionBoxes collisionObjectNames console];
  reflexivity.

(** Goals [sameControl s (... s)] whose right state is [s] under setters *)
Ltac same := unfold sameControl; repeat (apply conj); frame.

(** ** Sphere against boxes *)

Lemma scanBoxes_hit (names : list string) (boxes : list Box3) (p : Vector3) :
  forall i, hasCollision (scanBoxes names i boxes p) = true ->
    exists j box,
      nth_error boxes j = Some box /\
      surfaceHit basketballRadius box p = true /\
      faceAllowed (nth_error names (i + j)) (classifyFace box p) = true /\
      scanBoxes names i boxes p = mkCollisionInfo true (Some (classifyFace box p)).
Proof.
  induction boxes as [| box rest IH]; intros i H; simpl in *.
  - discriminate.
  - destruct (surfaceHit basketballRadius box p) eqn:Hhit.
    + destruct (faceAllowed (nth_error names i) (classifyFace box p)) eqn:Hallowed.
      * exists 0%nat, box. rewrite Nat.add_0_r. auto.
      * destruct (IH _ H) as (j & box' & Hn & Hs & Ha & He).
        exists (S j), box'. rewrite Nat.add_succ_r. auto.
    + destruct (IH _ H) as (j & box' & Hn & Hs & Ha & He).
      exists (S j), box'. rewrite Nat.add_succ_r. auto.
Qed.

Lemma classifyFace_spec (box : Box3) (p : Vector3) :
  faceBySpec box p (classifyFace box p).
Proof.
  unfold faceBySpec, classifyFace, penetrationX, penetrationY, penetrationZ.
  set (e := expandByScalar box basketballRadius).
  set (pX := Rmin (vec_x p - vec_x (box_min e)) (vec_x (box_max e) - vec_x p)).
  set (pY := Rmin (vec_y p - vec_y (box_min e)) (vec_y (box_max e) - vec_y p)).
  set (pZ := Rmin (vec_z p - vec_z (box_min e)) (vec_z (box_max e) - vec_z p)).
  cbv zeta.
  destruct (Rleb pX pY) eqn:Hxy; destruct (Rleb pX pZ) eqn:Hxz; simpl;
    try apply Rleb_true in Hxy; try apply Rleb_true in Hxz;
    try apply Rleb_false in Hxy; try apply Rleb_false in Hxz.
  - left. repeat split; try assumption.
    destruct (Rltb (vec_x p) (vec_x (getCenter box))) eqn:Hc;
      [ apply Rltb_true in Hc; left | apply Rltb_false in Hc; right ]; auto.
  - destruct (Rleb pY pZ) eqn:Hyz;
      [ apply Rleb_true in Hyz | apply Rleb_false in Hyz ]; try lra.
    right; right. repeat split; try lra.
    destruct (Rltb (vec_z p) (vec_z (getCenter box))) eqn:Hc;
      [ apply Rltb_true in Hc; left | apply Rltb_false in Hc; right ]; auto.
  - destruct (Rleb pY pZ) eqn:Hyz;
      [ apply Rleb_true in Hyz | apply Rleb_false in Hyz ]; try lra.
    right; left. repeat split; try lra.
    destruct (Rltb (vec_y p) (vec_y (getCenter box))) eqn:Hc;
      [ apply Rltb_true in Hc; left | apply Rltb_false in Hc; right ]; auto.
  - destruct (Rleb pY pZ) eqn:Hyz;
      [ apply Rleb_true in Hyz | apply Rleb_false in Hyz ].
    + right; left. repeat split; try lra.
      destruct (Rltb (vec_y p) (vec_y (getCenter box))) eqn:Hc;
        [ apply Rltb_true in Hc; left | apply Rltb_false in Hc; right ]; auto.
    + right; right. repeat split; try lra.
      destruct (Rltb (vec_z p) (vec_z (getCenter box))) eqn:Hc;
        [ apply Rltb_true in Hc; left | apply Rltb_false in Hc; right ]; auto.
Qed.

(** C4.  Whenever the sphere query reports a hit, the reported face is the
    one the specification describes for some box the sphere touches: the
    axis of smallest penetration [min(center - expandedMin, expandedMax -
    center)], ties going to X, then Y, then Z, and on that axis
    left/bottom/back when the sphere centre is below the box centre,
    right/top/front otherwise. *)
Theorem hit_face_is_min_penetration_face :
  forall (boxes : list Box3) (names : list string) (center : Vector3),
    hasCollision (checkBasketballCollision boxes names center) = true ->
    exists (i : nat) (box : Box3) (f : Face),
      nth_error boxes i = Some box /\
      surfaceHit basketballRadius box center = true /\
      checkBasketballCollision boxes names center = mkCollisionInfo true (Some f) /\
      faceBySpec box center f.
Proof.
  intros boxes names center H.
  destruct (scanBoxes_hit names boxes center 0 H) as (j & box & Hn & Hs & _ & He).
  exists j, box, (classifyFace box center).
  repeat split; auto. apply classifyFace_spec.
Qed.

Lemma scanBoxes_none (names : list string) (boxes : list Box3) (p : Vector3) :
  forall i,
    (forall j box, nth_error boxes j = Some box ->
       surfaceHit basketballRadius box p = true ->
       faceAllowed (nth_error names (i + j)) (classifyFace box p) = false) ->
    scanBoxes names i boxes p = noCollision.
Proof.
  induction boxes as [| box rest IH]; intros i H; simpl.
  - reflexivity.
  - destruct (surfaceHit basketballRadius box p) eqn:Hhit.
    + rewrite <- (Nat.add_0_r i) at 1. rewrite (H 0%nat box eq_refl Hhit).
      apply IH. intros j box' Hj Hs. rewrite Nat.add_succ_l, <- Nat.add_succ_r.
      apply H; auto.
    + apply IH. intros j box' Hj Hs. rewrite Nat.add_succ_l, <- Nat.add_succ_r.
      apply H; auto.
Qed.

Lemma faceAllowed_restricted (f : Face) :
  f <> Front -> f <> Back -> faceAllowed (Some restrictedName) f = false.
Proof. destruct f; simpl; intros; try reflexivity; congruence. Qed.

Lemma free_flight_no_hit (delta : R) (s : State) (b : Basketball) :
  basketball s = Some b -> hasBall s = false ->
  - 10 <= vec_y (ballPosition b) -> vlength (ballPosition b) <= 50 ->
  hasCollision
    (checkBasketballCollision (collisionBoxes s) (collisionObjectNames s)
       (candidatePosition delta (ballPosition b)
          (gravityVelocity delta (basketballVelocity s)))) = false ->
  updateBasketballPhysics delta s = freeFlightNoHit delta b s.
Proof.
  intros Hb Hh Hy Hl Hc. unfold updateBasketballPhysics, freeFlightNoHit.
  rewrite Hb, Hh. unfold Rgtb.
  rewrite Rltb_intro_false by lra. rewrite Rltb_intro_false by lra.
  cbv zeta. simpl collisionBoxes. simpl collisionObjectNames. rewrite Hc.
  reflexivity.
Qed.

Lemma hit_face_is_min_penetration_face_witness :
  exists (i : nat) (box : Box3) (f : Face),
    nth_error [unitBox] i = Some box /\
    surfaceHit basketballRadius box leftOfUnitBox = true /\
    checkBasketballCollision [unitBox] ["Object_7"%string] leftOfUnitBox
      = mkCollisionInfo true (Some f) /\
    faceBySpec box leftOfUnitBox f.
Proof.
  apply (hit_face_is_min_penetration_face [unitBox] ["Object_7"%string] leftOfUnitBox).
  unfold checkBasketballCollision, leftOfUnitBox, unitBox. simpl.
  unfold surfaceHit, containsPoint, expandByScalar, basketballRadius. simpl.
  Rdecide. reflexivity.
Defined.

(** C6.  A box named [Object_28] admits only its front and back faces.  When
    the classification of a hit on it gives another face, the loop goes on
    with the remaining boxes as if that box had not been touched; and when
    the remaining boxes report nothing either, the tick is the one of a free
    flight without hit: no collision is reported, the candidate position is
    committed and the velocity is only integrated (no bounce). *)
Theorem restricted_face_is_no_collision :
  (forall (names : list string) (i : nat) (box : Box3) (rest : list Box3)
          (center : Vector3),
      nth_error names i = Some restrictedName ->
      classifyFace box center <> Front -> classifyFace box center <> Back ->
      scanBoxes names i (box :: rest) center = scanBoxes names (S i) rest center)
  /\
  (forall (delta : R) (s : State) (b : Basketball) (box : Box3) (rest : list Box3),
      basketball s = Some b -> hasBall s = false ->
      - 10 <= vec_y (ballPosition b) -> vlength (ballPosition b) <= 50 ->
      let newPosition :=
        candidatePosition delta (ballPosition b)
          (gravityVelocity delta (basketballVelocity s)) in
      collisionBoxes s = box :: rest ->
      nth_error (collisionObjectNames s) 0 = Some restrictedName ->
      classifyFace box newPosition <> Front ->
      classifyFace box newPosition <> Back ->
      hasCollision (scanBoxes (collisionObjectNames s) 1 rest newPosition) = false ->
      hasCollision
        (checkBasketballCollision (collisionBoxes s) (collisionObjectNames s)
           newPosition) = false /\
      updateBasketballPhysics delta s = freeFlightNoHit delta b s).
Proof.
  assert (Hskip : forall names i box rest center,
      nth_error names i = Some restrictedName ->
      classifyFace box center <> Front -> classifyFace box center <> Back ->
      scanBoxes names i (box :: rest) center = scanBoxes names (S i) rest center).
  { intros names i box rest center Hn Hf Hb. simpl.
    rewrite Hn, (faceAllowed_restricted _ Hf Hb).
    destruct (surfaceHit basketballRadius box center); reflexivity. }
  split; [exact Hskip|].
  intros delta s b box rest Hb Hh Hy Hl newPosition Hboxes Hname Hf Hk Hrest.
  assert (Hc : hasCollision
      (checkBasketballCollision (collisionBoxes s) (collisionObjectNames s)
         newPosition) = false).
  { unfold checkBasketballCollision. rewrite Hboxes.
    rewrite (Hskip _ _ _ _ _ Hname Hf Hk). exact Hrest. }
  split; [exact Hc|].
  apply free_flight_no_hit; assumption.
Qed.

Lemma sqrt_le_bound (e c : R) : 0 <= c -> e <= c * c -> sqrt e <= c.
Proof.
  intros Hc He. rewrite <- (sqrt_square c Hc). apply sqrt_le_1_alt. exact He.
Qed.

Lemma sqrt_lt_bound (e c : R) : 0 <= c -> c * c < e -> c < sqrt e.
Proof.
  intros Hc He. rewrite <- (sqrt_square c Hc) at 1. apply sqrt_lt_1_alt. nra.
Qed.

Lemma restricted_face_is_no_collision_witness :
  scanBoxes [restrictedName] 0 [unitBox] leftOfUnitBox = noCollision /\
  updateBasketballPhysics (1 / 10) (flyingLeftOfBox [restrictedName])
  = freeFlightNoHit (1 / 10) (mkBasketball (vec3 (- (14 / 100)) (5981 / 10000) (1 / 2)) true)
      (flyingLeftOfBox [restrictedName]).
Proof.
  assert (Hface : forall y, 1 / 2 <= y <= 51 / 100 ->
            classifyFace unitBox (vec3 (- (5 / 100)) y (1 / 2)) = Left).
  { intros y Hy. unfold classifyFace, penetrationX, penetrationY, penetrationZ,
      getCenter, isEmpty, expandByScalar, basketballRadius, unitBox. simpl.
    Rdecide. simpl. Rdecide. reflexivity. }
  split.
  - rewrite (proj1 restricted_face_is_no_collision [restrictedName] 0%nat unitBox []
               leftOfUnitBox eq_refl).
    + reflexivity.
    + unfold leftOfUnitBox. rewrite Hface by lra. discriminate.
    + unfold leftOfUnitBox. rewrite Hface by lra. discriminate.
  - assert (Hcand : candidatePosition (1 / 10) (vec3 (- (14 / 100)) (5981 / 10000) (1 / 2))
              (gravityVelocity (1 / 10) (vec3 (9 / 10) 0 0))
            = vec3 (- (5 / 100)) (1 / 2) (1 / 2)).
    { unfold candidatePosition, gravityVelocity, vadd, gravity. simpl.
      f_equal; lra. }
    apply (proj2 restricted_face_is_no_collision (1 / 10)
             (flyingLeftOfBox [restrictedName])
             (mkBasketball (vec3 (- (14 / 100)) (5981 / 10000) (1 / 2)) true)
             unitBox []).
    + reflexivity.
    + reflexivity.
    + simpl. lra.
    + unfold vlength. simpl. apply sqrt_le_bound; lra.
    + reflexivity.
    + reflexivity.
    + change (basketballVelocity (flyingLeftOfBox [restrictedName]))
        with (vec3 (9 / 10) 0 0).
      simpl ballPosition. rewrite Hcand, Hface by lra. discriminate.
    + change (basketballVelocity (flyingLeftOfBox [restrictedName]))
        with (vec3 (9 / 10) 0 0).
      simpl ballPosition. rewrite Hcand, Hface by lra. discriminate.
    + reflexivity.
Defined.

(** ** The free-flight tick on a hit *)

Lemma free_flight_hit (delta : R) (s : State) (b : Basketball) (f : Face) :
  basketball s = Some b -> hasBall s = false ->
  - 10 <= vec_y (ballPosition b) -> vlength (ballPosition b) <= 50 ->
  checkBasketballCollision (collisionBoxes s) (collisionObjectNames s)
    (candidatePosition delta (ballPosition b)
       (gravityVelocity delta (basketballVelocity s)))
  = mkCollisionInfo true (Some f) ->
  updateBasketballPhysics delta s
  = groundCollision b
      (set_basketballVelocity
         (bounceVelocity f (gravityVelocity delta (basketballVelocity s)))
         (log (LogBounce f)
            (set_basketballVelocity (gravityVelocity delta (basketballVelocity s)) s))).
Proof.
  intros Hb Hh Hy Hl Hc. unfold updateBasketballPhysics.
  rewrite Hb, Hh. unfold Rgtb.
  rewrite Rltb_intro_false by lra. rewrite Rltb_intro_false by lra.
  cbv zeta. simpl collisionBoxes. simpl collisionObjectNames. rewrite Hc.
  reflexivity.
Qed.

(** C8.  In a free-flight tick whose query reports a hit on face [f], the
    velocity handed to the ground block is the bounce response applied to the
    velocity after gravity: the component along the face's axis is forced
    (top: y negative, bottom: y positive, left: x positive, right: x
    negative, front: z negative, back: z positive) with the factor 0.8, and
    then all three components are scaled by 0.9.  In particular a [top] hit
    leaves a vertical velocity that is not positive. *)
Theorem bounce_response_velocity :
  forall (delta : R) (s : State) (b : Basketball) (f : Face),
    basketball s = Some b -> hasBall s = false ->
    - 10 <= vec_y (ballPosition b) -> vlength (ballPosition b) <= 50 ->
    let v := gravityVelocity delta (basketballVelocity s) in
    checkBasketballCollision (collisionBoxes s) (collisionObjectNames s)
      (candidatePosition delta (ballPosition b) v)
    = mkCollisionInfo true (Some f) ->
    let v' := bounceVelocity f v in
    updateBasketballPhysics delta s
    = groundCollision b
        (set_basketballVelocity v' (log (LogBounce f) (set_basketballVelocity v s))) /\
    match f with
    | Top =>
        v' = vec3 (vec_x v * (9 / 10)) (- Rabs (vec_y v) * (8 / 10) * (9 / 10))
                  (vec_z v * (9 / 10)) /\ vec_y v' <= 0
    | Bottom =>
        v' = vec3 (vec_x v * (9 / 10)) (Rabs (vec_y v) * (8 / 10) * (9 / 10))
                  (vec_z v * (9 / 10)) /\ 0 <= vec_y v'
    | Left =>
        v' = vec3 (Rabs (vec_x v) * (8 / 10) * (9 / 10)) (vec_y v * (9 / 10))
                  (vec_z v * (9 / 10)) /\ 0 <= vec_x v'
    | Right =>
        v' = vec3 (- Rabs (vec_x v) * (8 / 10) * (9 / 10)) (vec_y v * (9 / 10))
                  (vec_z v * (9 / 10)) /\ vec_x v' <= 0
    | Front =>
        v' = vec3 (vec_x v * (9 / 10)) (vec_y v * (9 / 10))
                  (- Rabs (vec_z v) * (8 / 10) * (9 / 10)) /\ vec_z v' <= 0
    | Back =>
        v' = vec3 (vec_x v * (9 / 10)) (vec_y v * (9 / 10))
                  (Rabs (vec_z v) * (8 / 10) * (9 / 10)) /\ 0 <= vec_z v'
    end.
Proof.
  intros delta s b f Hb Hh Hy Hl v Hc v'. split.
  - apply free_flight_hit; assumption.
  - subst v'. generalize v; intros w.
    pose proof (Rabs_pos (vec_x w)). pose proof (Rabs_pos (vec_y w)).
    pose proof (Rabs_pos (vec_z w)).
    destruct f; unfold bounceVelocity, multiplyScalar; simpl; split;
      try reflexivity; nra.
Qed.

(** A ball lying on the unit cube, thrown upwards *)
Lemma bounce_response_velocity_witness :
  vec_y (bounceVelocity Top
           (gravityVelocity (1 / 10)
              (basketballVelocity
                 (set_basketball
                    (Some (mkBasketball (vec3 (1 / 2) 1 (1 / 2)) true))
                    (set_basketballVelocity (vec3 0 (1981 / 1000) 0)
                       (initialState demoClips [unitBox] [])))))) <= 0.
Proof.
  pose (s := set_basketball
               (Some (mkBasketball (vec3 (1 / 2) 1 (1 / 2)) true))
               (set_basketballVelocity (vec3 0 (1981 / 1000) 0)
                  (initialState demoClips [unitBox] []))).
  assert (H := bounce_response_velocity (1 / 10) s
                 (mkBasketball (vec3 (1 / 2) 1 (1 / 2)) true) Top
                 eq_refl eq_refl).
  simpl in H.
  assert (Hy : - 10 <= 1) by lra.
  assert (Hl : vlength (vec3 (1 / 2) 1 (1 / 2)) <= 50).
  { unfold vlength. simpl. apply sqrt_le_bound; lra. }
  specialize (H Hy Hl).
  assert (Hc : checkBasketballCollision [unitBox] []
                 (candidatePosition (1 / 10) (vec3 (1 / 2) 1 (1 / 2))
                    (gravityVelocity (1 / 10) (vec3 0 (1981 / 1000) 0)))
               = mkCollisionInfo true (Some Top)).
  { unfold candidatePosition, gravityVelocity, vadd, gravity,
      checkBasketballCollision, unitBox. simpl.
    unfold surfaceHit, containsPoint, expandByScalar, basketballRadius. simpl.
    Rdecide. simpl.
    unfold classifyFace, penetrationX, penetrationY, penetrationZ, getCenter,
      isEmpty, expandByScalar, basketballRadius. simpl.
    Rdecide. simpl. Rdecide. reflexivity. }
  specialize (H Hc). destruct H as [_ [_ H]]. exact H.
Defined.

(** ** What [playAnimation] and the camera keys leave alone *)

Ltac playAnimation_cases s state :=
  unfold playAnimation, onAction, play, addEventListener, bind;
  destruct (action s state); [ | reflexivity ];
  repeat match goal with
  | |- context [match ?x with _ => _ end] => destruct x eqn:?; simpl
  end; try reflexivity.

Lemma playAnimation_avatar state s : avatar (playAnimation state s) = avatar s.
Proof. playAnimation_cases s state. Qed.

Lemma playAnimation_basketball state s :
  basketball (playAnimation state s) = basketball s.
Proof. playAnimation_cases s state. Qed.

Lemma playAnimation_basketballVelocity state s :
  basketballVelocity (playAnimation state s) = basketballVelocity s.
Proof. playAnimation_cases s state. Qed.

Lemma playAnimation_hasBall state s : hasBall (playAnimation state s) = hasBall s.
Proof. playAnimation_cases s state. Qed.

Lemma playAnimation_ballWasThrown state s :
  ballWasThrown (playAnimation state s) = ballWasThrown s.
Proof. playAnimation_cases s state. Qed.

Lemma playAnimation_currentState state s :
  currentState (playAnimation state s) = currentState s.
Proof. playAnimation_cases s state. Qed.

Lemma playAnimation_console state s : console (playAnimation state s) = console s.
Proof. playAnimation_cases s state. Qed.

Lemma set_cameraAngle_same (s : State) : set_cameraAngle (cameraAngle s) s = s.
Proof. destruct s; reflexivity. Qed.

Lemma set_cameraAngle_twice (a b : R) (s : State) :
  set_cameraAngle a (set_cameraAngle b s) = set_cameraAngle a s.
Proof. reflexivity. Qed.

Lemma updateCameraPosition_eq (s : State) :
  exists a : R, updateCameraPosition s = set_cameraAngle a s.
Proof.
  unfold updateCameraPosition.
  destruct (avatar s).
  - destruct (key s "arrowleft").
    + match goal with |- context [if ?c then _ else _] => destruct c end.
      * eexists. apply set_cameraAngle_twice.
      * eexists. reflexivity.
    + match goal with |- context [if ?c then _ else _] => destruct c end.
      * eexists. reflexivity.
      * exists (cameraAngle s). symmetry. apply set_cameraAngle_same.
  - exists (cameraAngle s). symmetry. apply set_cameraAngle_same.
Qed.

Lemma updateCameraPosition_avatar s : avatar (updateCameraPosition s) = avatar s.
Proof. destruct (updateCameraPosition_eq s) as [a ->]. reflexivity. Qed.

(** ** Movement *)

Lemma vlength_zero (a : Vector3) :
  vlength a <= 0 -> vec_x a = 0 /\ vec_y a = 0 /\ vec_z a = 0.
Proof.
  unfold vlength. intros H.
  set (e := vec_x a * vec_x a + vec_y a * vec_y a + vec_z a * vec_z a) in *.
  assert (He : 0 <= e) by (unfold e; nra).
  assert (Hs : sqrt e = 0) by (pose proof (sqrt_pos e); lra).
  apply sqrt_eq_0 in Hs; [ | exact He ].
  unfold e in Hs. repeat split; nra.
Qed.

Lemma moveDirOf_no_keys (s : State) :
  key s "z" = false -> key s "s" = false -> key s "q" = false ->
  key s "d" = false -> moveDirOf s = vzero.
Proof. unfold moveDirOf. intros -> -> -> ->. reflexivity. Qed.

Lemma moveDirOf_bySpec (s : State) : moveDirOf s = directionSumBySpec s.
Proof.
  unfold moveDirOf, directionSumBySpec, pressedBySpec, cameraForward, cameraRight,
    vadd, vsub, vzero.
  destruct (key s "z"), (key s "s"), (key s "q"), (key s "d");
    cbn [vec_x vec_y vec_z]; f_equal; ring.
Qed.

Lemma vadd_vzero (p : Vector3) : vadd p vzero = p.
Proof. destruct p as [x y z]. unfold vadd, vzero. simpl. f_equal; ring. Qed.

Lemma displacementBySpec_moving (delta : R) (s : State) :
  0 < vlength (moveDirOf s) ->
  multiplyScalar (normalize (moveDirOf s)) (currentSpeed s * delta)
  = displacementBySpec delta s.
Proof.
  intros Hl. unfold displacementBySpec, normalize. rewrite <- moveDirOf_bySpec.
  fold (vlength (moveDirOf s)). rewrite (Rltb_intro_true _ _ Hl).
  unfold divideScalar, multiplyScalar, currentSpeed, speedBySpec.
  cbn [vec_x vec_y vec_z]. f_equal; field; lra.
Qed.

Lemma displacementBySpec_still (delta : R) (s : State) :
  vlength (moveDirOf s) <= 0 -> displacementBySpec delta s = vzero.
Proof.
  intros Hl. unfold displacementBySpec. rewrite <- moveDirOf_bySpec.
  fold (vlength (moveDirOf s)). rewrite (Rltb_intro_false _ _ Hl). reflexivity.
Qed.

Lemma vlength_vzero : vlength vzero = 0.
Proof.
  unfold vlength, vzero. simpl.
  replace (0 * 0 + 0 * 0 + 0 * 0) with 0 by ring. apply sqrt_0.
Qed.

(** C5.  In a tick in which the character is not in a transition and the
    collision query, made when the direction sum is not zero, reports
    nothing at the candidate position, the new position is the old one plus
    the normalized sum of the held direction vectors times speed times
    delta.  The sum is written out in coordinates from the held keys and the
    camera angle ([directionSumBySpec]), the normalization as division by
    the Euclidean length, and the speed is the sprint speed when [shift] is
    held and the base speed otherwise.  With no direction key held, whatever
    [shift] is, the position does not change. *)
Theorem movement_follows_held_keys :
  forall (delta : R) (s : State) (av : Avatar),
    avatar s = Some av -> isTransitioning s = false ->
    (directionSumBySpec s <> vzero ->
     checkCollision (collisionBoxes s)
       (vadd (position av) (displacementBySpec delta s)) = false) ->
    exists av' : Avatar,
      avatar (handleMovement delta s) = Some av' /\
      position av' = vadd (position av) (displacementBySpec delta s) /\
      (key s "z" = false -> key s "s" = false -> key s "q" = false ->
       key s "d" = false -> position av' = position av).
Proof.
  intros delta s av Ha Ht Hc.
  unfold handleMovement. rewrite Ha, Ht. cbv zeta.
  rewrite updateCameraPosition_avatar. unfold Rgtb.
  destruct (Rltb 0 (vlength (moveDirOf s))) eqn:Hlen.
  - apply Rltb_true in Hlen.
    rewrite (displacementBySpec_moving delta s Hlen).
    rewrite Hc.
    2:{ intros Hz. rewrite <- moveDirOf_bySpec in Hz. rewrite Hz in Hlen.
        rewrite vlength_vzero in Hlen. lra. }
    simpl negb. cbv iota.
    eexists. split.
    + match goal with
      | |- avatar (if ?c then _ else _) = _ => destruct c
      end; [ cbn [avatar set_currentState]; rewrite playAnimation_avatar | ];
      reflexivity.
    + split; [ reflexivity | ].
      intros Hz Hs Hq Hd.
      rewrite (moveDirOf_no_keys s Hz Hs Hq Hd), vlength_vzero in Hlen. lra.
  - apply Rltb_false in Hlen. exists av. split.
    + match goal with
      | |- avatar (if ?c then _ else _) = _ => destruct c
      end; [ cbn [avatar set_currentState]; rewrite playAnimation_avatar | ];
      assumption.
    + split; [ | reflexivity ].
      rewrite (displacementBySpec_still delta s Hlen). symmetry. apply vadd_vzero.
Qed.

Lemma walkingRight_displacement :
  displacementBySpec (1 / 2) walkingRight = vec3 1 0 0.
Proof.
  assert (Hd : directionSumBySpec walkingRight = vec3 1 0 0).
  { unfold directionSumBySpec, pressedBySpec.
    replace (cameraAngle walkingRight) with 0 by reflexivity.
    replace (key walkingRight "z") with false by reflexivity.
    replace (key walkingRight "s") with false by reflexivity.
    replace (key walkingRight "q") with false by reflexivity.
    replace (key walkingRight "d") with true by reflexivity.
    cbv zeta. rewrite sin_0, cos_0. f_equal; ring. }
  unfold displacementBySpec, speedBySpec. rewrite Hd.
  replace (key walkingRight "shift") with false by reflexivity.
  cbv zeta. cbn [vec_x vec_y vec_z].
  replace (1 * 1 + 0 * 0 + 0 * 0) with 1 by ring. rewrite sqrt_1.
  rewrite Rltb_intro_true by lra. unfold moveSpeed. f_equal; field.
Qed.

Lemma movement_follows_held_keys_witness :
  exists av' : Avatar,
    avatar (handleMovement (1 / 2) walkingRight) = Some av' /\
    position av' = vec3 1 (- (15 / 10)) 0.
Proof.
  destruct (movement_follows_held_keys (1 / 2) walkingRight
              (mkAvatar (vec3 0 (- (15 / 10)) 0) 0) eq_refl eq_refl)
    as (av' & Hav & Hpos & _).
  - intros _. reflexivity.
  - exists av'. split; [ exact Hav | ].
    rewrite Hpos, walkingRight_displacement. unfold vadd. simpl. f_equal; ring.
Defined.

(** ** Playing the state that is already playing *)

Lemma AnimState_eqb_refl (k : AnimState) : AnimState_eqb k k = true.
Proof. destruct k; reflexivity. Qed.

Lemma AnimState_eqb_eq (a b : AnimState) : AnimState_eqb a b = true <-> a = b.
Proof. destruct a, b; simpl; split; intros H; try reflexivity; discriminate. Qed.

Lemma lookupAction_map_same (k : AnimState) (a a' : AnimationAction)
      (l : list (AnimState * AnimationAction)) :
  lookupAction k l = Some a ->
  lookupAction k
    (map (fun e => if AnimState_eqb (fst e) k then (fst e, a') else e) l) = Some a'.
Proof.
  induction l as [| [k0 a0] rest IH]; simpl; intros H.
  - discriminate.
  - destruct (AnimState_eqb k0 k) eqn:Hk; simpl; rewrite Hk.
    + reflexivity.
    + apply IH. exact H.
Qed.

Lemma lookupAction_map_other (k k' : AnimState) (a' : AnimationAction)
      (l : list (AnimState * AnimationAction)) :
  k' <> k ->
  lookupAction k'
    (map (fun e => if AnimState_eqb (fst e) k then (fst e, a') else e) l)
  = lookupAction k' l.
Proof.
  intros Hne. induction l as [| [k0 a0] rest IH]; simpl.
  - reflexivity.
  - destruct (AnimState_eqb k0 k) eqn:Hk; simpl.
    + apply AnimState_eqb_eq in Hk. subst k0.
      destruct (AnimState_eqb k k') eqn:Hk'.
      * apply AnimState_eqb_eq in Hk'. congruence.
      * exact IH.
    + destruct (AnimState_eqb k0 k'); [ reflexivity | exact IH ].
Qed.

Lemma playAnimation_current_actions (state : AnimState) (s : State)
      (a : AnimationAction) :
  currentAction s = Some state -> action s state = Some a ->
  actions (playAnimation state s)
  = map (fun e => if AnimState_eqb (fst e) state
                  then (fst e, fadeIn (mixerTime s) (3 / 10) (reset a)) else e)
        (actions s).
Proof.
  intros Hcur Ha. unfold playAnimation. rewrite Ha, Hcur.
  rewrite AnimState_eqb_refl. simpl negb. cbv iota zeta.
  unfold onAction, play, addEventListener, bind, action in *.
  cbn [actions set_currentAction]. rewrite Ha.
  destruct state;
    repeat match goal with
    | |- context [if ?c then _ else _] => destruct c
    end; reflexivity.
Qed.

(** C7, as the code has it.  [playAnimation] has no test for the state that
    is already playing: called on it, it fades no clip out but restarts the
    clip (time back to 0) and schedules its fade-in again.  The restart is
    avoided by the caller: a movement tick whose selected state is the
    recorded current state calls [playAnimation] not at all, and leaves the
    clips, their fades, the current action, the transition flags and the
    registered completion callbacks as they were. *)
Theorem play_current_state_guarded_by_caller :
  (forall (state : AnimState) (s : State) (a : AnimationAction),
      currentAction s = Some state -> action s state = Some a ->
      action (playAnimation state s) state
      = Some (fadeIn (mixerTime s) (3 / 10) (reset a)) /\
      (forall k, k <> state -> action (playAnimation state s) k = action s k))
  /\
  (forall (delta : R) (s : State),
      selectedState s = currentState s ->
      let s' := handleMovement delta s in
      actions s' = actions s /\ currentAction s' = currentAction s /\
      currentState s' = currentState s /\ activeActions s' = activeActions s /\
      isTransitioning s' = isTransitioning s /\
      isThrowingBall s' = isThrowingBall s /\
      listeners s' = listeners s /\ nextFunctionId s' = nextFunctionId s).
Proof.
  split.
  - intros state s a Hcur Ha. unfold action at 1.
    rewrite (playAnimation_current_actions state s a Hcur Ha). split.
    + apply lookupAction_map_same with (a := a). exact Ha.
    + intros k Hk. unfold action.
      rewrite (playAnimation_current_actions state s a Hcur Ha).
      apply lookupAction_map_other. exact Hk.
  - intros delta s Hsel s'. subst s'. unfold handleMovement.
    destruct (avatar s) as [av |] eqn:Hav; [ | repeat split ].
    destruct (isTransitioning s) eqn:Ht; [ rewrite Ht; repeat split | ].
    cbv zeta. unfold selectedState in Hsel.
    match goal with
    | |- context [updateCameraPosition ?x] =>
        destruct (updateCameraPosition_eq x) as [angle ->]
    end.
    destruct (Rgtb (vlength (moveDirOf s)) 0).
    + rewrite Hsel.
      match goal with
      | |- context [checkCollision ?b ?p] => destruct (checkCollision b p)
      end; simpl negb; cbv iota;
        cbn [currentState set_avatar]; rewrite AnimState_eqb_refl;
        simpl negb; cbv iota; simpl; rewrite ?Ht; repeat split.
    + rewrite Hsel. rewrite AnimState_eqb_refl. simpl negb. cbv iota.
      simpl; rewrite ?Ht; repeat split.
Qed.

Lemma play_current_state_guarded_by_caller_witness :
  action (playAnimation idle idleForHalfASecond) idle
  = Some (mkAction 0 100 LoopRepeat false false true (Some (FadeIn, 1 / 2 + 3 / 10))) /\
  actions (handleMovement (1 / 2) idleForHalfASecond) = actions idleForHalfASecond.
Proof.
  split.
  - apply (proj1 play_current_state_guarded_by_caller idle idleForHalfASecond
             (mkAction (1 / 2) 100 LoopRepeat false false true None)
             eq_refl eq_refl).
  - apply (proj2 play_current_state_guarded_by_caller (1 / 2) idleForHalfASecond).
    unfold selectedState.
    replace (Rgtb (vlength (moveDirOf idleForHalfASecond)) 0) with false.
    + reflexivity.
    + symmetry. unfold Rgtb. apply Rltb_intro_false.
      unfold vlength. simpl. apply sqrt_le_bound; lra.
Defined.

(** C7 as stated fails: playing [idle] while [idle] is the playing state
    puts the clip back to time 0. *)
Lemma play_current_state_restarts_clip :
  currentAction idleForHalfASecond = Some idle /\
  currentState idleForHalfASecond = idle /\
  option_map time (action idleForHalfASecond idle) = Some (1 / 2) /\
  option_map time (action (playAnimation idle idleForHalfASecond) idle) = Some 0 /\
  playAnimation idle idleForHalfASecond <> idleForHalfASecond.
Proof.
  repeat split; try reflexivity.
  intros H.
  apply (f_equal (fun s => option_map time (action s idle))) in H.
  simpl in H. injection H. lra.
Qed.

(** ** The ball in the hand *)

(** C10.  A physics tick entered with the ball held, in which the guards of
    hand following pass (the ball was not thrown; it carries no velocity
    above 0.1 unless a throw is under way) and no release occurs (during a
    throw the clip's progress is at most 0.6), changes nothing but the
    ball's position, which becomes the character's position plus the hand
    offset rotated by the character's yaw: the velocity and the flags are
    those before the tick, and no gravity, collision response, ground
    handling or safety reset is applied. *)
Theorem held_ball_tick_is_kinematic :
  forall (delta : R) (s : State) (b : Basketball) (av : Avatar),
    basketball s = Some b -> avatar s = Some av ->
    hasBall s = true -> ballWasThrown s = false ->
    (isThrowingBall s = false -> vlength (basketballVelocity s) <= 1 / 10) ->
    (forall cur a, isThrowingBall s = true -> currentAction s = Some cur ->
                   action s cur = Some a -> progressOf a <= 6 / 10) ->
    updateBasketballPhysics delta s
    = set_basketball
        (Some (mkBasketball
                 (vadd (position av)
                       (applyAxisAngleY (handOffsetOf s) (rotationY av)))
                 (visible b))) s.
Proof.
  intros delta s b av Hb Ha Hh Hw Hv Hp.
  unfold updateBasketballPhysics. rewrite Hb, Hh.
  unfold updateBasketballInHand, handOffsetOf. rewrite Hb, Ha, Hh, Hw.
  simpl negb. cbv iota.
  destruct (isThrowingBall s) eqn:Ht.
  - simpl negb. simpl andb. cbv iota.
    destruct (currentAction s) as [cur |] eqn:Hcur; [ | reflexivity ].
    destruct (action s cur) as [a |] eqn:Hact; [ | reflexivity ].
    cbv zeta. rewrite Rleb_intro_true by (apply (Hp cur a); auto).
    reflexivity.
  - simpl negb. unfold Rgtb. rewrite Rltb_intro_false by auto.
    reflexivity.
Qed.

Lemma held_ball_tick_is_kinematic_witness :
  updateBasketballPhysics (1 / 60) holdingStill
  = set_basketball
      (Some (mkBasketball
               (vadd (vec3 0 (- (15 / 10)) 0)
                     (applyAxisAngleY (vec3 0 1 (4 / 10)) 0))
               true)) holdingStill.
Proof.
  apply (held_ball_tick_is_kinematic (1 / 60) holdingStill
           (mkBasketball (vec3 3 (- (12 / 10)) 0) true)
           (mkAvatar (vec3 0 (- (15 / 10)) 0) 0)).
  - reflexivity.
  - reflexivity.
  - reflexivity.
  - reflexivity.
  - intros _. unfold vlength. simpl. apply sqrt_le_bound; lra.
  - intros cur a Ht. discriminate Ht.
Defined.

(** ** A hit discards the whole step *)

Lemma set_basketball_same (s : State) (b : Basketball) :
  basketball s = Some b -> set_basketball (Some b) s = s.
Proof. destruct s; simpl; intros ->; reflexivity. Qed.

Lemma hit_keeps_position (delta : R) (s : State) (b : Basketball) (f : Face) :
  basketball s = Some b -> hasBall s = false ->
  - 10 <= vec_y (ballPosition b) -> vlength (ballPosition b) <= 50 ->
  groundY + basketballRadius <= vec_y (ballPosition b) ->
  checkBasketballCollision (collisionBoxes s) (collisionObjectNames s)
    (candidatePosition delta (ballPosition b)
       (gravityVelocity delta (basketballVelocity s)))
  = mkCollisionInfo true (Some f) ->
  exists v : Vector3,
    updateBasketballPhysics delta s
    = set_basketballVelocity v (log (LogBounce f) s).
Proof.
  intros Hb Hh Hy Hl Hg Hc.
  rewrite (free_flight_hit delta s b f Hb Hh Hy Hl Hc).
  unfold groundCollision.
  destruct (Rleb (vec_y (ballPosition b)) (groundY + basketballRadius)) eqn:Hle.
  - apply Rleb_true in Hle.
    assert (Heq : vec_y (ballPosition b) = groundY + basketballRadius) by lra.
    eexists. cbv zeta. rewrite <- Heq.
    replace (mkBasketball
               (vec3 (vec_x (ballPosition b)) (vec_y (ballPosition b))
                     (vec_z (ballPosition b))) (visible b)) with b
      by (destruct b as [[x y z] vis]; reflexivity).
    rewrite set_basketball_same by exact Hb.
    reflexivity.
  - eexists. reflexivity.
Qed.

(** ** Invariants: the height of the character and of the ball *)

Lemma heightInv_ext (s s' : State) :
  avatar s' = avatar s -> basketball s' = basketball s ->
  heightInv s -> heightInv s'.
Proof. unfold heightInv. intros -> ->. auto. Qed.

Lemma throwOffset_y (p : R) : 8 / 10 <= vec_y (throwOffset p).
Proof.
  unfold throwOffset.
  destruct (Rleb p (3 / 10)); [ | destruct (Rleb p (55 / 100)) ]; simpl.
  - pose proof (SIN_bound (p / (3 / 10) * PI * (5 / 10))). lra.
  - assert (0 < Rpower ((p - 3 / 10) / (25 / 100)) (3 / 10))
      by (unfold Rpower; apply exp_pos).
    lra.
  - lra.
Qed.

Lemma handOffsetOf_y (s : State) : 8 / 10 <= vec_y (handOffsetOf s).
Proof.
  unfold handOffsetOf.
  destruct (if isThrowingBall s then currentAction s else None);
    [ destruct (action s a); [ apply throwOffset_y | simpl; lra ] | simpl; lra ].
Qed.

Lemma placeBallInHand_height (o : Vector3) (b : Basketball) (av : Avatar) (s : State) :
  8 / 10 <= vec_y o -> avatar s = Some av -> heightInv s ->
  heightInv (placeBallInHand o b av s).
Proof.
  intros Ho Ha [Hav Hb]. split.
  - exact Hav.
  - intros b' Hb'. unfold placeBallInHand in Hb'. simpl in Hb'.
    injection Hb' as <-. simpl. rewrite (Hav av Ha).
    unfold groundY, basketballRadius. lra.
Qed.

Lemma throwBasketball_height (s : State) : heightInv s -> heightInv (throwBasketball s).
Proof.
  intros H. unfold throwBasketball.
  destruct (basketball s) as [b |] eqn:Eb; [ | exact H ].
  destruct (avatar s) as [av |] eqn:Ea; [ | exact H ].
  destruct H as [Hav Hb]. split; simpl.
  - exact Hav.
  - intros b' Hb'. injection Hb' as <-. simpl. apply (Hb b). exact Eb.
Qed.

Lemma updateBasketballInHand_height (s : State) :
  heightInv s -> heightInv (updateBasketballInHand s).
Proof.
  intros H. unfold updateBasketballInHand.
  destruct (basketball s) as [b |] eqn:Eb; [ | exact H ].
  destruct (avatar s) as [av |] eqn:Ea; [ | exact H ].
  destruct (negb (hasBall s)); [ exact H | ].
  destruct (ballWasThrown s);
    [ apply (heightInv_ext s); [ frame | frame | exact H ] | ].
  destruct (negb (isThrowingBall s) && Rgtb (vlength (basketballVelocity s)) (1 / 10));
    [ apply (heightInv_ext s); [ frame | frame | exact H ] | ].
  cbv zeta.
  destruct (if isThrowingBall s then currentAction s else None) as [cur |].
  - destruct (action s cur) as [a |].
    + destruct (Rleb (progressOf a) (6 / 10)).
      * apply placeBallInHand_height; auto. apply throwOffset_y.
      * destruct (hasBall s); [ | exact H ].
        apply throwBasketball_height.
        apply (heightInv_ext s); [ frame | frame | exact H ].
    + apply placeBallInHand_height; auto. simpl. lra.
  - apply placeBallInHand_height; auto. simpl. lra.
Qed.

Lemma attachBasketballToHand_height (s : State) :
  heightInv s -> heightInv (attachBasketballToHand s).
Proof.
  intros H. unfold attachBasketballToHand.
  destruct (basketball s) as [b |] eqn:Eb; [ | exact H ].
  destruct (avatar s) as [av |] eqn:Ea; [ | exact H ].
  apply updateBasketballInHand_height.
  destruct H as [Hav Hb]. split; simpl.
  - exact Hav.
  - intros b' Hb'. injection Hb' as <-. simpl. apply (Hb b). exact Eb.
Qed.

Lemma playAnimation_height (state : AnimState) (s : State) :
  heightInv s -> heightInv (playAnimation state s).
Proof.
  apply heightInv_ext;
    [ apply playAnimation_avatar | apply playAnimation_basketball ].
Qed.

Lemma onCrouchFinished_height (s : State) :
  heightInv s -> heightInv (onCrouchFinished s).
Proof.
  intros H. unfold onCrouchFinished, bind. cbv beta iota zeta.
  match goal with
  | |- heightInv (log _ (set_currentState _ ?x)) =>
      apply (heightInv_ext x); [ frame | frame | ]
  end.
  apply playAnimation_height, attachBasketballToHand_height.
  apply (heightInv_ext s); [ frame | frame | exact H ].
Qed.

Lemma onThrowFinished_height (s : State) :
  heightInv s -> heightInv (onThrowFinished s).
Proof.
  intros H. unfold onThrowFinished, bind. cbv beta iota zeta.
  match goal with
  | |- heightInv (set_currentState _ ?x) =>
      apply (heightInv_ext x); [ frame | frame | ]
  end.
  apply playAnimation_height.
  apply (heightInv_ext s); [ frame | frame | exact H ].
Qed.

Lemma fold_left_inv {A : Type} (P : State -> Prop) (f : State -> A -> State)
      (l : list A) :
  (forall s a, P s -> P (f s a)) -> forall s, P s -> P (fold_left f l s).
Proof.
  intros Hf. induction l as [| a rest IH]; simpl; intros s Hs.
  - exact Hs.
  - apply IH, Hf, Hs.
Qed.

Lemma dispatchFinished_height (s : State) :
  heightInv s -> heightInv (dispatchFinished s).
Proof.
  unfold dispatchFinished. apply fold_left_inv.
  intros s' l Hs'. destruct (handler l); simpl;
    [ apply onCrouchFinished_height | apply onThrowFinished_height ]; exact Hs'.
Qed.

Lemma onAction_height (k : AnimState) (f : AnimationAction -> AnimationAction)
      (s : State) : heightInv s -> heightInv (onAction k f s).
Proof.
  unfold onAction. destruct (action s k); [ | auto ].
  apply heightInv_ext; reflexivity.
Qed.

Lemma updateAction_height (delta : R) (s : State) (k : AnimState) :
  heightInv s -> heightInv (updateAction delta s k).
Proof.
  intros H. unfold updateAction.
  destruct (action s k) as [a |]; [ | exact H ].
  destruct (negb (enabled a)); [ exact H | ].
  cbv zeta. apply onAction_height.
  match goal with |- heightInv (if ?c then _ else _) => destruct c end;
    [ | exact H ].
  destruct (updateTime _ a) as [a' finished].
  destruct finished.
  - apply dispatchFinished_height.
    apply (heightInv_ext s); [ frame | frame | exact H ].
  - apply (heightInv_ext s); [ frame | frame | exact H ].
Qed.

Lemma mixerUpdate_height (delta : R) (s : State) :
  heightInv s -> heightInv (mixerUpdate delta s).
Proof.
  intros H. unfold mixerUpdate. cbv zeta. apply fold_left_inv.
  - intros s' k. apply updateAction_height.
  - apply (heightInv_ext s); [ frame | frame | exact H ].
Qed.

Lemma moveDirOf_y (s : State) : vec_y (moveDirOf s) = 0.
Proof.
  unfold moveDirOf.
  destruct (key s "z"), (key s "s"), (key s "q"), (key s "d"); simpl; ring.
Qed.

Lemma updateCameraPosition_height (s : State) :
  heightInv s -> heightInv (updateCameraPosition s).
Proof.
  destruct (updateCameraPosition_eq s) as [a ->].
  apply heightInv_ext; reflexivity.
Qed.

Lemma handleMovement_height (delta : R) (s : State) :
  heightInv s -> heightInv (handleMovement delta s).
Proof.
  intros H. unfold handleMovement.
  destruct (avatar s) as [av |] eqn:Ea; [ | exact H ].
  destruct (isTransitioning s); [ exact H | ].
  cbv zeta. apply updateCameraPosition_height.
  destruct (Rgtb (vlength (moveDirOf s)) 0).
  - assert (Hmoved : forall p r,
              vec_y p = - (15 / 10) ->
              heightInv (set_avatar (Some (mkAvatar p r)) s)).
    { intros p r Hp. destruct H as [Hav Hb]. split; simpl.
      - intros av' Hav'. injection Hav' as <-. exact Hp.
      - exact Hb. }
    assert (Hy : vec_y (position av) = - (15 / 10))
      by (destruct H as [Hav _]; apply Hav; exact Ea).
    match goal with
    | |- heightInv (if _ then set_currentState ?n (playAnimation ?n ?x) else ?x) =>
        assert (Hx : heightInv x)
    end.
    { match goal with |- heightInv (if ?c then _ else _) => destruct c end;
        apply Hmoved; [ | exact Hy ].
      unfold vadd, multiplyScalar, normalize, divideScalar. simpl.
      rewrite moveDirOf_y, Hy. ring. }
    match goal with |- heightInv (if ?c then _ else _) => destruct c end;
      [ | exact Hx ].
    match goal with
    | |- heightInv (set_currentState _ ?y) =>
        apply (heightInv_ext y); [ frame | frame | ]
    end.
    apply playAnimation_height, Hx.
  - match goal with |- heightInv (if ?c then _ else _) => destruct c end;
      [ | exact H ].
    match goal with
    | |- heightInv (set_currentState _ ?y) =>
        apply (heightInv_ext y); [ frame | frame | ]
    end.
    apply playAnimation_height, H.
Qed.

Lemma groundCollision_height (b : Basketball) (s : State) :
  basketball s = Some b ->
  (forall av, avatar s = Some av -> vec_y (position av) = - (15 / 10)) ->
  heightInv (groundCollision b s).
Proof.
  intros Hb Hav. unfold groundCollision.
  destruct (Rleb (vec_y (ballPosition b)) (groundY + basketballRadius)) eqn:Hle.
  - split; simpl.
    + exact Hav.
    + intros b' Hb'. injection Hb' as <-. simpl. lra.
  - apply Rleb_false in Hle. split.
    + exact Hav.
    + intros b' Hb'. rewrite Hb in Hb'. injection Hb' as <-. lra.
Qed.

Lemma resetBasketball_height (b : Basketball) (s : State) :
  heightInv s -> heightInv (resetBasketball b s).
Proof.
  intros [Hav Hb]. split; simpl.
  - exact Hav.
  - intros b' Hb'. injection Hb' as <-. simpl.
    unfold groundY, basketballRadius. lra.
Qed.

Lemma updateBasketballPhysics_height (delta : R) (s : State) :
  heightInv s -> heightInv (updateBasketballPhysics delta s).
Proof.
  intros H. unfold updateBasketballPhysics.
  destruct (basketball s) as [b |] eqn:Eb; [ | exact H ].
  destruct (hasBall s); [ apply updateBasketballInHand_height, H | ].
  destruct (Rltb (vec_y (ballPosition b)) (- 10)).
  { apply resetBasketball_height.
    apply (heightInv_ext s); [ frame | frame | exact H ]. }
  destruct (Rgtb (vlength (ballPosition b)) 50).
  { apply resetBasketball_height.
    apply (heightInv_ext s); [ frame | frame | exact H ]. }
  cbv zeta. destruct H as [Hav Hb].
  match goal with
  | |- context [checkBasketballCollision ?x ?y ?z] =>
      destruct (checkBasketballCollision x y z) as [hit face]
  end.
  simpl. destruct hit; [ destruct face | ];
    apply groundCollision_height; simpl; auto.
Qed.

Lemma animate_height (delta : R) (s : State) :
  heightInv s -> heightInv (animate delta s).
Proof.
  intros H. unfold animate. cbv zeta.
  apply updateCameraPosition_height, updateBasketballPhysics_height,
    handleMovement_height, mixerUpdate_height, H.
Qed.

Lemma onKeyDown_height (name : string) (s : State) :
  heightInv s -> heightInv (onKeyDown name s).
Proof.
  intros H. unfold onKeyDown. cbv zeta.
  assert (Hk : heightInv (setKey name true s))
    by (apply (heightInv_ext s); [ frame | frame | exact H ]).
  repeat match goal with |- heightInv (if ?c then _ else _) => destruct c end;
    try exact Hk;
    (match goal with
     | |- heightInv (set_currentState _ ?y) =>
         apply (heightInv_ext y); [ frame | frame | ]
     end;
     apply playAnimation_height;
     (apply (heightInv_ext s); [ frame | frame | exact H ])).
Qed.

Lemma step_height (e : Event) (s : State) : heightInv s -> heightInv (step e s).
Proof.
  intros H. destruct e; simpl.
  - apply animate_height, H.
  - apply onKeyDown_height, H.
  - apply (heightInv_ext s); [ frame | frame | exact H ].
  - apply (heightInv_ext s); [ frame | frame | exact H ].
Qed.

Lemma initialState_height clips boxes names :
  heightInv (initialState clips boxes names).
Proof.
  unfold initialState. apply playAnimation_height. split; simpl.
  - intros av Hav. injection Hav as <-. reflexivity.
  - intros b Hb. injection Hb as <-. simpl. unfold groundY, basketballRadius. lra.
Qed.

Lemma reachable_height clips boxes names (s : State) :
  reachable clips boxes names s -> heightInv s.
Proof.
  induction 1 as [| s e _ IH _].
  - apply initialState_height.
  - apply step_height, IH.
Qed.

(** C9.  In a reachable state, a free-flight tick whose collision query
    reports a hit leaves the ball where it was on all three axes: the tick
    changes the velocity (and prints the bounce message) and nothing else,
    so no part of the candidate step is kept. *)
Theorem hit_discards_whole_step :
  forall (clips : AnimState -> option R) (boxes : list Box3) (names : list string)
         (delta : R) (s : State) (b : Basketball) (f : Face),
    reachable clips boxes names s ->
    basketball s = Some b -> hasBall s = false ->
    vlength (ballPosition b) <= 50 ->
    checkBasketballCollision (collisionBoxes s) (collisionObjectNames s)
      (candidatePosition delta (ballPosition b)
         (gravityVelocity delta (basketballVelocity s)))
    = mkCollisionInfo true (Some f) ->
    basketball (updateBasketballPhysics delta s) = Some b /\
    exists v : Vector3,
      updateBasketballPhysics delta s
      = set_basketballVelocity v (log (LogBounce f) s).
Proof.
  intros clips boxes names delta s b f Hr Hb Hh Hl Hc.
  destruct (reachable_height _ _ _ _ Hr) as [_ Hheight].
  pose proof (Hheight b Hb) as Hg.
  assert (Hy : - 10 <= vec_y (ballPosition b))
    by (unfold groundY, basketballRadius in Hg; lra).
  destruct (hit_keeps_position delta s b f Hb Hh Hy Hl Hg Hc) as [v Hv].
  split.
  - rewrite Hv. simpl. exact Hb.
  - exists v. exact Hv.
Qed.

Lemma hit_discards_whole_step_witness :
  basketball (updateBasketballPhysics (1 / 10)
                (initialState demoClips [slabUnderBall] []))
  = Some (mkBasketball (vec3 3 (- (12 / 10)) 0) true) /\
  exists v : Vector3,
    updateBasketballPhysics (1 / 10) (initialState demoClips [slabUnderBall] [])
    = set_basketballVelocity v
        (log (LogBounce Top) (initialState demoClips [slabUnderBall] [])).
Proof.
  apply (hit_discards_whole_step demoClips [slabUnderBall] [] (1 / 10)).
  - apply reachable_init.
  - reflexivity.
  - reflexivity.
  - unfold vlength. simpl. apply sqrt_le_bound; lra.
  - unfold candidatePosition, gravityVelocity, vadd, gravity,
      checkBasketballCollision, slabUnderBall. simpl.
    unfold surfaceHit, containsPoint, expandByScalar, basketballRadius. simpl.
    Rdecide. simpl.
    unfold classifyFace, penetrationX, penetrationY, penetrationZ, getCenter,
      isEmpty, expandByScalar, basketballRadius. simpl.
    Rdecide. simpl. Rdecide. reflexivity.
Defined.

(** ** Invariants: the throw bookkeeping *)

Lemma sameControl_refl (s : State) : sameControl s s.
Proof. repeat split. Qed.

Lemma sameControl_trans (s1 s2 s3 : State) :
  sameControl s1 s2 -> sameControl s2 s3 -> sameControl s1 s3.
Proof.
  unfold sameControl. intros (A1 & A2 & A3 & A4 & A5) (B1 & B2 & B3 & B4 & B5).
  repeat split; congruence.
Qed.

Lemma sameControl_throwingInv (s s' : State) :
  sameControl s s' -> throwingInv s -> throwingInv s'.
Proof.
  unfold sameControl, throwingInv, freshIds.
  intros (A1 & A2 & A3 & A4 & A5). rewrite A1, A2, A3, A4, A5. auto.
Qed.

Ltac split_cases :=
  repeat match goal with
  | |- context [match ?x with _ => _ end] => destruct x
  end.

Lemma onAction_sameControl k f s : sameControl s (onAction k f s).
Proof. unfold onAction. split_cases; same. Qed.

Lemma play_sameControl k s : sameControl s (play k s).
Proof. unfold play. split_cases; same. Qed.

Lemma throwBasketball_sameControl s : sameControl s (throwBasketball s).
Proof. unfold throwBasketball. split_cases; same. Qed.

Lemma updateBasketballInHand_sameControl s :
  sameControl s (updateBasketballInHand s).
Proof.
  unfold updateBasketballInHand.
  destruct (basketball s); [ | apply sameControl_refl ].
  destruct (avatar s); [ | apply sameControl_refl ].
  destruct (negb (hasBall s)); [ apply sameControl_refl | ].
  destruct (ballWasThrown s); [ same | ].
  destruct (negb (isThrowingBall s) && Rgtb (vlength (basketballVelocity s)) (1 / 10));
    [ same | ].
  cbv zeta.
  destruct (if isThrowingBall s then currentAction s else None);
    [ | same ].
  destruct (action s a0); [ | same ].
  destruct (Rleb (progressOf a1) (6 / 10)); [ same | ].
  destruct (hasBall s); [ | apply sameControl_refl ].
  apply (sameControl_trans s (set_hasBall false (log LogReleasing s)) _);
    [ same | apply throwBasketball_sameControl ].
Qed.

Lemma attachBasketballToHand_sameControl s :
  sameControl s (attachBasketballToHand s).
Proof.
  unfold attachBasketballToHand.
  destruct (basketball s); [ | apply sameControl_refl ].
  destruct (avatar s); [ | apply sameControl_refl ].
  match goal with
  | |- sameControl _ (updateBasketballInHand ?x) =>
      apply (sameControl_trans _ x _);
        [ same | apply updateBasketballInHand_sameControl ]
  end.
Qed.

(** The part of [playAnimation] before the test on the clip name *)
Lemma playAnimation_plain (state : AnimState) (s : State) :
  isPlayOnce state = false -> sameControl s (playAnimation state s).
Proof.
  intros Hstate. unfold playAnimation.
  destruct (action s state); [ | apply sameControl_refl ].
  cbv zeta.
  match goal with
  | |- sameControl _ (match state with _ => _ end) =>
      assert (Hpre : sameControl s
        (play state
           (onAction state
              (fun a => fadeIn (mixerTime
                  (set_currentAction (Some state)
                     match currentAction s with
                     | Some cur =>
                         if negb (AnimState_eqb cur state)
                         then onAction cur (fadeOut (mixerTime s) (3 / 10)) s
                         else s
                     | None => s
                     end)) (3 / 10) (reset a))
              (set_currentAction (Some state)
                 match currentAction s with
                 | Some cur =>
                     if negb (AnimState_eqb cur state)
                     then onAction cur (fadeOut (mixerTime s) (3 / 10)) s
                     else s
                 | None => s
                 end))))
  end.
  { eapply sameControl_trans; [ | apply play_sameControl ].
    eapply sameControl_trans; [ | apply onAction_sameControl ].
    destruct (currentAction s) as [cur |]; [ | same ].
    destruct (negb (AnimState_eqb cur state)); [ | same ].
    eapply sameControl_trans; [ apply (onAction_sameControl cur) | same ]. }
  destruct state; try discriminate Hstate; exact Hpre.
Qed.

Lemma Forall_removeFirst (P : Listener -> Prop) (id : nat) (ls : list Listener) :
  Forall P ls -> Forall P (removeFirst id ls).
Proof.
  induction 1 as [| l rest Hl Hrest IH]; simpl.
  - constructor.
  - destruct (Nat.eqb (functionId l) id); [ exact Hrest | constructor; assumption ].
Qed.

Lemma freshIds_after_bind (s : State) :
  freshIds s ->
  Forall (fun l => (functionId l < S (nextFunctionId s))%nat) (listeners s).
Proof.
  unfold freshIds. apply Forall_impl. intros l Hl. lia.
Qed.

Lemma onCrouchFinished_control (s : State) :
  freshIds s ->
  freshIds (onCrouchFinished s) /\
  isThrowingBall (onCrouchFinished s) = isThrowingBall s.
Proof.
  intros Hf. unfold onCrouchFinished, bind. cbv beta iota zeta.
  set (s0 := set_ballWasThrown false
               (set_isTransitioning false
                  (set_hasBall true
                     (set_isCrouched true
                        (removeEventListener
                           (mkListener (nextFunctionId s) OnCrouchFinished)
                           (set_nextFunctionId (S (nextFunctionId s)) s)))))).
  assert (H0 : freshIds s0).
  { unfold freshIds, s0. simpl. apply Forall_removeFirst, freshIds_after_bind, Hf. }
  assert (Hsame : sameControl s0 (playAnimation holdingball (attachBasketballToHand s0))).
  { eapply sameControl_trans;
      [ apply attachBasketballToHand_sameControl | apply playAnimation_plain; reflexivity ]. }
  destruct Hsame as (A1 & A2 & A3 & A4 & A5). split.
  - unfold freshIds. simpl. rewrite A4, A5. exact H0.
  - simpl. rewrite A1. reflexivity.
Qed.

Lemma onThrowFinished_control (s : State) :
  freshIds s ->
  freshIds (onThrowFinished s) /\ isThrowingBall (onThrowFinished s) = false.
Proof.
  intros Hf. unfold onThrowFinished, bind. cbv beta iota zeta.
  set (s0 := log LogThrowFinished
               (set_hasBall false
                  (set_isThrowingBall false
                     (set_isTransitioning false
                        (set_isCrouched false
                           (removeEventListener
                              (mkListener (nextFunctionId s) OnThrowFinished)
                              (set_nextFunctionId (S (nextFunctionId s)) s))))))).
  assert (H0 : freshIds s0).
  { unfold freshIds, s0. simpl. apply Forall_removeFirst, freshIds_after_bind, Hf. }
  destruct (playAnimation_plain idle s0 eq_refl) as (A1 & A2 & A3 & A4 & A5). split.
  - unfold freshIds. simpl. rewrite A4, A5. exact H0.
  - simpl. rewrite A1. reflexivity.
Qed.

Lemma dispatch_control (ls : list Listener) :
  forall s,
    freshIds s ->
    isThrowingBall s = false \/ existsb isThrowHandler ls = true ->
    freshIds (fold_left (fun s l => call (handler l) s) ls s) /\
    isThrowingBall (fold_left (fun s l => call (handler l) s) ls s) = false.
Proof.
  induction ls as [| l rest IH]; simpl; intros s Hf H.
  - split; [ exact Hf | ]. destruct H as [H | H]; [ exact H | discriminate H ].
  - unfold isThrowHandler in H at 1. destruct (handler l); simpl in *.
    + destruct (onCrouchFinished_control s Hf) as [Hf' Ht'].
      apply IH; [ exact Hf' | ]. rewrite Ht'. exact H.
    + destruct (onThrowFinished_control s Hf) as [Hf' Ht'].
      apply IH; [ exact Hf' | ]. left. exact Ht'.
Qed.

Lemma notThrowing_throwingInv (s : State) :
  freshIds s -> isThrowingBall s = false -> throwingInv s.
Proof. intros Hf Ht. split; [ exact Hf | ]. rewrite Ht. discriminate. Qed.

Lemma dispatchFinished_throwingInv (s : State) :
  throwingInv s -> throwingInv (dispatchFinished s).
Proof.
  intros [Hf Hi]. unfold dispatchFinished.
  destruct (dispatch_control (listeners s) s Hf) as [Hf' Ht'].
  - destruct (isThrowingBall s); [ right; apply Hi; reflexivity | left; reflexivity ].
  - apply notThrowing_throwingInv; assumption.
Qed.

Lemma updateAction_throwingInv (delta : R) (s : State) (k : AnimState) :
  throwingInv s -> throwingInv (updateAction delta s k).
Proof.
  intros H. unfold updateAction.
  destruct (action s k) as [a |]; [ | exact H ].
  destruct (negb (enabled a)); [ exact H | ].
  cbv zeta.
  eapply sameControl_throwingInv; [ apply onAction_sameControl | ].
  match goal with |- throwingInv (if ?c then _ else _) => destruct c end;
    [ | exact H ].
  destruct (updateTime _ a) as [a' finished].
  assert (H' : throwingInv (setAction k a' s))
    by (apply (sameControl_throwingInv s); [ same | exact H ]).
  destruct finished; [ apply dispatchFinished_throwingInv | ]; exact H'.
Qed.

Lemma mixerUpdate_throwingInv (delta : R) (s : State) :
  throwingInv s -> throwingInv (mixerUpdate delta s).
Proof.
  intros H. unfold mixerUpdate. cbv zeta. apply fold_left_inv.
  - intros s' k. apply updateAction_throwingInv.
  - apply (sameControl_throwingInv s); [ same | exact H ].
Qed.

Lemma newStateOf_plain (s : State) : isPlayOnce (newStateOf s) = false.
Proof.
  unfold newStateOf.
  destruct (hasBall s), (key s "shift"), (key s "z"), (key s "s"),
    (key s "q"), (key s "d"); reflexivity.
Qed.

Lemma updateCameraPosition_throwingInv (s : State) :
  throwingInv s -> throwingInv (updateCameraPosition s).
Proof.
  destruct (updateCameraPosition_eq s) as [a ->].
  apply sameControl_throwingInv. same.
Qed.

(** Playing a looping clip and recording it as the current state, outside
    a throw *)
Lemma play_plain_notThrowing (state : AnimState) (s : State) :
  isPlayOnce state = false -> freshIds s -> isThrowingBall s = false ->
  throwingInv (set_currentState state (playAnimation state s)).
Proof.
  intros Hstate Hf Ht.
  destruct (playAnimation_plain state s Hstate) as (A1 & A2 & A3 & A4 & A5).
  apply notThrowing_throwingInv.
  - unfold freshIds. simpl. rewrite A4, A5. exact Hf.
  - simpl. rewrite A1. exact Ht.
Qed.

Lemma handleMovement_throwingInv (delta : R) (s : State) :
  throwingInv s -> throwingInv (handleMovement delta s).
Proof.
  intros H. unfold handleMovement.
  destruct (avatar s) as [av |]; [ | exact H ].
  destruct (isTransitioning s) eqn:Htr; [ exact H | ].
  assert (Ht : isThrowingBall s = false).
  { destruct H as [_ Hi]. destruct (isThrowingBall s); [ | reflexivity ].
    destruct (Hi eq_refl) as [Hx _]. congruence. }
  destruct H as [Hf Hi].
  cbv zeta. apply updateCameraPosition_throwingInv.
  destruct (Rgtb (vlength (moveDirOf s)) 0).
  - match goal with
    | |- throwingInv (if _ then set_currentState ?n (playAnimation ?n ?x) else ?x) =>
        assert (Hx : freshIds x /\ isThrowingBall x = false)
    end.
    { match goal with |- context [if ?c then _ else _] => destruct c end;
        split; assumption. }
    destruct Hx as [Hxf Hxt].
    match goal with |- throwingInv (if ?c then _ else _) => destruct c end.
    + apply play_plain_notThrowing; [ apply newStateOf_plain | | ]; assumption.
    + apply notThrowing_throwingInv; assumption.
  - match goal with |- throwingInv (if ?c then _ else _) => destruct c end.
    + apply play_plain_notThrowing; [ destruct (hasBall s); reflexivity | | ];
        assumption.
    + apply notThrowing_throwingInv; assumption.
Qed.

Lemma resetBasketball_throwingInv (b : Basketball) (s : State) :
  freshIds s -> throwingInv (resetBasketball b s).
Proof. intros Hf. apply notThrowing_throwingInv; [ exact Hf | reflexivity ]. Qed.

Lemma groundCollision_sameControl (b : Basketball) (s : State) :
  sameControl s (groundCollision b s).
Proof. unfold groundCollision. split_cases; same. Qed.

Lemma updateBasketballPhysics_throwingInv (delta : R) (s : State) :
  throwingInv s -> throwingInv (updateBasketballPhysics delta s).
Proof.
  intros H. unfold updateBasketballPhysics.
  destruct (basketball s) as [b |]; [ | exact H ].
  destruct (hasBall s).
  { eapply sameControl_throwingInv;
      [ apply updateBasketballInHand_sameControl | exact H ]. }
  destruct (Rltb (vec_y (ballPosition b)) (- 10)).
  { apply resetBasketball_throwingInv. destruct H as [Hf _]. exact Hf. }
  destruct (Rgtb (vlength (ballPosition b)) 50).
  { apply resetBasketball_throwingInv. destruct H as [Hf _]. exact Hf. }
  cbv zeta.
  match goal with
  | |- context [checkBasketballCollision ?x ?y ?z] =>
      destruct (checkBasketballCollision x y z) as [hit face]
  end.
  simpl. destruct hit; [ destruct face | ];
    (eapply sameControl_throwingInv; [ apply groundCollision_sameControl | ]);
    (apply (sameControl_throwingInv s); [ same | exact H ]).
Qed.

Lemma animate_throwingInv (delta : R) (s : State) :
  throwingInv s -> throwingInv (animate delta s).
Proof.
  intros H. unfold animate. cbv zeta.
  apply updateCameraPosition_throwingInv, updateBasketballPhysics_throwingInv,
    handleMovement_throwingInv, mixerUpdate_throwingInv, H.
Qed.

Lemma playAnimation_prefix (state : AnimState) (s : State) (a : AnimationAction) :
  action s state = Some a ->
  exists s1 : State,
    sameControl s s1 /\
    playAnimation state s
    = match state with
      | standingtocrouched =>
          let s := set_isTransitioning true s1 in
          let (l, s) := bind OnCrouchFinished s in
          addEventListener l s
      | throwball =>
          let s := set_isTransitioning true s1 in
          let s := set_isThrowingBall true s in
          let (l, s) := bind OnThrowFinished s in
          addEventListener l s
      | _ => s1
      end.
Proof.
  intros Ha. unfold playAnimation. rewrite Ha. cbv zeta.
  eexists. split; [ | reflexivity ].
  eapply sameControl_trans; [ | apply play_sameControl ].
  eapply sameControl_trans; [ | apply onAction_sameControl ].
  destruct (currentAction s) as [cur |]; [ | same ].
  destruct (negb (AnimState_eqb cur state)); [ | same ].
  eapply sameControl_trans; [ apply (onAction_sameControl cur) | same ].
Qed.

Lemma fresh_not_registered (n : nat) (ls : list Listener) :
  Forall (fun l => (functionId l < n)%nat) ls ->
  existsb (fun l' => Nat.eqb (functionId l') n) ls = false.
Proof.
  induction 1 as [| l rest Hl _ IH]; simpl.
  - reflexivity.
  - rewrite IH. destruct (Nat.eqb_spec (functionId l) n); [ lia | reflexivity ].
Qed.

Lemma playAnimation_crouch_throwingInv (s : State) :
  freshIds s -> isThrowingBall s = false ->
  freshIds (playAnimation standingtocrouched s) /\
  isThrowingBall (playAnimation standingtocrouched s) = false.
Proof.
  intros Hf Ht.
  destruct (action s standingtocrouched) as [a |] eqn:Ha.
  - destruct (playAnimation_prefix standingtocrouched s a Ha)
      as (s1 & (A1 & A2 & A3 & A4 & A5) & ->).
    cbv zeta. unfold bind, addEventListener. cbn [functionId listeners
      set_nextFunctionId set_isTransitioning nextFunctionId].
    rewrite fresh_not_registered by (rewrite A4, A5; exact Hf).
    split.
    + unfold freshIds. simpl. rewrite A4, A5. apply Forall_app. split.
      * apply freshIds_after_bind, Hf.
      * constructor; [ simpl; lia | constructor ].
    + simpl. rewrite A1. exact Ht.
  - unfold playAnimation. rewrite Ha. split; assumption.
Qed.

Lemma playAnimation_throw_throwingInv (s : State) :
  freshIds s -> isThrowingBall s = false ->
  throwingInv (set_currentState throwball (playAnimation throwball s)).
Proof.
  intros Hf Ht.
  destruct (action s throwball) as [a |] eqn:Ha.
  - destruct (playAnimation_prefix throwball s a Ha)
      as (s1 & (A1 & A2 & A3 & A4 & A5) & ->).
    cbv zeta. unfold bind, addEventListener. cbn [functionId listeners
      set_nextFunctionId set_isTransitioning set_isThrowingBall nextFunctionId].
    rewrite fresh_not_registered by (rewrite A4, A5; exact Hf).
    split.
    + unfold freshIds. simpl. rewrite A4, A5. apply Forall_app. split.
      * apply freshIds_after_bind, Hf.
      * constructor; [ simpl; lia | constructor ].
    + intros _. cbn [isTransitioning currentState listeners set_currentState
        set_listeners]. repeat split.
      rewrite existsb_app. simpl. apply orb_true_r.
  - unfold playAnimation. rewrite Ha.
    apply notThrowing_throwingInv; assumption.
Qed.

Lemma throwingInv_idle (s : State) :
  throwingInv s -> isTransitioning s = false -> isThrowingBall s = false.
Proof.
  intros [_ Hi] Htr. destruct (isThrowingBall s); [ | reflexivity ].
  destruct (Hi eq_refl) as [Hx _]. congruence.
Qed.

Lemma onKeyDown_throwingInv (name : string) (s : State) :
  throwingInv s -> throwingInv (onKeyDown name s).
Proof.
  intros H. unfold onKeyDown. cbv zeta.
  assert (Hk : throwingInv (setKey name true s))
    by (apply (sameControl_throwingInv s); [ same | exact H ]).
  match goal with |- throwingInv (if ?c then _ else _) => destruct c eqn:Hpick end.
  - assert (Htr : isTransitioning s = false).
    { apply andb_prop in Hpick. destruct Hpick as [Hpick _].
      apply andb_prop in Hpick. destruct Hpick as [_ Hpick].
      simpl in Hpick. destruct (isTransitioning s); [ discriminate | reflexivity ]. }
    pose proof (throwingInv_idle _ H Htr) as Ht. destruct H as [Hf _].
    match goal with
    | |- throwingInv (set_currentState _ (playAnimation _ ?x)) =>
        destruct (playAnimation_crouch_throwingInv x Hf Ht) as [Hf' Ht']
    end.
    apply notThrowing_throwingInv; assumption.
  - match goal with |- throwingInv (if ?c then _ else _) => destruct c eqn:Hthrow end;
      [ | exact Hk ].
    assert (Htr : isTransitioning s = false).
    { apply andb_prop in Hthrow. destruct Hthrow as [_ Hthrow].
      simpl in Hthrow. destruct (isTransitioning s); [ discriminate | reflexivity ]. }
    pose proof (throwingInv_idle _ H Htr) as Ht. destruct H as [Hf _].
    apply playAnimation_throw_throwingInv; assumption.
Qed.

Lemma step_throwingInv (e : Event) (s : State) :
  throwingInv s -> throwingInv (step e s).
Proof.
  intros H. destruct e; simpl.
  - apply animate_throwingInv, H.
  - apply onKeyDown_throwingInv, H.
  - apply (sameControl_throwingInv s); [ same | exact H ].
  - apply (sameControl_throwingInv s); [ same | exact H ].
Qed.

Lemma initialState_throwingInv clips boxes names :
  throwingInv (initialState clips boxes names).
Proof.
  unfold initialState.
  match goal with
  | |- throwingInv (playAnimation idle ?x) =>
      apply (sameControl_throwingInv x);
        [ apply playAnimation_plain; reflexivity | ]
  end.
  apply notThrowing_throwingInv; [ constructor | reflexivity ].
Qed.

Lemma reachable_throwingInv clips boxes names (s : State) :
  reachable clips boxes names s -> throwingInv s.
Proof.
  induction 1 as [| s e _ IH _].
  - apply initialState_throwingInv.
  - apply step_throwingInv, IH.
Qed.


(** ** The play-through, event by event *)

Ltac fields :=
  repeat match goal with
  | |- mkState _ _ _ _ _ _ _ _ _ _ _ _ _ _ _ _ _ _ _ _
       = mkState _ _ _ _ _ _ _ _ _ _ _ _ _ _ _ _ _ _ _ _ => f_equal
  | |- Some _ = Some _ => f_equal
  | |- cons _ _ = cons _ _ => f_equal
  | |- pair _ _ = pair _ _ => f_equal
  | |- mkAction _ _ _ _ _ _ _ = mkAction _ _ _ _ _ _ _ => f_equal
  | |- mkAvatar _ _ = mkAvatar _ _ => f_equal
  | |- mkBasketball _ _ = mkBasketball _ _ => f_equal
  | |- vec3 _ _ _ = vec3 _ _ _ => f_equal
  | |- mkListener _ _ = mkListener _ _ => f_equal
  end; try reflexivity; try lra.

(** Two closed states are equal when their fields are, numbers compared
    by [lra] *)
Ltac state_eq :=
  cbv -[Rplus Rminus Rmult Rdiv Ropp Rinv IZR sqrt sin cos PI atan Rabs Rpower
        Rmin Rlt Rle];
  fields.

Lemma handleMovement_locked (delta : R) (s : State) :
  isTransitioning s = true -> handleMovement delta s = s.
Proof.
  intros H. unfold handleMovement. rewrite H. destruct (avatar s); reflexivity.
Qed.

Lemma updateCameraPosition_no_arrows (s : State) :
  key s "arrowleft" = false -> key s "arrowright" = false ->
  updateCameraPosition s = s.
Proof.
  intros Hl Hr. unfold updateCameraPosition. rewrite Hl, Hr.
  destruct (avatar s); reflexivity.
Qed.

Lemma st0_eq : initialState demoClips [] [] = st0.
Proof. state_eq. Qed.

Lemma st1_eq : step (KeyDown "d") st0 = st1.
Proof. reflexivity. Qed.

Lemma st1m_eq : mixerUpdate 1 st1 = st1m.
Proof.
  unfold mixerUpdate. simpl. unfold updateAction. simpl.
  Rdecide. simpl. unfold updateTime. simpl. Rdecide. simpl.
  unfold onAction. simpl. unfold updateWeight. simpl. Rdecide. simpl.
  state_eq.
Qed.

Lemma st1h_eq : handleMovement 1 st1m = st1h.
Proof.
  unfold handleMovement. simpl.
  unfold moveDirOf, newStateOf, currentSpeed. simpl.
  unfold cameraRight, cameraForward. simpl. rewrite ?cos_0, ?sin_0.
  unfold vadd, vzero, vlength. simpl.
  replace ((0 + 1) * (0 + 1) + (0 + 0) * (0 + 0) + (0 + - 0) * (0 + - 0))
    with 1 by lra.
  unfold normalize, divideScalar, multiplyScalar, vlength. simpl.
  replace ((0 + 1) * (0 + 1) + (0 + 0) * (0 + 0) + (0 + - 0) * (0 + - 0))
    with 1 by lra.
  rewrite sqrt_1. Rdecide. simpl.
  unfold atan2. Rdecide.
  unfold playAnimation. simpl. unfold onAction. simpl. unfold play. simpl.
  unfold updateCameraPosition. simpl.
  state_eq.
Qed.

Lemma st2_physics : updateBasketballPhysics 1 st1h = st2.
Proof.
  rewrite (free_flight_no_hit 1 st1h (mkBasketball (vec3 3 (- (12 / 10)) 0) true)).
  - unfold freeFlightNoHit, groundCollision, gravityVelocity, candidatePosition,
      vadd, gravity, groundY, basketballRadius, bounceReduction. simpl.
    Rdecide. simpl.
    rewrite (Rltb_intro_true (1 / 10)) by (rewrite Rabs_left; lra).
    state_eq.
  - reflexivity.
  - reflexivity.
  - simpl. lra.
  - unfold vlength. simpl. apply sqrt_le_bound; lra.
  - reflexivity.
Qed.

Lemma st2_eq : step (Frame 1) st1 = st2.
Proof.
  unfold step, animate. cbv zeta.
  rewrite st1m_eq, st1h_eq, st2_physics.
  apply updateCameraPosition_no_arrows; reflexivity.
Qed.

Lemma st3_eq : step (KeyUp "d") st2 = st3.
Proof. reflexivity. Qed.

Lemma st4_eq : step (KeyDown "e") st3 = st4.
Proof.
  unfold step, onKeyDown. simpl.
  unfold canPickupBall. simpl. unfold distanceTo, vsub, vlength, pickupDistance. simpl.
  rewrite Rleb_intro_true by (apply sqrt_le_bound; lra).
  simpl.
  unfold playAnimation. simpl. unfold onAction. simpl. unfold play. simpl.
  state_eq.
Qed.

(** ** How one action is advanced by [mixer.update] *)

Lemma action_setAction_same (k : AnimState) (a a' : AnimationAction) (s : State) :
  action s k = Some a -> action (setAction k a' s) k = Some a'.
Proof. unfold action, setAction. simpl. apply lookupAction_map_same. Qed.

Lemma onAction_eq (k : AnimState) (f : AnimationAction -> AnimationAction)
      (s : State) (a : AnimationAction) :
  action s k = Some a -> onAction k f s = setAction k (f a) s.
Proof. intros H. unfold onAction. rewrite H. reflexivity. Qed.

Lemma updateWeight_idle (now : R) (a : AnimationAction) :
  fading a = None -> updateWeight now a = a.
Proof. intros H. unfold updateWeight. rewrite H. destruct (enabled a); reflexivity. Qed.

Lemma updateWeight_pending (now : R) (a : AnimationAction) (kind : FadeKind) (e : R) :
  fading a = Some (kind, e) -> now <= e -> updateWeight now a = a.
Proof.
  intros H Hle. unfold updateWeight, Rgtb. rewrite H.
  rewrite Rltb_intro_false by exact Hle. destruct (enabled a); reflexivity.
Qed.

Lemma updateWeight_expired (now : R) (a : AnimationAction) (kind : FadeKind) (e : R) :
  enabled a = true -> fading a = Some (kind, e) -> e < now ->
  updateWeight now a
  = mkAction (time a) (clipDuration a) (loop a) (clampWhenFinished a) (paused a)
             (match kind with FadeOut => false | FadeIn => true end) None.
Proof.
  intros He H Hlt. unfold updateWeight, Rgtb. rewrite He, H.
  rewrite Rltb_intro_true by exact Hlt. destruct kind; reflexivity.
Qed.

Lemma updateAction_disabled (delta : R) (s : State) (k : AnimState)
      (a : AnimationAction) :
  action s k = Some a -> enabled a = false -> updateAction delta s k = s.
Proof. intros Ha He. unfold updateAction. rewrite Ha, He. reflexivity. Qed.

Lemma updateAction_paused (delta : R) (s : State) (k : AnimState)
      (a : AnimationAction) :
  action s k = Some a -> enabled a = true -> paused a = true ->
  updateAction delta s k = setAction k (updateWeight (mixerTime s) a) s.
Proof.
  intros Ha He Hp. unfold updateAction. rewrite Ha, He, Hp. simpl negb. cbv iota.
  rewrite Rltb_intro_false by lra. simpl orb. cbv iota zeta.
  apply onAction_eq. exact Ha.
Qed.

Lemma updateAction_advance (delta : R) (s : State) (k : AnimState)
      (a : AnimationAction) :
  action s k = Some a -> enabled a = true -> paused a = false ->
  0 < delta -> 0 <= time a + delta < clipDuration a ->
  updateAction delta s k
  = setAction k
      (updateWeight (mixerTime s)
         (mkAction (time a + delta) (clipDuration a) (loop a) (clampWhenFinished a)
                   false true (fading a)))
      (setAction k
         (mkAction (time a + delta) (clipDuration a) (loop a) (clampWhenFinished a)
                   false true (fading a)) s).
Proof.
  intros Ha He Hp Hd Ht. unfold updateAction. rewrite Ha, He, Hp. simpl negb.
  cbv iota. rewrite (Rltb_intro_true 0 delta) by exact Hd.
  rewrite orb_true_r. cbv iota zeta.
  unfold updateTime, Rgeb. rewrite Hp, He.
  rewrite Rleb_intro_false by lra. rewrite Rltb_intro_false by lra. simpl orb.
  destruct (loop a) eqn:Hl; cbv iota;
    (erewrite onAction_eq;
       [ reflexivity | apply action_setAction_same with (a := a); exact Ha ]).
Qed.

Lemma updateAction_finished (delta : R) (s : State) (k : AnimState)
      (a : AnimationAction) :
  action s k = Some a -> enabled a = true -> paused a = false ->
  loop a = LoopOnce -> clampWhenFinished a = true ->
  0 < delta -> clipDuration a <= time a + delta ->
  updateAction delta s k
  = onAction k
      (updateWeight
         (mixerTime
            (dispatchFinished
               (setAction k
                  (mkAction (clipDuration a) (clipDuration a) LoopOnce true true true
                            (fading a)) s))))
      (dispatchFinished
         (setAction k
            (mkAction (clipDuration a) (clipDuration a) LoopOnce true true true
                      (fading a)) s)).
Proof.
  intros Ha He Hp Hl Hc Hd Ht. unfold updateAction. rewrite Ha, He, Hp. simpl negb.
  cbv iota. rewrite (Rltb_intro_true 0 delta) by exact Hd.
  rewrite orb_true_r. cbv iota zeta.
  unfold updateTime, Rgeb. rewrite Hl, Hc, He.
  rewrite Rleb_intro_true by lra. simpl orb. cbv iota.
  reflexivity.
Qed.

(** ** How the held ball is placed or released *)

Lemma hand_following (s : State) (b : Basketball) (av : Avatar) :
  basketball s = Some b -> avatar s = Some av ->
  hasBall s = true -> ballWasThrown s = false ->
  (isThrowingBall s = false -> vlength (basketballVelocity s) <= 1 / 10) ->
  (forall cur a, isThrowingBall s = true -> currentAction s = Some cur ->
                 action s cur = Some a -> progressOf a <= 6 / 10) ->
  updateBasketballInHand s = placeBallInHand (handOffsetOf s) b av s.
Proof.
  intros Hb Ha Hh Hw Hv Hp.
  unfold updateBasketballInHand, handOffsetOf. rewrite Hb, Ha, Hh, Hw.
  simpl negb. cbv iota.
  destruct (isThrowingBall s) eqn:Ht.
  - simpl negb. simpl andb. cbv iota.
    destruct (currentAction s) as [cur |] eqn:Hcur; [ | reflexivity ].
    destruct (action s cur) as [a |] eqn:Hact; [ | reflexivity ].
    cbv zeta. rewrite Rleb_intro_true by (apply (Hp cur a); auto).
    reflexivity.
  - simpl negb. unfold Rgtb. rewrite Rltb_intro_false by auto.
    reflexivity.
Qed.

Lemma hand_release (s : State) (b : Basketball) (av : Avatar) (cur : AnimState)
      (a : AnimationAction) :
  basketball s = Some b -> avatar s = Some av ->
  hasBall s = true -> ballWasThrown s = false -> isThrowingBall s = true ->
  currentAction s = Some cur -> action s cur = Some a ->
  6 / 10 < progressOf a ->
  updateBasketballInHand s
  = throwBasketball (set_hasBall false (log LogReleasing s)).
Proof.
  intros Hb Ha Hh Hw Ht Hcur Hact Hp.
  unfold updateBasketballInHand. rewrite Hb, Ha, Hh, Hw, Ht, Hcur, Hact.
  simpl negb. simpl andb. cbv iota zeta.
  rewrite Rleb_intro_false by exact Hp. reflexivity.
Qed.

Lemma physics_held (delta : R) (s : State) (b : Basketball) :
  basketball s = Some b -> hasBall s = true ->
  updateBasketballPhysics delta s = updateBasketballInHand s.
Proof. intros Hb Hh. unfold updateBasketballPhysics. rewrite Hb, Hh. reflexivity. Qed.

(** ** Tactics that run the component on a closed state *)

Ltac rcbv :=
  cbv -[Rplus Rminus Rmult Rdiv Ropp Rinv IZR sqrt sin cos PI atan Rabs Rpower
        Rmin Rlt Rle Rgt Rge].

Ltac rvalue t :=
  eval cbv -[Rplus Rminus Rmult Rdiv Ropp Rinv IZR sqrt sin cos PI atan Rabs
             Rpower Rmin Rlt Rle Rgt Rge] in t.

Ltac side := rcbv; first [ reflexivity | lra ].

(** The fade of the action just advanced *)
Ltac weight :=
  match goal with
  | |- context [updateWeight ?now ?a] =>
      first [ rewrite (updateWeight_idle now a) by reflexivity
            | erewrite (updateWeight_pending now a) by side
            | erewrite (updateWeight_expired now a) by side ]
  end.

(** The innermost pending [updateAction] *)
Ltac step_action :=
  match goal with
  | |- context [updateAction ?d ?s ?k] =>
      lazymatch s with
      | context [updateAction] => fail
      | _ =>
          let oa := rvalue (action s k) in
          lazymatch oa with
          | Some ?a =>
              first [ rewrite (updateAction_disabled d s k a) by reflexivity
                    | rewrite (updateAction_paused d s k a) by reflexivity; weight
                    | rewrite (updateAction_advance d s k a) by side; weight
                    | rewrite (updateAction_finished d s k a) by side ]
          end
      end
  end.

Ltac tidy :=
  cbn [time clipDuration loop clampWhenFinished paused enabled fading].

Ltac start_mixer :=
  unfold mixerUpdate; cbv zeta;
  match goal with
  | |- context [fold_left (updateAction ?d) (activeActions ?s) ?s] =>
      let l := rvalue (activeActions s) in
      change (activeActions s) with l
  end;
  cbn [fold_left].

(** A finished clip: the listeners are called in turn *)
Ltac dispatch :=
  match goal with
  | |- context [dispatchFinished ?x] =>
      let ls := rvalue (listeners x) in
      change (dispatchFinished x)
        with (fold_left (fun s l => call (handler l) s) ls x);
      cbn [fold_left call handler]
  end.

(** The fade of the finished action, once the listeners have run *)
Ltac finish_action :=
  match goal with
  | |- context [onAction ?k (updateWeight ?now) ?d] =>
      let oa := rvalue (action d k) in
      lazymatch oa with
      | Some ?a => rewrite (onAction_eq k (updateWeight now) d a) by side
      end
  end;
  weight; tidy.

Ltac state_eq' :=
  rcbv; rewrite ?cos_PI2, ?sin_PI2; fields.

(** ** The handlers, unfolded *)

Lemma onCrouchFinished_unfold (s : State) (b : Basketball) (av : Avatar) :
  basketball s = Some b -> avatar s = Some av ->
  onCrouchFinished s
  = log LogPickupCompleted
      (set_currentState holdingball
         (playAnimation holdingball
            (updateBasketballInHand (afterCrouchFlags s b)))).
Proof.
  intros Hb Ha. unfold onCrouchFinished, bind. cbv beta iota zeta.
  unfold attachBasketballToHand.
  cbn [basketball avatar set_ballWasThrown set_isTransitioning set_hasBall
       set_isCrouched removeEventListener set_listeners set_nextFunctionId].
  rewrite Hb, Ha. reflexivity.
Qed.

(** ** The play-through, continued: the crouch completes *)

Lemma vlength_vzero_small : vlength (vec3 0 0 0) <= 1 / 10.
Proof. unfold vlength. simpl. apply sqrt_le_bound; lra. Qed.

Lemma handleMovement_still (delta : R) (s : State) (av : Avatar) :
  avatar s = Some av -> isTransitioning s = false ->
  moveDirOf s = vzero ->
  currentState s = (if hasBall s then holdingball else idle) ->
  key s "arrowleft" = false -> key s "arrowright" = false ->
  handleMovement delta s = s.
Proof.
  intros Ha Ht Hm Hc Hl Hr. unfold handleMovement. rewrite Ha, Ht, Hm.
  cbv zeta. unfold Rgtb.
  rewrite Rltb_intro_false
    by (unfold vlength, vzero; simpl; apply sqrt_le_bound; lra).
  rewrite Hc, AnimState_eqb_refl. simpl negb. cbv iota.
  apply updateCameraPosition_no_arrows; assumption.
Qed.

Lemma st4m_eq : mixerUpdate 1 st4 = st4m.
Proof.
  start_mixer.
  step_action; tidy. step_action; tidy. step_action; tidy.
  dispatch.
  match goal with
  | |- context [onCrouchFinished ?x] =>
      rewrite (onCrouchFinished_unfold x
                 (mkBasketball (vec3 3 (- (138 / 100)) 0) true)
                 (mkAvatar (vec3 2 (- (15 / 10)) 0) (PI / 2)))
        by (rcbv; reflexivity)
  end.
  match goal with
  | |- context [updateBasketballInHand ?x] =>
      rewrite (hand_following x
                 (mkBasketball (vec3 3 (- (138 / 100)) 0) true)
                 (mkAvatar (vec3 2 (- (15 / 10)) 0) (PI / 2)))
  end.
  - finish_action. state_eq'.
  - rcbv; reflexivity.
  - rcbv; reflexivity.
  - rcbv; reflexivity.
  - rcbv; reflexivity.
  - intros _. apply vlength_vzero_small.
  - intros cur a Ht. exfalso. revert Ht. rcbv. discriminate.
Qed.

Lemma st5_physics : updateBasketballPhysics 1 st4m = st5.
Proof.
  rewrite (physics_held 1 st4m (mkBasketball (vec3 (24 / 10) (- (5 / 10)) 0) true))
    by (rcbv; reflexivity).
  rewrite (hand_following st4m
             (mkBasketball (vec3 (24 / 10) (- (5 / 10)) 0) true)
             (mkAvatar (vec3 2 (- (15 / 10)) 0) (PI / 2))).
  - state_eq'.
  - rcbv; reflexivity.
  - rcbv; reflexivity.
  - rcbv; reflexivity.
  - rcbv; reflexivity.
  - intros _. apply vlength_vzero_small.
  - intros cur a Ht. exfalso. revert Ht. rcbv. discriminate.
Qed.

Lemma st5_eq : step (Frame 1) st4 = st5.
Proof.
  unfold step, animate. cbv zeta. rewrite st4m_eq.
  rewrite (handleMovement_still 1 st4m (mkAvatar (vec3 2 (- (15 / 10)) 0) (PI / 2)))
    by (rcbv; reflexivity).
  rewrite st5_physics.
  apply updateCameraPosition_no_arrows; rcbv; reflexivity.
Qed.

Lemma st6_eq : step (KeyDown "r") st5 = st6.
Proof. state_eq. Qed.

(** ** The play-through, continued: the throw *)

Lemma st6m_eq : mixerUpdate (6 / 10) st6 = st6m.
Proof.
  start_mixer.
  step_action; tidy. step_action; tidy. step_action; tidy.
  step_action; tidy. step_action; tidy.
  state_eq.
Qed.

Lemma throwOffset_hold (p : R) :
  55 / 100 < p ->
  throwOffset p
  = vec3 0 (1 + 7 / 10)
         (4 / 10 + (5 / 100 - (p - 55 / 100) / (25 / 100) * (3 / 10))).
Proof.
  intros Hp. unfold throwOffset.
  rewrite Rleb_intro_false by lra. rewrite Rleb_intro_false by lra.
  reflexivity.
Qed.

Lemma handOffsetOf_throwing (s : State) (cur : AnimState) (a : AnimationAction) :
  isThrowingBall s = true -> currentAction s = Some cur ->
  action s cur = Some a -> handOffsetOf s = throwOffset (progressOf a).
Proof. intros Ht Hc Ha. unfold handOffsetOf. rewrite Ht, Hc, Ha. reflexivity. Qed.

Lemma progressOf_below (a : AnimationAction) :
  clipDuration a = 1 -> time a <= 1 -> progressOf a = time a.
Proof.
  intros Hd Ht. unfold progressOf. rewrite Hd.
  rewrite Rmin_left by lra. lra.
Qed.

Lemma st7_physics : updateBasketballPhysics (6 / 10) st6m = st7.
Proof.
  rewrite (physics_held (6 / 10) st6m
             (mkBasketball (vec3 (24 / 10) (- (5 / 10)) 0) true))
    by (rcbv; reflexivity).
  rewrite (hand_following st6m
             (mkBasketball (vec3 (24 / 10) (- (5 / 10)) 0) true)
             (mkAvatar (vec3 2 (- (15 / 10)) 0) (PI / 2))).
  - rewrite (handOffsetOf_throwing st6m throwball
               (mkAction (6 / 10) 1 LoopOnce true false true None))
      by (rcbv; reflexivity).
    rewrite progressOf_below by (simpl; lra).
    rewrite throwOffset_hold by (simpl; lra).
    state_eq'.
  - rcbv; reflexivity.
  - rcbv; reflexivity.
  - rcbv; reflexivity.
  - rcbv; reflexivity.
  - intros Ht. exfalso. revert Ht. rcbv. discriminate.
  - intros cur a _ Hc Ha.
    assert (Hcur : cur = throwball)
      by (revert Hc; rcbv; intros Hc; injection Hc; auto).
    subst cur.
    assert (Hact : a = mkAction (6 / 10) 1 LoopOnce true false true None)
      by (revert Ha; rcbv; intros Ha; injection Ha; auto).
    subst a. rewrite progressOf_below by (simpl; lra). simpl. lra.
Qed.

Lemma st7_eq : step (Frame (6 / 10)) st6 = st7.
Proof.
  unfold step, animate. cbv zeta. rewrite st6m_eq.
  rewrite handleMovement_locked by (rcbv; reflexivity).
  rewrite st7_physics.
  apply updateCameraPosition_no_arrows; rcbv; reflexivity.
Qed.

Lemma st7m_eq : mixerUpdate (1 / 10) st7 = st7m.
Proof.
  start_mixer.
  step_action; tidy. step_action; tidy. step_action; tidy.
  step_action; tidy. step_action; tidy.
  state_eq.
Qed.

Lemma st8_physics : updateBasketballPhysics (1 / 10) st7m = st8.
Proof.
  rewrite (physics_held (1 / 10) st7m
             (mkBasketball (vec3 (239 / 100) (2 / 10) 0) true))
    by (rcbv; reflexivity).
  rewrite (hand_release st7m
             (mkBasketball (vec3 (239 / 100) (2 / 10) 0) true)
             (mkAvatar (vec3 2 (- (15 / 10)) 0) (PI / 2))
             throwball (mkAction (7 / 10) 1 LoopOnce true false true None)).
  - state_eq'.
  - rcbv; reflexivity.
  - rcbv; reflexivity.
  - rcbv; reflexivity.
  - rcbv; reflexivity.
  - rcbv; reflexivity.
  - rcbv; reflexivity.
  - rcbv; reflexivity.
  - rewrite progressOf_below by (simpl; lra). simpl. lra.
Qed.

Lemma st8_eq : step (Frame (1 / 10)) st7 = st8.
Proof.
  unfold step, animate. cbv zeta. rewrite st7m_eq.
  rewrite handleMovement_locked by (rcbv; reflexivity).
  rewrite st8_physics.
  apply updateCameraPosition_no_arrows; rcbv; reflexivity.
Qed.

Lemma st8m_eq : mixerUpdate (1 / 10) st8 = st8m.
Proof.
  start_mixer.
  step_action; tidy. step_action; tidy. step_action; tidy.
  step_action; tidy. step_action; tidy.
  state_eq.
Qed.

Lemma st9_physics : updateBasketballPhysics (1 / 10) st8m = st9.
Proof.
  rewrite (free_flight_no_hit (1 / 10) st8m
             (mkBasketball (vec3 (239 / 100) (2 / 10) 0) true)).
  - unfold freeFlightNoHit, groundCollision, gravityVelocity, candidatePosition,
      vadd, gravity, groundY, basketballRadius. simpl.
    Rdecide. state_eq.
  - rcbv; reflexivity.
  - rcbv; reflexivity.
  - simpl. lra.
  - unfold vlength. simpl. apply sqrt_le_bound; lra.
  - reflexivity.
Qed.

Lemma st9_eq : step (Frame (1 / 10)) st8 = st9.
Proof.
  unfold step, animate. cbv zeta. rewrite st8m_eq.
  rewrite handleMovement_locked by (rcbv; reflexivity).
  rewrite st9_physics.
  apply updateCameraPosition_no_arrows; rcbv; reflexivity.
Qed.

(** The throw clip ends.  The handler registered for the crouch is still in
    the list and runs first: it marks the ball held again, and
    [updateBasketballInHand], finding the throw clip at its end, releases it
    a second time. *)
Lemma st9m_eq : mixerUpdate (1 / 2) st9 = st9m.
Proof.
  start_mixer.
  step_action; tidy. step_action; tidy. step_action; tidy.
  step_action; tidy. step_action; tidy.
  dispatch.
  match goal with
  | |- context [onCrouchFinished ?x] =>
      rewrite (onCrouchFinished_unfold x
                 (mkBasketball (vec3 (319 / 100) (7019 / 10000) 0) true)
                 (mkAvatar (vec3 2 (- (15 / 10)) 0) (PI / 2)))
        by (rcbv; reflexivity)
  end.
  match goal with
  | |- context [updateBasketballInHand ?x] =>
      rewrite (hand_release x
                 (mkBasketball (vec3 (319 / 100) (7019 / 10000) 0) true)
                 (mkAvatar (vec3 2 (- (15 / 10)) 0) (PI / 2))
                 throwball
                 (mkAction 1 1 LoopOnce true true true None))
  end.
  - finish_action. state_eq'.
  - rcbv; reflexivity.
  - rcbv; reflexivity.
  - rcbv; reflexivity.
  - rcbv; reflexivity.
  - rcbv; reflexivity.
  - rcbv; reflexivity.
  - rcbv; reflexivity.
  - rewrite progressOf_below by (simpl; lra). simpl. lra.
Qed.

Lemma st10_physics : updateBasketballPhysics (1 / 2) st9m = st10.
Proof.
  rewrite (free_flight_no_hit (1 / 2) st9m
             (mkBasketball (vec3 (319 / 100) (7019 / 10000) 0) true)).
  - unfold freeFlightNoHit, groundCollision, gravityVelocity, candidatePosition,
      vadd, gravity, groundY, basketballRadius. simpl.
    Rdecide. state_eq.
  - rcbv; reflexivity.
  - rcbv; reflexivity.
  - simpl. lra.
  - unfold vlength. simpl. apply sqrt_le_bound; lra.
  - reflexivity.
Qed.

Lemma st10_eq : step (Frame (1 / 2)) st9 = st10.
Proof.
  unfold step, animate. cbv zeta. rewrite st9m_eq.
  rewrite (handleMovement_still (1 / 2) st9m
             (mkAvatar (vec3 2 (- (15 / 10)) 0) (PI / 2)))
    by (rcbv; reflexivity).
  rewrite st10_physics.
  apply updateCameraPosition_no_arrows; rcbv; reflexivity.
Qed.

(** ** What the play-through shows *)

Lemma reachable_run clips boxes names (es : list Event) :
  Forall validEvent es ->
  forall s, reachable clips boxes names s -> reachable clips boxes names (run es s).
Proof.
  induction 1 as [| e rest He _ IH]; intros s Hs.
  - exact Hs.
  - apply IH. apply reachable_step; assumption.
Qed.

Lemma run_to_st6 : run (firstn 6 playThrough) (initialState demoClips [] []) = st6.
Proof.
  rewrite st0_eq. unfold playThrough, run. cbn [firstn fold_left].
  rewrite st1_eq, st2_eq, st3_eq, st4_eq, st5_eq, st6_eq. reflexivity.
Qed.

Lemma run_to_st7 : run (firstn 7 playThrough) (initialState demoClips [] []) = st7.
Proof.
  rewrite st0_eq. unfold playThrough, run. cbn [firstn fold_left].
  rewrite st1_eq, st2_eq, st3_eq, st4_eq, st5_eq, st6_eq, st7_eq. reflexivity.
Qed.

Lemma run_to_st9 : run (firstn 9 playThrough) (initialState demoClips [] []) = st9.
Proof.
  rewrite st0_eq. unfold playThrough, run. cbn [firstn fold_left].
  rewrite st1_eq, st2_eq, st3_eq, st4_eq, st5_eq, st6_eq, st7_eq, st8_eq, st9_eq.
  reflexivity.
Qed.

Lemma run_playThrough : run playThrough (initialState demoClips [] []) = st10.
Proof.
  rewrite st0_eq. unfold playThrough, run. cbn [fold_left].
  rewrite st1_eq, st2_eq, st3_eq, st4_eq, st5_eq, st6_eq, st7_eq, st8_eq, st9_eq,
    st10_eq.
  reflexivity.
Qed.

Lemma playThrough_valid : Forall validEvent playThrough.
Proof. unfold playThrough. repeat constructor; simpl; lra. Qed.

Lemma Forall_firstn {A : Type} (P : A -> Prop) (n : nat) (l : list A) :
  Forall P l -> Forall P (firstn n l).
Proof.
  revert l. induction n as [| n IH]; intros l H; simpl.
  - constructor.
  - destruct H; constructor; auto.
Qed.

Lemma reachable_st6 : reachable demoClips [] [] st6.
Proof.
  rewrite <- run_to_st6. apply reachable_run.
  - apply Forall_firstn, playThrough_valid.
  - apply reachable_init.
Qed.

Lemma reachable_st7 : reachable demoClips [] [] st7.
Proof.
  rewrite <- run_to_st7. apply reachable_run.
  - apply Forall_firstn, playThrough_valid.
  - apply reachable_init.
Qed.

(** C1 at a failing input.  The play-through has one crouch and one throw.
    After the throw clip has ended, the handler registered for the crouch
    and the handler registered for the throw are both still registered, and
    the crouch handler has run twice: at the end of the crouch and again at
    the end of the throw. *)
Theorem crouch_handler_runs_again_at_throw_end :
  let s := run playThrough (initialState demoClips [] []) in
  listeners s = [mkListener 0 OnCrouchFinished; mkListener 2 OnThrowFinished] /\
  countLog LogPickingUp (console s) = 1%nat /\
  countLog LogStartingThrow (console s) = 1%nat /\
  countLog LogPickupCompleted (console s) = 2%nat /\
  countLog LogThrowFinished (console s) = 1%nat.
Proof.
  cbv zeta. rewrite run_playThrough. rcbv. repeat split.
Qed.

(** C2 at a failing input.  In the same play-through the single throw
    releases the ball twice: the physics tick at progress 0.7 releases it,
    and when the clip ends the crouch handler marks it held again and it is
    released anew, the throw velocity being set once more on the ball that
    was already flying. *)
Theorem one_throw_releases_twice :
  let before := run (firstn 9 playThrough) (initialState demoClips [] []) in
  let s := run playThrough (initialState demoClips [] []) in
  countLog LogStartingThrow (console s) = 1%nat /\
  countLog LogReleasing (console before) = 1%nat /\
  hasBall before = false /\
  basketballVelocity before = vec3 8 (5019 / 1000) 0 /\
  basketballVelocity (mixerUpdate (1 / 2) before) = vec3 8 6 0 /\
  countLog LogReleasing (console s) = 2%nat /\
  countLog LogThrown (console s) = 2%nat.
Proof.
  cbv zeta. rewrite run_playThrough, run_to_st9, st9m_eq. rcbv. repeat split.
Qed.



(** * Further properties of the component *)

(** ** Vectors *)

Lemma sin_cos_square (a : R) : sin a * sin a + cos a * cos a = 1.
Proof. pose proof (sin2_cos2 a) as H. unfold Rsqr in H. exact H. Qed.

Lemma vlength_nonneg (a : Vector3) : 0 <= vlength a.
Proof. unfold vlength. apply sqrt_pos. Qed.

Lemma vlength_multiplyScalar (a : Vector3) (k : R) :
  0 <= k -> vlength (multiplyScalar a k) = vlength a * k.
Proof.
  intros Hk. unfold vlength, multiplyScalar. simpl.
  replace (vec_x a * k * (vec_x a * k) + vec_y a * k * (vec_y a * k)
           + vec_z a * k * (vec_z a * k))
    with ((vec_x a * vec_x a + vec_y a * vec_y a + vec_z a * vec_z a) * (k * k))
    by ring.
  rewrite sqrt_mult_alt by nra.
  rewrite sqrt_square by exact Hk. reflexivity.
Qed.

Lemma vlength_normalize (a : Vector3) :
  0 < vlength a -> vlength (normalize a) = 1.
Proof.
  intros H. unfold normalize, divideScalar.
  rewrite Rltb_intro_true by exact H.
  rewrite vlength_multiplyScalar.
  - field. lra.
  - apply Rlt_le. unfold Rdiv. rewrite Rmult_1_l. apply Rinv_0_lt_compat. exact H.
Qed.

(** Turning a vector about the vertical axis keeps its height and its
    length *)
Lemma applyAxisAngleY_is_rotation :
  forall (a : Vector3) (angle : R),
    vec_y (applyAxisAngleY a angle) = vec_y a /\
    vlength (applyAxisAngleY a angle) = vlength a.
Proof.
  intros a angle. split; [ reflexivity | ].
  unfold vlength, applyAxisAngleY. simpl. f_equal.
  transitivity
    (vec_x a * vec_x a * (sin angle * sin angle + cos angle * cos angle)
     + vec_y a * vec_y a
     + vec_z a * vec_z a * (sin angle * sin angle + cos angle * cos angle)).
  - ring.
  - rewrite sin_cos_square. ring.
Qed.

(** ** Throwing *)

(** X1.  Whatever way the character faces, a release gives the ball a
    velocity of 8 horizontally along the character's facing direction and 6
    upwards, a speed of 10; it marks the ball thrown and keeps it where it
    is. *)
Theorem throw_velocity :
  forall (s : State) (b : Basketball) (av : Avatar),
    basketball s = Some b -> avatar s = Some av ->
    basketballVelocity (throwBasketball s)
    = vec3 (sin (rotationY av) * 8) 6 (cos (rotationY av) * 8) /\
    vlength (basketballVelocity (throwBasketball s)) = 10 /\
    ballWasThrown (throwBasketball s) = true /\
    basketball (throwBasketball s) = Some (mkBasketball (ballPosition b) true).
Proof.
  intros s b av Hb Ha. unfold throwBasketball. rewrite Hb, Ha. simpl.
  repeat split.
  unfold vlength. simpl.
  replace (sin (rotationY av) * 8 * (sin (rotationY av) * 8) + 6 * 6
           + cos (rotationY av) * 8 * (cos (rotationY av) * 8))
    with (64 * (sin (rotationY av) * sin (rotationY av)
                + cos (rotationY av) * cos (rotationY av)) + 36) by ring.
  rewrite sin_cos_square.
  replace (64 * 1 + 36) with (10 * 10) by ring.
  apply sqrt_square. lra.
Qed.

Lemma throw_velocity_witness :
  vlength (basketballVelocity (throwBasketball holdingStill)) = 10.
Proof.
  apply (throw_velocity holdingStill
           (mkBasketball (vec3 3 (- (12 / 10)) 0) true)
           (mkAvatar (vec3 0 (- (15 / 10)) 0) 0)).
  - reflexivity.
  - reflexivity.
Defined.

(** X2.  While the ball is held outside a throw (not thrown, at rest), the
    physics tick puts it one unit above the character's position and 0.4 in
    front of it, in the direction a throw would send it. *)
Theorem held_ball_is_in_front :
  forall (delta : R) (s : State) (b : Basketball) (av : Avatar),
    basketball s = Some b -> avatar s = Some av ->
    hasBall s = true -> ballWasThrown s = false -> isThrowingBall s = false ->
    vlength (basketballVelocity s) <= 1 / 10 ->
    basketball (updateBasketballPhysics delta s)
    = Some (mkBasketball
              (vadd (position av)
                    (vec3 (4 / 10 * sin (rotationY av)) 1
                          (4 / 10 * cos (rotationY av))))
              (visible b)).
Proof.
  intros delta s b av Hb Ha Hh Hw Ht Hv.
  rewrite (physics_held delta s b Hb Hh).
  rewrite (hand_following s b av Hb Ha Hh Hw).
  - unfold placeBallInHand, handOffsetOf. rewrite Ht. simpl.
    unfold applyAxisAngleY, vadd. simpl. fields; ring.
  - intros _. exact Hv.
  - intros cur a Ht'. congruence.
Qed.

Lemma held_ball_is_in_front_witness :
  basketball (updateBasketballPhysics (1 / 60) holdingStill)
  = Some (mkBasketball
            (vadd (vec3 0 (- (15 / 10)) 0)
                  (vec3 (4 / 10 * sin 0) 1 (4 / 10 * cos 0)))
            true).
Proof.
  apply (held_ball_is_in_front (1 / 60) holdingStill
           (mkBasketball (vec3 3 (- (12 / 10)) 0) true)
           (mkAvatar (vec3 0 (- (15 / 10)) 0) 0)).
  - reflexivity.
  - reflexivity.
  - reflexivity.
  - reflexivity.
  - reflexivity.
  - apply vlength_vzero_small.
Defined.

(** ** Keys *)

Lemma lookupKey_assignKey_same (name : string) (v : bool) (l : list (string * bool)) :
  lookupKey name (assignKey name v l) = v.
Proof.
  induction l as [| [n w] rest IH]; simpl.
  - rewrite String.eqb_refl. reflexivity.
  - destruct (String.eqb n name) eqn:E; simpl; rewrite E; [ reflexivity | exact IH ].
Qed.

Lemma lookupKey_assignKey_other (name other : string) (v : bool)
      (l : list (string * bool)) :
  other <> name -> lookupKey other (assignKey name v l) = lookupKey other l.
Proof.
  intros Hne. induction l as [| [n w] rest IH]; simpl.
  - destruct (String.eqb_spec name other); [ congruence | reflexivity ].
  - destruct (String.eqb n name) eqn:E; simpl.
    + apply String.eqb_eq in E. subst n.
      destruct (String.eqb_spec name other); [ congruence | reflexivity ].
    + destruct (String.eqb n other); [ reflexivity | exact IH ].
Qed.

Lemma playAnimation_keys state s : keys (playAnimation state s) = keys s.
Proof. playAnimation_cases s state. Qed.

Lemma onKeyDown_keys (name : string) (s : State) :
  keys (onKeyDown name s) = assignKey name true (keys s).
Proof.
  unfold onKeyDown. cbv zeta.
  repeat match goal with |- context [if ?c then _ else _] => destruct c end;
    cbn [keys set_currentState]; rewrite ?playAnimation_keys; reflexivity.
Qed.

(** X3.  The key table records the last event of each key: after a key-down
    the key reads pressed, after a key-up it reads released, and neither
    event changes what any other key reads, whatever else the key-down
    started. *)
Theorem key_table_records_last_event :
  forall (name other : string) (s : State),
    key (onKeyDown name s) name = true /\
    key (onKeyUp name s) name = false /\
    (other <> name ->
     key (onKeyDown name s) other = key s other /\
     key (onKeyUp name s) other = key s other).
Proof.
  intros name other s. unfold key. rewrite onKeyDown_keys.
  unfold onKeyUp, setKey. cbn [keys set_keys].
  rewrite !lookupKey_assignKey_same. repeat split;
    apply lookupKey_assignKey_other; assumption.
Qed.

(** ** Pickup and throw requests *)

(** X4.  A pickup request ([e]) made while the ball is held, during a
    transition, or with the ball out of reach, and a throw request ([r])
    made without the ball or during a transition, only record the key: no
    animation starts and no flag, velocity or listener changes.  Every other
    key is only recorded as well. *)
Theorem rejected_requests_only_record_the_key :
  forall (name : string) (s : State),
    (name = "e"%string ->
       hasBall s = true \/ isTransitioning s = true \/ canPickupBall s = false) ->
    (name = "r"%string -> hasBall s = false \/ isTransitioning s = true) ->
    onKeyDown name s = setKey name true s.
Proof.
  intros name s He Hr. unfold onKeyDown. cbv zeta.
  assert (Hcan : canPickupBall (setKey name true s) = canPickupBall s) by reflexivity.
  change (hasBall (setKey name true s)) with (hasBall s).
  change (isTransitioning (setKey name true s)) with (isTransitioning s).
  rewrite Hcan.
  destruct (String.eqb_spec name "e") as [Ee | Ee].
  - destruct (He Ee) as [H | [H | H]]; rewrite H; simpl;
      rewrite ?andb_false_r; subst name; reflexivity.
  - simpl. destruct (String.eqb_spec name "r") as [Er | Er]; [ | reflexivity ].
    destruct (Hr Er) as [H | H]; rewrite H; simpl; rewrite ?andb_false_r;
      reflexivity.
Qed.

Lemma rejected_requests_only_record_the_key_witness :
  onKeyDown "e" (initialState demoClips [] [])
  = setKey "e" true (initialState demoClips [] []).
Proof.
  apply (rejected_requests_only_record_the_key "e" (initialState demoClips [] [])).
  - intros _. right. right. unfold canPickupBall. simpl.
    apply Rleb_intro_false. unfold distanceTo, vsub, pickupDistance, vlength.
    simpl. apply sqrt_lt_bound; lra.
  - intros H. discriminate H.
Defined.

(** A started play-once clip: what [playAnimation] adds to the state the
    looping part leaves *)
Lemma playAnimation_once_control (state : AnimState) (h : Handler) (s : State)
      (a : AnimationAction) :
  (state = standingtocrouched /\ h = OnCrouchFinished \/
   state = throwball /\ h = OnThrowFinished) ->
  action s state = Some a -> freshIds s ->
  isTransitioning (playAnimation state s) = true /\
  listeners (playAnimation state s)
  = listeners s ++ [mkListener (nextFunctionId s) h] /\
  nextFunctionId (playAnimation state s) = S (nextFunctionId s) /\
  isThrowingBall (playAnimation state s)
  = (if AnimState_eqb state throwball then true else isThrowingBall s).
Proof.
  intros Hs Ha Hf.
  destruct (playAnimation_prefix state s a Ha)
    as (s1 & (A1 & A2 & A3 & A4 & A5) & ->).
  destruct Hs as [[-> ->] | [-> ->]]; cbv zeta; unfold bind, addEventListener;
    cbn [functionId listeners set_nextFunctionId set_isTransitioning
         set_isThrowingBall nextFunctionId];
    rewrite fresh_not_registered by (rewrite A4, A5; exact Hf);
    cbn [isTransitioning listeners nextFunctionId isThrowingBall set_listeners
         set_nextFunctionId set_isTransitioning set_isThrowingBall AnimState_eqb];
    rewrite ?A1, ?A4, ?A5; repeat split.
Qed.

Lemma playAnimation_currentAction (state : AnimState) (s : State)
      (a : AnimationAction) :
  action s state = Some a -> currentAction (playAnimation state s) = Some state.
Proof.
  intros Ha. unfold playAnimation. rewrite Ha. cbv zeta.
  unfold play, onAction, addEventListener, bind.
  destruct state;
    repeat match goal with
    | |- context [match ?x with _ => _ end] => destruct x eqn:?; simpl
    end; reflexivity.
Qed.

(** X5.  An accepted pickup request (ball free, no transition, ball within
    1.5 of the character, crouch clip loaded) stops the ball, starts the
    transition and registers one completion handler; the ball is not held
    yet. *)
Theorem accepted_pickup_starts_crouch :
  forall (s : State) (a : AnimationAction),
    hasBall s = false -> isTransitioning s = false -> canPickupBall s = true ->
    action s standingtocrouched = Some a -> freshIds s ->
    let s' := onKeyDown "e" s in
    basketballVelocity s' = vzero /\
    isTransitioning s' = true /\
    currentState s' = standingtocrouched /\
    currentAction s' = Some standingtocrouched /\
    hasBall s' = false /\
    listeners s' = listeners s ++ [mkListener (nextFunctionId s) OnCrouchFinished].
Proof.
  intros s a Hh Ht Hc Ha Hf s'. subst s'. unfold onKeyDown. cbv zeta.
  change (hasBall (setKey "e" true s)) with (hasBall s).
  change (isTransitioning (setKey "e" true s)) with (isTransitioning s).
  change (canPickupBall (setKey "e" true s)) with (canPickupBall s).
  rewrite Hh, Ht, Hc. simpl andb. cbv iota.
  set (s0 := set_basketballVelocity vzero (log LogPickingUp (setKey "e" true s))).
  assert (Ha0 : action s0 standingtocrouched = Some a) by exact Ha.
  assert (Hf0 : freshIds s0) by exact Hf.
  destruct (playAnimation_once_control standingtocrouched OnCrouchFinished s0 a
              (or_introl (conj eq_refl eq_refl)) Ha0 Hf0) as (B1 & B2 & B3 & B4).
  cbn [basketballVelocity isTransitioning currentState currentAction hasBall
       listeners set_currentState].
  rewrite playAnimation_basketballVelocity, playAnimation_hasBall, B1, B2.
  repeat split; try assumption.
  apply playAnimation_currentAction with (a := a). exact Ha0.
Qed.

Lemma accepted_pickup_starts_crouch_witness :
  isTransitioning (onKeyDown "e" st3) = true.
Proof.
  apply (accepted_pickup_starts_crouch st3
           (mkAction 0 1 LoopOnce true false true None)).
  - reflexivity.
  - reflexivity.
  - unfold canPickupBall. simpl. apply Rleb_intro_true.
    unfold distanceTo, vsub, pickupDistance, vlength. simpl.
    apply sqrt_le_bound; lra.
  - reflexivity.
  - constructor.
Defined.

Lemma key_table_records_last_event_witness :
  key (onKeyDown "d" st0) "z" = key st0 "z" /\
  key (onKeyUp "d" st0) "z" = key st0 "z".
Proof.
  apply (key_table_records_last_event "d" "z" st0). discriminate.
Defined.

(** ** Moving *)

Lemma updateCameraPosition_currentState s :
  currentState (updateCameraPosition s) = currentState s.
Proof. destruct (updateCameraPosition_eq s) as [a ->]. reflexivity. Qed.

(** The avatar after a movement tick with a direction held *)
Lemma handleMovement_avatar_moving (delta : R) (s : State) (av : Avatar) :
  avatar s = Some av -> isTransitioning s = false ->
  0 < vlength (moveDirOf s) ->
  let dir := normalize (moveDirOf s) in
  let newPosition := vadd (position av) (multiplyScalar dir (currentSpeed s * delta)) in
  avatar (handleMovement delta s)
  = Some (mkAvatar (if checkCollision (collisionBoxes s) newPosition
                    then position av else newPosition)
                   (atan2 (vec_x dir) (vec_z dir))).
Proof.
  intros Ha Ht Hl dir newPosition. unfold handleMovement. rewrite Ha, Ht.
  cbv zeta. rewrite updateCameraPosition_avatar. unfold Rgtb.
  rewrite Rltb_intro_true by exact Hl.
  fold dir. fold newPosition.
  destruct (checkCollision (collisionBoxes s) newPosition); simpl negb; cbv iota;
    match goal with
    | |- avatar (if ?c then _ else _) = _ => destruct c
    end; cbn [avatar set_currentState]; rewrite ?playAnimation_avatar; reflexivity.
Qed.

(** X6.  An unblocked movement tick moves the character by exactly speed
    times delta, whatever combination of direction keys is held (a diagonal
    is not faster), and turns it to face the direction of movement. *)
Theorem unblocked_step_has_length_speed_delta :
  forall (delta : R) (s : State) (av : Avatar),
    avatar s = Some av -> isTransitioning s = false ->
    0 < vlength (moveDirOf s) -> 0 <= delta ->
    let dir := normalize (moveDirOf s) in
    checkCollision (collisionBoxes s)
      (vadd (position av) (multiplyScalar dir (currentSpeed s * delta))) = false ->
    exists av' : Avatar,
      avatar (handleMovement delta s) = Some av' /\
      distanceTo (position av') (position av)
      = (if key s "shift" then sprintSpeed else moveSpeed) * delta /\
      rotationY av' = atan2 (vec_x dir) (vec_z dir).
Proof.
  intros delta s av Ha Ht Hl Hd dir Hc.
  pose proof (handleMovement_avatar_moving delta s av Ha Ht Hl) as H.
  cbv zeta in H. fold dir in H. rewrite Hc in H.
  eexists. split; [ exact H | ]. split; [ | reflexivity ].
  cbn [position]. unfold distanceTo.
  replace (vsub (vadd (position av) (multiplyScalar dir (currentSpeed s * delta)))
                (position av))
    with (multiplyScalar dir (currentSpeed s * delta)).
  - rewrite vlength_multiplyScalar.
    + unfold dir. rewrite vlength_normalize by exact Hl. unfold currentSpeed. ring.
    + unfold currentSpeed, sprintSpeed, moveSpeed.
      destruct (key s "shift"); nra.
  - unfold vsub, vadd, multiplyScalar. simpl. f_equal; ring.
Qed.

Lemma walkingRight_moving : 0 < vlength (moveDirOf walkingRight).
Proof.
  unfold moveDirOf, cameraRight, cameraForward, vadd, vzero, vlength. simpl.
  rewrite cos_0, sin_0. apply sqrt_lt_R0. lra.
Qed.

Lemma unblocked_step_has_length_speed_delta_witness :
  exists av' : Avatar,
    avatar (handleMovement (1 / 2) walkingRight) = Some av' /\
    distanceTo (position av') (vec3 0 (- (15 / 10)) 0)
    = (if key walkingRight "shift" then sprintSpeed else moveSpeed) * (1 / 2) /\
    rotationY av'
    = atan2 (vec_x (normalize (moveDirOf walkingRight)))
            (vec_z (normalize (moveDirOf walkingRight))).
Proof.
  apply (unblocked_step_has_length_speed_delta (1 / 2) walkingRight
           (mkAvatar (vec3 0 (- (15 / 10)) 0) 0)).
  - reflexivity.
  - reflexivity.
  - exact walkingRight_moving.
  - lra.
  - reflexivity.
Defined.

(** X7.  A movement tick whose candidate position collides leaves the
    character where it is but still turns it to face the direction of
    movement. *)
Theorem blocked_step_only_turns :
  forall (delta : R) (s : State) (av : Avatar),
    avatar s = Some av -> isTransitioning s = false ->
    0 < vlength (moveDirOf s) ->
    let dir := normalize (moveDirOf s) in
    checkCollision (collisionBoxes s)
      (vadd (position av) (multiplyScalar dir (currentSpeed s * delta))) = true ->
    avatar (handleMovement delta s)
    = Some (mkAvatar (position av) (atan2 (vec_x dir) (vec_z dir))).
Proof.
  intros delta s av Ha Ht Hl dir Hc.
  pose proof (handleMovement_avatar_moving delta s av Ha Ht Hl) as H.
  cbv zeta in H. fold dir in H. rewrite Hc in H. exact H.
Qed.

Lemma walkingIntoCube_dir :
  normalize (moveDirOf walkingIntoCube) = vec3 (1 * (1 / 1)) (0 * (1 / 1)) (0 * (1 / 1))
  /\ 0 < vlength (moveDirOf walkingIntoCube).
Proof.
  assert (Hm : moveDirOf walkingIntoCube = vec3 (0 + 1) (0 + 0) (0 + - 0)).
  { unfold moveDirOf, cameraRight, cameraForward, vadd, vzero. simpl.
    rewrite cos_0, sin_0. reflexivity. }
  assert (Hl : vlength (moveDirOf walkingIntoCube) = 1).
  { rewrite Hm. unfold vlength. simpl.
    replace ((0 + 1) * (0 + 1) + (0 + 0) * (0 + 0) + (0 + - 0) * (0 + - 0))
      with 1 by ring.
    apply sqrt_1. }
  split; [ | rewrite Hl; lra ].
  unfold normalize, divideScalar, multiplyScalar. rewrite Hl.
  rewrite Rltb_intro_true by lra. rewrite Hm. simpl. f_equal; ring.
Qed.

Lemma blocked_step_only_turns_witness :
  avatar (handleMovement (1 / 10) walkingIntoCube)
  = Some (mkAvatar (vec3 0 (- (15 / 10)) 0)
            (atan2 (vec_x (normalize (moveDirOf walkingIntoCube)))
                   (vec_z (normalize (moveDirOf walkingIntoCube))))).
Proof.
  destruct walkingIntoCube_dir as [Hdir Hlen].
  apply (blocked_step_only_turns (1 / 10) walkingIntoCube
           (mkAvatar (vec3 0 (- (15 / 10)) 0) 0)).
  - reflexivity.
  - reflexivity.
  - exact Hlen.
  - rewrite Hdir. unfold checkCollision, currentSpeed, moveSpeed. simpl.
    unfold surfaceHit, containsPoint, expandByScalar, characterRadius,
      cubeToTheRight. simpl.
    Rdecide. reflexivity.
Defined.

(** X8.  Outside a transition the movement tick records the animation state
    selected from the ball and the keys: the holding clip whenever the ball
    is held; otherwise idle when no movement results; otherwise the forward
    clip (the running clip with [shift]) when [q] or [d] is held, else the
    backward clip when [s] is held, with or without [shift], else the
    forward or running clip for [z]. *)
Theorem movement_tick_selects_state :
  forall (delta : R) (s : State) (av : Avatar),
    avatar s = Some av -> isTransitioning s = false ->
    currentState (handleMovement delta s)
    = if hasBall s then holdingball
      else if Rgtb (vlength (moveDirOf s)) 0 then
        if key s "q" || key s "d" then
          if key s "shift" then running else wlking
        else if key s "s" then walkingbackward
        else if key s "z" then
          if key s "shift" then running else wlking
        else idle
      else idle.
Proof.
  intros delta s av Ha Ht.
  assert (Hsel : currentState (handleMovement delta s) = selectedState s).
  { unfold handleMovement, selectedState. rewrite Ha, Ht. cbv zeta.
    rewrite updateCameraPosition_currentState.
    destruct (Rgtb (vlength (moveDirOf s)) 0).
    - match goal with
      | |- context [checkCollision ?b ?p] => destruct (checkCollision b p)
      end; simpl negb; cbv iota; cbn [currentState set_avatar];
        destruct (AnimState_eqb (newStateOf s) (currentState s)) eqn:E;
        simpl negb; cbv iota; cbn [currentState set_currentState set_avatar];
        try reflexivity; apply AnimState_eqb_eq in E; symmetry; exact E.
    - destruct (AnimState_eqb (currentState s)
                  (if hasBall s then holdingball else idle)) eqn:E;
        simpl negb; cbv iota; cbn [currentState set_currentState];
        try reflexivity; apply AnimState_eqb_eq in E; exact E. }
  rewrite Hsel. unfold selectedState, newStateOf.
  destruct (hasBall s), (Rgtb (vlength (moveDirOf s)) 0), (key s "shift"),
    (key s "z"), (key s "s"), (key s "q"), (key s "d"); try reflexivity.
Qed.

Lemma movement_tick_selects_state_witness :
  currentState (handleMovement (1 / 2) walkingRight)
  = if hasBall walkingRight then holdingball
    else if Rgtb (vlength (moveDirOf walkingRight)) 0 then
      if key walkingRight "q" || key walkingRight "d"
      then if key walkingRight "shift" then running else wlking
      else if key walkingRight "s" then walkingbackward
      else if key walkingRight "z"
           then if key walkingRight "shift" then running else wlking
           else idle
    else idle.
Proof.
  apply (movement_tick_selects_state (1 / 2) walkingRight
           (mkAvatar (vec3 0 (- (15 / 10)) 0) 0)).
  - reflexivity.
  - reflexivity.
Defined.

(** ** The ball *)

Lemma groundCollision_ball (b : Basketball) (s : State) :
  basketball s = Some b ->
  exists b' : Basketball,
    basketball (groundCollision b s) = Some b' /\
    groundY + basketballRadius <= vec_y (ballPosition b').
Proof.
  intros Hb. unfold groundCollision.
  destruct (Rleb (vec_y (ballPosition b)) (groundY + basketballRadius)) eqn:Hle.
  - eexists. split; [ reflexivity | ]. simpl. lra.
  - apply Rleb_false in Hle. exists b. split; [ exact Hb | lra ].
Qed.

(** X9.  Whatever state it starts from, a physics tick on a ball that is
    not held leaves the ball at or above its rest height on the ground
    (ground level plus the radius). *)
Theorem free_ball_ends_on_or_above_ground :
  forall (delta : R) (s : State) (b : Basketball),
    basketball s = Some b -> hasBall s = false ->
    exists b' : Basketball,
      basketball (updateBasketballPhysics delta s) = Some b' /\
      groundY + basketballRadius <= vec_y (ballPosition b').
Proof.
  intros delta s b Hb Hh. unfold updateBasketballPhysics. rewrite Hb, Hh.
  destruct (Rltb (vec_y (ballPosition b)) (- 10)).
  { eexists. split; [ reflexivity | ]. simpl. unfold groundY, basketballRadius. lra. }
  destruct (Rgtb (vlength (ballPosition b)) 50).
  { eexists. split; [ reflexivity | ]. simpl. unfold groundY, basketballRadius. lra. }
  cbv zeta.
  match goal with
  | |- context [checkBasketballCollision ?x ?y ?z] =>
      destruct (checkBasketballCollision x y z) as [hit face]
  end.
  simpl. destruct hit; [ destruct face | ]; apply groundCollision_ball;
    first [ exact Hb | reflexivity ].
Qed.

Lemma free_ball_ends_on_or_above_ground_witness :
  exists b' : Basketball,
    basketball (updateBasketballPhysics 1 fallenThrough) = Some b' /\
    groundY + basketballRadius <= vec_y (ballPosition b').
Proof.
  apply (free_ball_ends_on_or_above_ground 1 fallenThrough
           (mkBasketball (vec3 0 (- 11) 0) true)).
  - reflexivity.
  - reflexivity.
Defined.

(** X10.  A ball that is not held and has fallen more than 10 below the
    origin, or is farther than 50 from it, is put back at its loading
    position (3, -1.2, 0) with no velocity, and the held, throwing and
    thrown flags are cleared; the transition flag, the animation and the
    character are left as they are. *)
Theorem runaway_ball_is_reset :
  forall (delta : R) (s : State) (b : Basketball),
    basketball s = Some b -> hasBall s = false ->
    vec_y (ballPosition b) < - 10 \/ 50 < vlength (ballPosition b) ->
    let s' := updateBasketballPhysics delta s in
    basketball s' = Some (mkBasketball (vec3 3 (- (12 / 10)) 0) (visible b)) /\
    basketballVelocity s' = vzero /\
    hasBall s' = false /\ isThrowingBall s' = false /\ ballWasThrown s' = false /\
    isTransitioning s' = isTransitioning s /\ currentState s' = currentState s /\
    actions s' = actions s /\ listeners s' = listeners s /\ avatar s' = avatar s.
Proof.
  intros delta s b Hb Hh Hout s'. subst s'. unfold updateBasketballPhysics.
  rewrite Hb, Hh.
  destruct (Rltb (vec_y (ballPosition b)) (- 10)) eqn:Hy.
  - repeat split.
  - apply Rltb_false in Hy. destruct Hout as [Hout | Hout]; [ lra | ].
    unfold Rgtb. rewrite Rltb_intro_true by exact Hout. repeat split.
Qed.

Lemma runaway_ball_is_reset_witness :
  basketball (updateBasketballPhysics 1 fallenThrough)
  = Some (mkBasketball (vec3 3 (- (12 / 10)) 0) true) /\
  isThrowingBall (updateBasketballPhysics 1 fallenThrough) = false.
Proof.
  destruct (runaway_ball_is_reset 1 fallenThrough
              (mkBasketball (vec3 0 (- 11) 0) true) eq_refl eq_refl)
    as (H1 & _ & _ & H4 & _).
  - left. simpl. lra.
  - split; assumption.
Defined.

(** X11.  A tick that finds the ball marked held although it was thrown
    drops the held flag and touches neither the ball's position nor its
    velocity: a stale held flag never pulls a thrown ball back to the
    hand. *)
Theorem thrown_ball_is_not_pulled_back :
  forall (delta : R) (s : State) (b : Basketball) (av : Avatar),
    basketball s = Some b -> avatar s = Some av ->
    hasBall s = true -> ballWasThrown s = true ->
    updateBasketballPhysics delta s = set_hasBall false (log LogBallWasThrown s).
Proof.
  intros delta s b av Hb Ha Hh Hw.
  rewrite (physics_held delta s b Hb Hh).
  unfold updateBasketballInHand. rewrite Hb, Ha, Hh, Hw. reflexivity.
Qed.

Lemma thrown_ball_is_not_pulled_back_witness :
  updateBasketballPhysics (1 / 60) staleHold
  = set_hasBall false (log LogBallWasThrown staleHold).
Proof.
  apply (thrown_ball_is_not_pulled_back (1 / 60) staleHold
           (mkBasketball (vec3 3 (- (12 / 10)) 0) true)
           (mkAvatar (vec3 0 (- (15 / 10)) 0) 0)); reflexivity.
Defined.

(** X12.  A ball marked held that carries a velocity above 0.1 while no
    throw is under way is neither put in the hand nor moved by the physics:
    the tick only prints a message, the held flag stays set, and so the ball
    stays frozen in place tick after tick. *)
Theorem moving_held_ball_is_frozen :
  forall (delta : R) (s : State) (b : Basketball) (av : Avatar),
    basketball s = Some b -> avatar s = Some av ->
    hasBall s = true -> ballWasThrown s = false -> isThrowingBall s = false ->
    1 / 10 < vlength (basketballVelocity s) ->
    updateBasketballPhysics delta s = log LogVelocityNotThrowing s /\
    forall delta', 
      basketball (updateBasketballPhysics delta' (updateBasketballPhysics delta s))
      = Some b /\
      hasBall (updateBasketballPhysics delta' (updateBasketballPhysics delta s)) = true.
Proof.
  intros delta s b av Hb Ha Hh Hw Ht Hv.
  assert (Hstep : forall d s0, basketball s0 = Some b -> avatar s0 = Some av ->
            hasBall s0 = true -> ballWasThrown s0 = false ->
            isThrowingBall s0 = false ->
            1 / 10 < vlength (basketballVelocity s0) ->
            updateBasketballPhysics d s0 = log LogVelocityNotThrowing s0).
  { intros d s0 Hb0 Ha0 Hh0 Hw0 Ht0 Hv0.
    rewrite (physics_held d s0 b Hb0 Hh0).
    unfold updateBasketballInHand. rewrite Hb0, Ha0, Hh0, Hw0, Ht0.
    unfold Rgtb. rewrite Rltb_intro_true by exact Hv0. reflexivity. }
  rewrite (Hstep delta s Hb Ha Hh Hw Ht Hv). split; [ reflexivity | ].
  intros delta'.
  rewrite (Hstep delta' (log LogVelocityNotThrowing s) Hb Ha Hh Hw Ht Hv).
  split; assumption.
Qed.

Lemma moving_held_ball_is_frozen_witness :
  updateBasketballPhysics (1 / 60) heldButMoving
  = log LogVelocityNotThrowing heldButMoving.
Proof.
  apply (moving_held_ball_is_frozen (1 / 60) heldButMoving
           (mkBasketball (vec3 3 (- (12 / 10)) 0) true)
           (mkAvatar (vec3 0 (- (15 / 10)) 0) 0)); try reflexivity.
  unfold vlength. simpl. apply sqrt_lt_bound; lra.
Defined.

(** X13.  A free ball lying on the ground that is not rising after gravity
    stays on the ground through a tick without box hit: it slides along by
    its horizontal velocity, which the ground then damps to 0.8 of itself,
    and its vertical velocity becomes the downward speed reversed and
    reduced to 0.7, or zero when that speed is at most 0.1. *)
Theorem ball_on_ground_stays_on_ground :
  forall (delta : R) (s : State) (b : Basketball),
    basketball s = Some b -> hasBall s = false ->
    vec_y (ballPosition b) = groundY + basketballRadius ->
    vlength (ballPosition b) <= 50 ->
    0 <= delta ->
    vec_y (basketballVelocity s) + gravity * delta <= 0 ->
    hasCollision
      (checkBasketballCollision (collisionBoxes s) (collisionObjectNames s)
         (candidatePosition delta (ballPosition b)
            (gravityVelocity delta (basketballVelocity s)))) = false ->
    let v := basketballVelocity s in
    let down := - (vec_y v + gravity * delta) in
    basketball (updateBasketballPhysics delta s)
    = Some (mkBasketball
              (vec3 (vec_x (ballPosition b) + vec_x v * delta)
                    (groundY + basketballRadius)
                    (vec_z (ballPosition b) + vec_z v * delta))
              (visible b)) /\
    basketballVelocity (updateBasketballPhysics delta s)
    = vec3 (vec_x v * (8 / 10))
           (if Rgtb down (1 / 10) then down * bounceReduction else 0)
           (vec_z v * (8 / 10)).
Proof.
  intros delta s b Hb Hh Hy Hl Hd Hv Hc v down.
  assert (Hy10 : - 10 <= vec_y (ballPosition b))
    by (rewrite Hy; unfold groundY, basketballRadius; lra).
  rewrite (free_flight_no_hit delta s b Hb Hh Hy10 Hl Hc).
  unfold freeFlightNoHit, groundCollision. cbv zeta.
  cbn [ballPosition candidatePosition vadd vec_x vec_y vec_z gravityVelocity visible].
  rewrite Rleb_intro_true by (rewrite Hy; nra).
  cbn [basketball basketballVelocity set_basketball set_basketballVelocity
       vec_x vec_y vec_z].
  split; [ reflexivity | ].
  unfold gravityVelocity. cbn [vec_x vec_y vec_z]. fold v. fold v in Hv.
  unfold Rgtb. rewrite Rabs_left1 by exact Hv. fold down.
  destruct (Rltb (1 / 10) down); reflexivity.
Qed.

Lemma ball_on_ground_stays_on_ground_witness :
  basketball (updateBasketballPhysics (1 / 100) lyingOnGround)
  = Some (mkBasketball
            (vec3 (3 + 1 * (1 / 100)) (groundY + basketballRadius) (0 + 0 * (1 / 100)))
            true).
Proof.
  apply (ball_on_ground_stays_on_ground (1 / 100) lyingOnGround
           (mkBasketball (vec3 3 (groundY + basketballRadius) 0) true)).
  - reflexivity.
  - reflexivity.
  - reflexivity.
  - unfold vlength, groundY, basketballRadius. simpl. apply sqrt_le_bound; lra.
  - lra.
  - unfold gravity. simpl. lra.
  - reflexivity.
Defined.

(** ** The completion handlers are never unregistered *)

Lemma removeFirst_fresh (n : nat) (ls : list Listener) :
  Forall (fun l => (functionId l < n)%nat) ls -> removeFirst n ls = ls.
Proof.
  induction 1 as [| l rest Hl _ IH]; simpl.
  - reflexivity.
  - destruct (Nat.eqb_spec (functionId l) n); [ lia | rewrite IH; reflexivity ].
Qed.

Lemma sameControl_sameListeners (s s' : State) :
  sameControl s s' -> sameListeners s s'.
Proof. intros (_ & _ & _ & A4 & A5). split; assumption. Qed.

Lemma sameListeners_trans (s1 s2 s3 : State) :
  sameListeners s1 s2 -> sameListeners s2 s3 -> sameListeners s1 s3.
Proof. unfold sameListeners. intros [A1 A2] [B1 B2]. split; congruence. Qed.

Lemma onCrouchFinished_listeners (s : State) :
  freshIds s ->
  listeners (onCrouchFinished s) = listeners s /\ freshIds (onCrouchFinished s).
Proof.
  intros Hf. split; [ | apply onCrouchFinished_control; exact Hf ].
  unfold onCrouchFinished, bind. cbv beta iota zeta.
  set (s0 := set_ballWasThrown false
               (set_isTransitioning false
                  (set_hasBall true
                     (set_isCrouched true
                        (removeEventListener
                           (mkListener (nextFunctionId s) OnCrouchFinished)
                           (set_nextFunctionId (S (nextFunctionId s)) s)))))).
  assert (H0 : listeners s0 = listeners s).
  { unfold s0. cbn [listeners set_ballWasThrown set_isTransitioning set_hasBall
      set_isCrouched removeEventListener set_listeners set_nextFunctionId functionId].
    apply removeFirst_fresh. exact Hf. }
  assert (Hsame : sameControl s0 (playAnimation holdingball (attachBasketballToHand s0))).
  { eapply sameControl_trans;
      [ apply attachBasketballToHand_sameControl
      | apply playAnimation_plain; reflexivity ]. }
  destruct Hsame as (_ & _ & _ & A4 & _).
  cbn [listeners log set_console set_currentState]. rewrite A4. exact H0.
Qed.

Lemma onThrowFinished_listeners (s : State) :
  freshIds s ->
  listeners (onThrowFinished s) = listeners s /\ freshIds (onThrowFinished s).
Proof.
  intros Hf. split; [ | apply onThrowFinished_control; exact Hf ].
  unfold onThrowFinished, bind. cbv beta iota zeta.
  set (s0 := log LogThrowFinished
               (set_hasBall false
                  (set_isThrowingBall false
                     (set_isTransitioning false
                        (set_isCrouched false
                           (removeEventListener
                              (mkListener (nextFunctionId s) OnThrowFinished)
                              (set_nextFunctionId (S (nextFunctionId s)) s))))))).
  assert (H0 : listeners s0 = listeners s).
  { unfold s0. cbn [listeners log set_console set_hasBall set_isThrowingBall
      set_isTransitioning set_isCrouched removeEventListener set_listeners
      set_nextFunctionId functionId].
    apply removeFirst_fresh. exact Hf. }
  destruct (playAnimation_plain idle s0 eq_refl) as (_ & _ & _ & A4 & _).
  cbn [listeners set_currentState]. rewrite A4. exact H0.
Qed.

Lemma dispatch_listeners (ls : list Listener) :
  forall s, freshIds s ->
    listeners (fold_left (fun s l => call (handler l) s) ls s) = listeners s /\
    freshIds (fold_left (fun s l => call (handler l) s) ls s).
Proof.
  induction ls as [| l rest IH]; simpl; intros s Hf.
  - split; [ reflexivity | exact Hf ].
  - destruct (handler l); simpl.
    + destruct (onCrouchFinished_listeners s Hf) as [Hl Hf'].
      destruct (IH _ Hf') as [Hl' Hf'']. split; [ congruence | exact Hf'' ].
    + destruct (onThrowFinished_listeners s Hf) as [Hl Hf'].
      destruct (IH _ Hf') as [Hl' Hf'']. split; [ congruence | exact Hf'' ].
Qed.

Lemma freshIds_sameListeners (s s' : State) :
  sameListeners s s' -> freshIds s -> freshIds s'.
Proof. unfold freshIds. intros [-> ->]. auto. Qed.

Lemma updateAction_listeners (delta : R) (s : State) (k : AnimState) :
  freshIds s ->
  listeners (updateAction delta s k) = listeners s /\
  freshIds (updateAction delta s k).
Proof.
  intros Hf. unfold updateAction.
  destruct (action s k) as [a |]; [ | split; [ reflexivity | exact Hf ] ].
  destruct (negb (enabled a)); [ split; [ reflexivity | exact Hf ] | ].
  cbv zeta.
  match goal with
  | |- context [onAction k ?f ?x] =>
      assert (Hx : listeners x = listeners s /\ freshIds x)
  end.
  { match goal with |- context [if ?c then _ else _] => destruct c end;
      [ | split; [ reflexivity | exact Hf ] ].
    destruct (updateTime _ a) as [a' finished].
    destruct finished; [ | split; [ reflexivity | exact Hf ] ].
    unfold dispatchFinished.
    apply (dispatch_listeners (listeners (setAction k a' s)) (setAction k a' s)).
    exact Hf. }
  destruct Hx as [Hl Hf'].
  match goal with
  | |- context [onAction k ?f ?x] =>
      destruct (onAction_sameControl k f x) as (_ & _ & _ & A4 & A5)
  end.
  split.
  - rewrite A4. exact Hl.
  - unfold freshIds. rewrite A4, A5. exact Hf'.
Qed.

Lemma mixerUpdate_listeners (delta : R) (s : State) :
  freshIds s ->
  listeners (mixerUpdate delta s) = listeners s /\ freshIds (mixerUpdate delta s).
Proof.
  intros Hf. unfold mixerUpdate. cbv zeta.
  set (s0 := set_mixerTime (mixerTime s + delta) s).
  change (activeActions s0) with (activeActions s).
  assert (H0 : listeners s0 = listeners s /\ freshIds s0)
    by (split; [ reflexivity | exact Hf ]).
  revert H0. generalize s0. generalize (activeActions s).
  induction l as [| k rest IH]; simpl; intros s1 [Hl Hf1].
  - split; assumption.
  - destruct (updateAction_listeners delta s1 k Hf1) as [Hl' Hf'].
    apply IH. split; [ congruence | exact Hf' ].
Qed.

Lemma handleMovement_sameListeners (delta : R) (s : State) :
  sameListeners s (handleMovement delta s).
Proof.
  unfold handleMovement.
  destruct (avatar s); [ | split; reflexivity ].
  destruct (isTransitioning s); [ split; reflexivity | ].
  cbv zeta.
  match goal with
  | |- context [updateCameraPosition ?x] =>
      destruct (updateCameraPosition_eq x) as [angle ->]
  end.
  assert (Hplay : forall k x, isPlayOnce k = false -> sameListeners s x ->
            sameListeners s (set_cameraAngle angle
                               (set_currentState k (playAnimation k x)))).
  { intros k x Hk Hx.
    apply (sameListeners_trans _ x _ Hx).
    destruct (playAnimation_plain k x Hk) as (_ & _ & _ & A4 & A5).
    split; assumption. }
  destruct (Rgtb (vlength (moveDirOf s)) 0).
  - match goal with
    | |- context [checkCollision ?b ?p] => destruct (checkCollision b p)
    end; simpl negb; cbv iota;
      match goal with |- context [if ?c then _ else _] => destruct c end;
      first [ apply Hplay; [ apply newStateOf_plain | split; reflexivity ]
            | split; reflexivity ].
  - match goal with |- context [if ?c then _ else _] => destruct c end;
      first [ apply Hplay; [ destruct (hasBall s); reflexivity | split; reflexivity ]
            | split; reflexivity ].
Qed.

Lemma updateBasketballPhysics_sameListeners (delta : R) (s : State) :
  sameListeners s (updateBasketballPhysics delta s).
Proof.
  unfold updateBasketballPhysics.
  destruct (basketball s) as [b |]; [ | split; reflexivity ].
  destruct (hasBall s).
  { apply sameControl_sameListeners, updateBasketballInHand_sameControl. }
  destruct (Rltb (vec_y (ballPosition b)) (- 10)); [ split; reflexivity | ].
  destruct (Rgtb (vlength (ballPosition b)) 50); [ split; reflexivity | ].
  cbv zeta.
  match goal with
  | |- context [checkBasketballCollision ?x ?y ?z] =>
      destruct (checkBasketballCollision x y z) as [hit face]
  end.
  simpl. destruct hit; [ destruct face | ];
    match goal with
    | |- sameListeners _ (groundCollision ?b ?x) =>
        apply (sameListeners_trans _ x _);
          [ split; reflexivity
          | apply sameControl_sameListeners, groundCollision_sameControl ]
    end.
Qed.

Lemma animate_listeners (delta : R) (s : State) :
  freshIds s -> listeners (animate delta s) = listeners s.
Proof.
  intros Hf. unfold animate. cbv zeta.
  destruct (mixerUpdate_listeners delta s Hf) as [Hl _].
  match goal with
  | |- context [updateCameraPosition ?x] =>
      destruct (updateCameraPosition_eq x) as [angle ->]
  end.
  cbn [listeners set_cameraAngle].
  destruct (updateBasketballPhysics_sameListeners delta
              (handleMovement delta (mixerUpdate delta s))) as [B1 _].
  destruct (handleMovement_sameListeners delta (mixerUpdate delta s)) as [C1 _].
  congruence.
Qed.

Lemma playAnimation_listeners_grow (state : AnimState) (s : State) :
  freshIds s ->
  listeners (playAnimation state s) = listeners s \/
  exists l, listeners (playAnimation state s) = listeners s ++ [l].
Proof.
  intros Hf. destruct (action s state) as [a |] eqn:Ha.
  - destruct (isPlayOnce state) eqn:Hp.
    + right.
      assert (Hs : state = standingtocrouched \/ state = throwball)
        by (destruct state; try discriminate Hp; auto).
      destruct Hs as [-> | ->].
      * destruct (playAnimation_once_control standingtocrouched OnCrouchFinished s a
                    (or_introl (conj eq_refl eq_refl)) Ha Hf) as (_ & H & _).
        eexists. exact H.
      * destruct (playAnimation_once_control throwball OnThrowFinished s a
                    (or_intror (conj eq_refl eq_refl)) Ha Hf) as (_ & H & _).
        eexists. exact H.
    + left. destruct (playAnimation_plain state s Hp) as (_ & _ & _ & A4 & _).
      exact A4.
  - left. unfold playAnimation. rewrite Ha. reflexivity.
Qed.

(** X14.  No event ever unregisters a completion handler.  Along every run
    from the loaded scene, a frame leaves the mixer's listener list exactly
    as it was, although the handlers that run in it call
    [removeEventListener], and a key event leaves it as it was or appends
    one listener. *)
Theorem listeners_are_never_removed :
  forall (clips : AnimState -> option R) (boxes : list Box3) (names : list string)
         (s : State) (e : Event),
    reachable clips boxes names s ->
    match e with
    | Frame _ => listeners (step e s) = listeners s
    | _ => listeners (step e s) = listeners s \/
           exists l, listeners (step e s) = listeners s ++ [l]
    end.
Proof.
  intros clips boxes names s e Hr.
  destruct (reachable_throwingInv _ _ _ _ Hr) as [Hf _].
  destruct e as [delta | name | name | dx]; simpl.
  - apply animate_listeners. exact Hf.
  - unfold onKeyDown. cbv zeta.
    repeat match goal with |- context [if ?c then _ else _] => destruct c end;
      cbn [listeners set_currentState];
      first [ left; reflexivity
            | match goal with
              | |- context [playAnimation ?k ?x] =>
                  apply (playAnimation_listeners_grow k x); exact Hf
              end ].
  - left. reflexivity.
  - left. reflexivity.
Qed.

Lemma listeners_are_never_removed_witness :
  listeners (step (Frame (1 / 2)) st9) = listeners st9.
Proof.
  assert (Hr : reachable demoClips [] [] st9).
  { rewrite <- run_to_st9. apply reachable_run.
    - apply Forall_firstn, playThrough_valid.
    - apply reachable_init. }
  exact (listeners_are_never_removed demoClips [] [] st9 (Frame (1 / 2)) Hr).
Defined.

(** ** Invariants of every run *)

(** X15.  In every state reachable from the loaded scene the character
    stands at the height it was loaded at (movement is horizontal) and the
    ball is at or above its rest height on the ground, held or not. *)
Theorem character_on_floor_ball_above_ground :
  forall (clips : AnimState -> option R) (boxes : list Box3) (names : list string)
         (s : State),
    reachable clips boxes names s ->
    (forall av, avatar s = Some av -> vec_y (position av) = - (15 / 10)) /\
    (forall b, basketball s = Some b ->
               groundY + basketballRadius <= vec_y (ballPosition b)).
Proof.
  intros clips boxes names s Hr. exact (reachable_height _ _ _ _ Hr).
Qed.

Lemma character_on_floor_ball_above_ground_witness :
  (forall av, avatar st7 = Some av -> vec_y (position av) = - (15 / 10)) /\
  (forall b, basketball st7 = Some b ->
             groundY + basketballRadius <= vec_y (ballPosition b)).
Proof.
  exact (character_on_floor_ball_above_ground demoClips [] [] st7 reachable_st7).
Defined.

(** ** Only the movement tick moves the character *)

Lemma playAnimation_isCrouched state s :
  isCrouched (playAnimation state s) = isCrouched s.
Proof. playAnimation_cases s state. Qed.

Lemma updateBasketballInHand_avatar s :
  avatar (updateBasketballInHand s) = avatar s.
Proof.
  unfold updateBasketballInHand, placeBallInHand, throwBasketball.
  destruct (basketball s); [ | reflexivity ].
  destruct (avatar s) eqn:Ha; [ | exact Ha ].
  repeat match goal with
  | |- context [match ?x with _ => _ end] => destruct x
  end; cbn [avatar basketball set_basketball set_hasBall set_basketballVelocity
            set_ballWasThrown log set_console]; rewrite ?Ha; try reflexivity.
Qed.

Lemma attachBasketballToHand_avatar s :
  avatar (attachBasketballToHand s) = avatar s.
Proof.
  unfold attachBasketballToHand.
  destruct (basketball s); [ | reflexivity ].
  destruct (avatar s) eqn:Ha; [ | exact Ha ].
  rewrite updateBasketballInHand_avatar. exact Ha.
Qed.

Lemma call_avatar (h : Handler) (s : State) : avatar (call h s) = avatar s.
Proof.
  destruct h; unfold call.
  - unfold onCrouchFinished, bind. cbv beta iota zeta.
    match goal with
    | |- avatar (log _ (set_currentState _ (playAnimation ?k (attachBasketballToHand ?x)))) = _ =>
        transitivity (avatar (playAnimation k (attachBasketballToHand x)));
          [ frame | ];
        rewrite playAnimation_avatar, attachBasketballToHand_avatar; frame
    end.
  - unfold onThrowFinished, bind. cbv beta iota zeta.
    match goal with
    | |- avatar (set_currentState _ (playAnimation ?k ?x)) = _ =>
        transitivity (avatar (playAnimation k x)); [ frame | ];
        rewrite playAnimation_avatar; frame
    end.
Qed.

Lemma dispatchFinished_avatar (s : State) : avatar (dispatchFinished s) = avatar s.
Proof.
  unfold dispatchFinished. generalize (listeners s). intros ls. revert s.
  induction ls as [| l rest IH]; simpl; intros s.
  - reflexivity.
  - rewrite IH. apply call_avatar.
Qed.

Lemma onAction_avatar k f s : avatar (onAction k f s) = avatar s.
Proof. unfold onAction. destruct (action s k); reflexivity. Qed.

Lemma updateAction_avatar (delta : R) (s : State) (k : AnimState) :
  avatar (updateAction delta s k) = avatar s.
Proof.
  unfold updateAction.
  destruct (action s k) as [a |]; [ | reflexivity ].
  destruct (negb (enabled a)); [ reflexivity | ].
  cbv zeta. rewrite onAction_avatar.
  match goal with |- context [if ?c then _ else _] => destruct c end;
    [ | reflexivity ].
  destruct (updateTime _ a) as [a' finished].
  destruct finished; [ rewrite dispatchFinished_avatar | ]; reflexivity.
Qed.

Lemma mixerUpdate_avatar (delta : R) (s : State) :
  avatar (mixerUpdate delta s) = avatar s.
Proof.
  unfold mixerUpdate. cbv zeta.
  set (s0 := set_mixerTime (mixerTime s + delta) s).
  change (avatar s) with (avatar s0).
  generalize (activeActions s0). intros l. generalize s0.
  induction l as [| k rest IH]; simpl; intros s1.
  - reflexivity.
  - rewrite IH. apply updateAction_avatar.
Qed.

Lemma updateBasketballPhysics_avatar (delta : R) (s : State) :
  avatar (updateBasketballPhysics delta s) = avatar s.
Proof.
  unfold updateBasketballPhysics.
  destruct (basketball s) as [b |]; [ | reflexivity ].
  destruct (hasBall s); [ apply updateBasketballInHand_avatar | ].
  destruct (Rltb (vec_y (ballPosition b)) (- 10)); [ reflexivity | ].
  destruct (Rgtb (vlength (ballPosition b)) 50); [ reflexivity | ].
  cbv zeta.
  match goal with
  | |- context [checkBasketballCollision ?x ?y ?z] =>
      destruct (checkBasketballCollision x y z) as [hit face]
  end.
  simpl. destruct hit; [ destruct face | ]; unfold groundCollision;
    match goal with |- context [if ?c then _ else _] => destruct c end;
    reflexivity.
Qed.

(** X16.  The animation update and the ball physics never move or turn the
    character: the character's pose after a frame is the one the movement
    tick leaves.  In particular, in a frame in which the transition is still
    under way after the animation update, the character keeps its position
    and facing whatever keys are held. *)
Theorem locked_frame_keeps_the_character :
  forall (delta : R) (s : State),
    avatar (animate delta s) = avatar (handleMovement delta (mixerUpdate delta s)) /\
    (isTransitioning (mixerUpdate delta s) = true ->
     avatar (animate delta s) = avatar s).
Proof.
  intros delta s.
  assert (H : avatar (animate delta s)
              = avatar (handleMovement delta (mixerUpdate delta s))).
  { unfold animate. cbv zeta.
    rewrite updateCameraPosition_avatar, updateBasketballPhysics_avatar.
    reflexivity. }
  split; [ exact H | ].
  intros Ht. rewrite H, (handleMovement_locked _ _ Ht). apply mixerUpdate_avatar.
Qed.

Lemma locked_frame_keeps_the_character_witness :
  avatar (animate (6 / 10) st6) = avatar st6.
Proof.
  apply (proj2 (locked_frame_keeps_the_character (6 / 10) st6)).
  rewrite st6m_eq. rcbv. reflexivity.
Defined.

(** ** The end of a pickup *)

(** X17.  When the crouch handler runs outside a throw with the ball at
    rest, the pickup is complete: the ball is held, visible and placed in
    front of the character, the character counts as crouched, the
    transition is over, the thrown flag is cleared and the recorded state is
    the holding clip. *)
Theorem crouch_end_puts_ball_in_hand :
  forall (s : State) (b : Basketball) (av : Avatar),
    basketball s = Some b -> avatar s = Some av ->
    isThrowingBall s = false -> vlength (basketballVelocity s) <= 1 / 10 ->
    let s' := onCrouchFinished s in
    hasBall s' = true /\ isCrouched s' = true /\ isTransitioning s' = false /\
    ballWasThrown s' = false /\ currentState s' = holdingball /\
    basketball s'
    = Some (mkBasketball
              (vadd (position av)
                    (applyAxisAngleY (vec3 0 1 (4 / 10)) (rotationY av)))
              true).
Proof.
  intros s b av Hb Ha Ht Hv s'. subst s'.
  rewrite (onCrouchFinished_unfold s b av Hb Ha).
  assert (Hhand : updateBasketballInHand (afterCrouchFlags s b)
                  = placeBallInHand (vec3 0 1 (4 / 10))
                      (mkBasketball (ballPosition b) true) av (afterCrouchFlags s b)).
  { rewrite (hand_following (afterCrouchFlags s b)
               (mkBasketball (ballPosition b) true) av).
    - f_equal. unfold handOffsetOf.
      replace (isThrowingBall (afterCrouchFlags s b)) with false
        by (symmetry; rewrite <- Ht; unfold afterCrouchFlags; frame).
      reflexivity.
    - unfold afterCrouchFlags; frame.
    - rewrite <- Ha. unfold afterCrouchFlags; frame.
    - unfold afterCrouchFlags; frame.
    - unfold afterCrouchFlags; frame.
    - intros _.
      replace (basketballVelocity (afterCrouchFlags s b)) with (basketballVelocity s)
        by (unfold afterCrouchFlags; frame).
      exact Hv.
    - intros cur a Ht'.
      replace (isThrowingBall (afterCrouchFlags s b)) with (isThrowingBall s) in Ht'
        by (unfold afterCrouchFlags; frame).
      congruence. }
  rewrite Hhand.
  set (p := placeBallInHand (vec3 0 1 (4 / 10))
              (mkBasketball (ballPosition b) true) av (afterCrouchFlags s b)).
  destruct (playAnimation_plain holdingball p eq_refl) as (_ & A2 & _).
  repeat (apply conj).
  - transitivity (hasBall (playAnimation holdingball p)); [ frame | ].
    rewrite playAnimation_hasBall. unfold p, placeBallInHand, afterCrouchFlags. frame.
  - transitivity (isCrouched (playAnimation holdingball p)); [ frame | ].
    rewrite playAnimation_isCrouched. unfold p, placeBallInHand, afterCrouchFlags.
    frame.
  - transitivity (isTransitioning (playAnimation holdingball p)); [ frame | ].
    rewrite A2. unfold p, placeBallInHand, afterCrouchFlags. frame.
  - transitivity (ballWasThrown (playAnimation holdingball p)); [ frame | ].
    rewrite playAnimation_ballWasThrown. unfold p, placeBallInHand, afterCrouchFlags.
    frame.
  - frame.
  - transitivity (basketball (playAnimation holdingball p)); [ frame | ].
    rewrite playAnimation_basketball. unfold p, placeBallInHand, afterCrouchFlags.
    frame.
Qed.

Lemma crouch_end_puts_ball_in_hand_witness :
  hasBall (onCrouchFinished (initialState demoClips [] [])) = true.
Proof.
  apply (crouch_end_puts_ball_in_hand (initialState demoClips [] [])
           (mkBasketball (vec3 3 (- (12 / 10)) 0) true)
           (mkAvatar (vec3 0 (- (15 / 10)) 0) 0)).
  - reflexivity.
  - reflexivity.
  - reflexivity.
  - apply vlength_vzero_small.
Defined.

(** ** The lock on the character *)

Lemma lockInv_same (s s' : State) :
  isTransitioning s' = isTransitioning s -> currentState s' = currentState s ->
  listeners s' = listeners s -> lockInv s -> lockInv s'.
Proof. unfold lockInv. intros -> -> ->. auto. Qed.

Lemma sameControl_lockInv (s s' : State) :
  sameControl s s' -> lockInv s -> lockInv s'.
Proof. intros (_ & A2 & A3 & A4 & _). apply lockInv_same; assumption. Qed.

Lemma unlocked_lockInv (s : State) : isTransitioning s = false -> lockInv s.
Proof. intros H. unfold lockInv. rewrite H. discriminate. Qed.

Lemma call_unlocks (h : Handler) (s : State) : isTransitioning (call h s) = false.
Proof.
  destruct h; unfold call.
  - unfold onCrouchFinished, bind. cbv beta iota zeta.
    match goal with
    | |- isTransitioning
           (log _ (set_currentState _ (playAnimation ?k (attachBasketballToHand ?x))))
         = _ =>
        transitivity (isTransitioning (playAnimation k (attachBasketballToHand x)));
          [ frame | ];
        destruct (playAnimation_plain k (attachBasketballToHand x) eq_refl)
          as (_ & A2 & _);
        destruct (attachBasketballToHand_sameControl x) as (_ & B2 & _);
        rewrite A2, B2; frame
    end.
  - unfold onThrowFinished, bind. cbv beta iota zeta.
    match goal with
    | |- isTransitioning (set_currentState _ (playAnimation ?k ?x)) = _ =>
        transitivity (isTransitioning (playAnimation k x)); [ frame | ];
        destruct (playAnimation_plain k x eq_refl) as (_ & A2 & _);
        rewrite A2; frame
    end.
Qed.

Lemma dispatch_unlocks (ls : list Listener) :
  ls <> [] ->
  forall s, isTransitioning (fold_left (fun s l => call (handler l) s) ls s) = false.
Proof.
  induction ls as [| l rest IH]; intros Hne s; [ congruence | ].
  simpl. destruct rest as [| l' rest'].
  - simpl. apply call_unlocks.
  - apply IH. discriminate.
Qed.

Lemma dispatchFinished_lockInv (s : State) :
  lockInv s -> lockInv (dispatchFinished s).
Proof.
  intros H. unfold dispatchFinished.
  destruct (listeners s) as [| l rest] eqn:Hl.
  - simpl. exact H.
  - apply unlocked_lockInv. apply dispatch_unlocks. discriminate.
Qed.

Lemma updateAction_lockInv (delta : R) (s : State) (k : AnimState) :
  lockInv s -> lockInv (updateAction delta s k).
Proof.
  intros H. unfold updateAction.
  destruct (action s k) as [a |]; [ | exact H ].
  destruct (negb (enabled a)); [ exact H | ].
  cbv zeta.
  eapply sameControl_lockInv; [ apply onAction_sameControl | ].
  match goal with |- lockInv (if ?c then _ else _) => destruct c end;
    [ | exact H ].
  destruct (updateTime _ a) as [a' finished].
  assert (H' : lockInv (setAction k a' s))
    by (apply (lockInv_same s); [ frame | frame | frame | exact H ]).
  destruct finished; [ apply dispatchFinished_lockInv | ]; exact H'.
Qed.

Lemma mixerUpdate_lockInv (delta : R) (s : State) :
  lockInv s -> lockInv (mixerUpdate delta s).
Proof.
  intros H. unfold mixerUpdate. cbv zeta. apply fold_left_inv.
  - intros s' k. apply updateAction_lockInv.
  - apply (lockInv_same s); [ frame | frame | frame | exact H ].
Qed.

Lemma handleMovement_lockInv (delta : R) (s : State) :
  lockInv s -> lockInv (handleMovement delta s).
Proof.
  intros H. unfold handleMovement.
  destruct (avatar s) as [av |]; [ | exact H ].
  destruct (isTransitioning s) eqn:Htr; [ exact H | ].
  cbv zeta.
  match goal with
  | |- context [updateCameraPosition ?x] =>
      destruct (updateCameraPosition_eq x) as [angle ->]
  end.
  assert (Hplay : forall k x, isPlayOnce k = false -> isTransitioning x = false ->
            lockInv (set_cameraAngle angle
                       (set_currentState k (playAnimation k x)))).
  { intros k x Hk Hx. apply unlocked_lockInv.
    destruct (playAnimation_plain k x Hk) as (_ & A2 & _).
    transitivity (isTransitioning (playAnimation k x)); [ frame | ].
    rewrite A2. exact Hx. }
  assert (Hkeep : forall x, isTransitioning x = false ->
            lockInv (set_cameraAngle angle x)).
  { intros x Hx. apply unlocked_lockInv. rewrite <- Hx. frame. }
  destruct (Rgtb (vlength (moveDirOf s)) 0).
  - match goal with
    | |- context [checkCollision ?b ?p] => destruct (checkCollision b p)
    end; simpl negb; cbv iota;
      match goal with |- context [if ?c then _ else _] => destruct c end;
      first [ apply Hplay; [ apply newStateOf_plain | exact Htr ]
            | apply Hkeep; exact Htr ].
  - match goal with |- context [if ?c then _ else _] => destruct c end;
      first [ apply Hplay; [ destruct (hasBall s); reflexivity | exact Htr ]
            | apply Hkeep; exact Htr ].
Qed.

Lemma updateBasketballPhysics_lockInv (delta : R) (s : State) :
  lockInv s -> lockInv (updateBasketballPhysics delta s).
Proof.
  intros H. unfold updateBasketballPhysics.
  destruct (basketball s) as [b |]; [ | exact H ].
  destruct (hasBall s).
  { eapply sameControl_lockInv; [ apply updateBasketballInHand_sameControl | exact H ]. }
  destruct (Rltb (vec_y (ballPosition b)) (- 10)).
  { apply (lockInv_same s); [ frame | frame | frame | exact H ]. }
  destruct (Rgtb (vlength (ballPosition b)) 50).
  { apply (lockInv_same s); [ frame | frame | frame | exact H ]. }
  cbv zeta.
  match goal with
  | |- context [checkBasketballCollision ?x ?y ?z] =>
      destruct (checkBasketballCollision x y z) as [hit face]
  end.
  simpl. destruct hit; [ destruct face | ];
    (eapply sameControl_lockInv; [ apply groundCollision_sameControl | ]);
    (apply (lockInv_same s); [ frame | frame | frame | exact H ]).
Qed.

Lemma addEventListener_nonempty (l : Listener) (s : State) :
  listeners (addEventListener l s) <> [].
Proof.
  unfold addEventListener.
  destruct (existsb _ (listeners s)) eqn:E.
  - destruct (listeners s); [ discriminate E | discriminate ].
  - cbn [listeners set_listeners]. destruct (listeners s); discriminate.
Qed.

Lemma play_once_lockInv (state : AnimState) (s : State) :
  isPlayOnce state = true -> isTransitioning s = false ->
  lockInv (set_currentState state (playAnimation state s)).
Proof.
  intros Hp Ht. destruct (action s state) as [a |] eqn:Ha.
  - destruct (playAnimation_prefix state s a Ha) as (s1 & _ & ->).
    unfold lockInv. intros _. split.
    + destruct state; try discriminate Hp; [ left | right ]; reflexivity.
    + destruct state; try discriminate Hp; cbv zeta; unfold bind;
        match goal with
        | |- listeners (set_currentState _ (addEventListener ?l ?x)) <> [] =>
            change (listeners (set_currentState _ (addEventListener l x)))
              with (listeners (addEventListener l x));
            apply addEventListener_nonempty
        end.
  - unfold playAnimation. rewrite Ha. apply unlocked_lockInv. exact Ht.
Qed.

Lemma onKeyDown_lockInv (name : string) (s : State) :
  lockInv s -> lockInv (onKeyDown name s).
Proof.
  intros H. unfold onKeyDown. cbv zeta.
  assert (Hk : lockInv (setKey name true s))
    by (apply (lockInv_same s); [ frame | frame | frame | exact H ]).
  match goal with |- lockInv (if ?c then _ else _) => destruct c eqn:Hpick end.
  - assert (Htr : isTransitioning s = false).
    { apply andb_prop in Hpick. destruct Hpick as [Hpick _].
      apply andb_prop in Hpick. destruct Hpick as [_ Hpick].
      simpl in Hpick. destruct (isTransitioning s); [ discriminate | reflexivity ]. }
    apply play_once_lockInv; [ reflexivity | exact Htr ].
  - match goal with |- lockInv (if ?c then _ else _) => destruct c eqn:Hthrow end;
      [ | exact Hk ].
    assert (Htr : isTransitioning s = false).
    { apply andb_prop in Hthrow. destruct Hthrow as [_ Hthrow].
      simpl in Hthrow. destruct (isTransitioning s); [ discriminate | reflexivity ]. }
    apply play_once_lockInv; [ reflexivity | exact Htr ].
Qed.

Lemma step_lockInv (e : Event) (s : State) : lockInv s -> lockInv (step e s).
Proof.
  intros H. destruct e; simpl.
  - unfold animate. cbv zeta.
    match goal with
    | |- context [updateCameraPosition ?x] =>
        destruct (updateCameraPosition_eq x) as [angle ->]
    end.
    match goal with
    | |- lockInv (set_cameraAngle _ ?x) =>
        apply (lockInv_same x); [ frame | frame | frame | ]
    end.
    apply updateBasketballPhysics_lockInv, handleMovement_lockInv,
      mixerUpdate_lockInv, H.
  - apply onKeyDown_lockInv, H.
  - apply (lockInv_same s); [ frame | frame | frame | exact H ].
  - apply (lockInv_same s); [ frame | frame | frame | exact H ].
Qed.

Lemma reachable_lockInv clips boxes names (s : State) :
  reachable clips boxes names s -> lockInv s.
Proof.
  induction 1 as [| s e _ IH _].
  - apply unlocked_lockInv. unfold initialState.
    match goal with
    | |- isTransitioning (playAnimation idle ?x) = false =>
        destruct (playAnimation_plain idle x eq_refl) as (_ & A2 & _);
        rewrite A2; reflexivity
    end.
  - apply step_lockInv, IH.
Qed.

(** X18.  In every state reachable from the loaded scene, the character is
    locked ([isTransitioning]) only while the recorded state is the crouch or
    the throw clip, and then a completion handler is registered: movement
    keys are ignored in no other situation. *)
Theorem locked_only_during_play_once_clips :
  forall (clips : AnimState -> option R) (boxes : list Box3) (names : list string)
         (s : State),
    reachable clips boxes names s -> isTransitioning s = true ->
    (currentState s = standingtocrouched \/ currentState s = throwball) /\
    listeners s <> [].
Proof.
  intros clips boxes names s Hr Ht. exact (reachable_lockInv _ _ _ _ Hr Ht).
Qed.

Lemma locked_only_during_play_once_clips_witness :
  (currentState st6 = standingtocrouched \/ currentState st6 = throwball) /\
  listeners st6 <> [].
Proof.
  apply (locked_only_during_play_once_clips demoClips [] [] st6 reachable_st6).
  rcbv. reflexivity.
Defined.

(** ** More on the sphere query *)

Lemma getCenter_nonEmpty (b : Box3) :
  nonEmptyBox b ->
  getCenter b = multiplyScalar (vadd (box_min b) (box_max b)) (1 / 2).
Proof.
  intros (Hx & Hy & Hz). unfold getCenter, isEmpty.
  rewrite (Rltb_intro_false _ _ Hx), (Rltb_intro_false _ _ Hy),
    (Rltb_intro_false _ _ Hz).
  reflexivity.
Qed.

Lemma Rmin_cases (a b : R) :
  (Rmin a b = a /\ a <= b) \/ (Rmin a b = b /\ b <= a).
Proof.
  destruct (Rle_dec a b) as [H | H].
  - left. split; [ apply Rmin_intro_l | ]; assumption.
  - right. split; [ apply Rmin_intro_r | ]; lra.
Qed.

Ltac decide_tests :=
  repeat match goal with
         | |- context [Rleb ?a ?b] =>
             first [ rewrite (Rleb_intro_true a b) by lra
                   | rewrite (Rleb_intro_false a b) by lra ]
         | |- context [Rltb ?a ?b] =>
             first [ rewrite (Rltb_intro_true a b) by lra
                   | rewrite (Rltb_intro_false a b) by lra ]
         end.

(** X19.  A ball whose centre lies straight outside one face of a non-empty
    box (beyond the face on its axis, within the box on the two other axes)
    is given that face by the face selection of [checkBasketballCollision]. *)
Theorem face_straight_outside_is_selected :
  forall (f : Face) (box : Box3) (center : Vector3),
    nonEmptyBox box -> overFace f box center ->
    classifyFace box center = f.
Proof.
  intros f [[x0 y0 z0] [x1 y1 z1]] [x y z] Hne Hover.
  unfold classifyFace. rewrite (getCenter_nonEmpty _ Hne).
  unfold nonEmptyBox in Hne. unfold overFace in Hover.
  unfold penetrationX, penetrationY, penetrationZ, expandByScalar,
    multiplyScalar, vadd, basketballRadius.
  cbn [vec_x vec_y vec_z box_min box_max] in *.
  destruct Hne as (Hx & Hy & Hz).
  match goal with
  | |- context [Rleb (Rmin ?a ?b) (Rmin ?c ?d) && Rleb _ (Rmin ?e ?g)] =>
      destruct (Rmin_cases a b) as [[EX LX] | [EX LX]];
      destruct (Rmin_cases c d) as [[EY LY] | [EY LY]];
      destruct (Rmin_cases e g) as [[EZ LZ] | [EZ LZ]]
  end;
    destruct f; destruct Hover as (H1 & H2 & H3);
    try (exfalso; lra); decide_tests; rewrite ?andb_false_r; reflexivity.
Qed.

Lemma face_straight_outside_is_selected_witness :
  classifyFace unitBox (vec3 (1 / 2) (11 / 10) (1 / 2)) = Top.
Proof.
  apply (face_straight_outside_is_selected Top unitBox (vec3 (1 / 2) (11 / 10) (1 / 2))).
  - unfold nonEmptyBox, unitBox. simpl. lra.
  - unfold overFace, unitBox. simpl. lra.
Defined.

Lemma scanBoxes_first (names : list string) (p : Vector3) :
  forall (boxes : list Box3) (k i : nat) (box : Box3),
    nth_error boxes i = Some box ->
    surfaceHit basketballRadius box p = true ->
    faceAllowed (nth_error names (k + i)) (classifyFace box p) = true ->
    (forall j b, (j < i)%nat -> nth_error boxes j = Some b ->
       surfaceHit basketballRadius b p &&
       faceAllowed (nth_error names (k + j)) (classifyFace b p) = false) ->
    scanBoxes names k boxes p = mkCollisionInfo true (Some (classifyFace box p)).
Proof.
  induction boxes as [| b rest IH]; intros k i box Hn Hs Ha Hbefore.
  - destruct i; discriminate Hn.
  - destruct i as [| i].
    + simpl in Hn. injection Hn as ->. simpl.
      rewrite Nat.add_0_r in Ha. rewrite Hs, Ha. reflexivity.
    + simpl in Hn.
      assert (H0 := Hbefore 0%nat b (Nat.lt_0_succ i) eq_refl).
      rewrite Nat.add_0_r in H0.
      assert (Hrest : scanBoxes names (S k) rest p
                      = mkCollisionInfo true (Some (classifyFace box p))).
      { apply (IH (S k) i box Hn Hs).
        - replace (S k + i)%nat with (k + S i)%nat by lia. exact Ha.
        - intros j b' Hj Hb'.
          replace (S k + j)%nat with (k + S j)%nat by lia.
          apply (Hbefore (S j) b'); [ lia | exact Hb' ]. }
      simpl. destruct (surfaceHit basketballRadius b p); [ | exact Hrest ].
      simpl in H0. rewrite H0. exact Hrest.
Qed.

(** X20.  [checkBasketballCollision] answers with the first box of
    [collisionBoxes] that the ball touches and whose face passes the rule of
    its name: boxes after it are not looked at, and the face reported is the
    one selected for that box. *)
Theorem first_touched_box_decides :
  forall (boxes : list Box3) (names : list string) (center : Vector3)
         (i : nat) (box : Box3),
    nth_error boxes i = Some box ->
    hitAt boxes names center i = true ->
    (forall j, (j < i)%nat -> hitAt boxes names center j = false) ->
    checkBasketballCollision boxes names center
    = mkCollisionInfo true (Some (classifyFace box center)).
Proof.
  intros boxes names center i box Hn Hi Hbefore.
  unfold hitAt in Hi. rewrite Hn in Hi. apply andb_prop in Hi.
  destruct Hi as [Hs Ha].
  unfold checkBasketballCollision.
  apply (scanBoxes_first names center boxes 0 i box Hn Hs Ha).
  intros j b Hj Hb. specialize (Hbefore j Hj). unfold hitAt in Hbefore.
  rewrite Hb in Hbefore. exact Hbefore.
Qed.

Lemma first_touched_box_decides_witness :
  checkBasketballCollision
    [ box3 (vec3 5 5 5) (vec3 6 6 6); unitBox; unitBox ] []
    (vec3 (1 / 2) (11 / 10) (1 / 2))
  = mkCollisionInfo true (Some (classifyFace unitBox (vec3 (1 / 2) (11 / 10) (1 / 2)))).
Proof.
  apply (first_touched_box_decides _ _ _ 1%nat unitBox).
  - reflexivity.
  - unfold hitAt. cbn [nth_error faceAllowed]. rewrite andb_true_r.
    unfold surfaceHit, containsPoint, expandByScalar, unitBox, basketballRadius.
    cbn [vec_x vec_y vec_z box_min box_max]. decide_tests. reflexivity.
  - intros j Hj. assert (j = 0%nat) as -> by lia.
    unfold hitAt. cbn [nth_error faceAllowed]. rewrite andb_true_r.
    unfold surfaceHit, containsPoint, expandByScalar, basketballRadius.
    cbn [vec_x vec_y vec_z box_min box_max]. decide_tests. reflexivity.
Defined.

(** ** The boxes built from the court *)

Lemma visitChild_fold (court : Court) (children : list SceneChild) :
  forall s,
    collisionBoxes (fold_left (visitChild court) children s)
    = collisionBoxes s ++ map (worldBoxOf court) (filter isCollisionChild children) /\
    collisionObjectNames (fold_left (visitChild court) children s)
    = collisionObjectNames s ++ map childName (filter isCollisionChild children).
Proof.
  induction children as [| c rest IH]; intros s.
  - simpl. rewrite !app_nil_r. split; reflexivity.
  - simpl. destruct (IH (visitChild court s c)) as [-> ->].
    unfold visitChild, isCollisionChild.
    destruct (String.eqb (childName c) collisionName); simpl;
      [ destruct (isMesh c); simpl | ].
    + split.
      * transitivity ((collisionBoxes s ++ [worldBoxOf court c]) ++
                      map (worldBoxOf court) (filter isCollisionChild rest)).
        { f_equal; frame. }
        rewrite <- app_assoc. reflexivity.
      * transitivity ((collisionObjectNames s ++ [childName c]) ++
                      map childName (filter isCollisionChild rest)).
        { f_equal; frame. }
        rewrite <- app_assoc. reflexivity.
    + split; reflexivity.
    + split; reflexivity.
Qed.

Lemma createCourtCollisions_lists (court : Court) (s : State) :
  collisionBoxes (createCourtCollisions (Some court) s)
  = map (worldBoxOf court) (filter isCollisionChild (courtChildren court)) /\
  collisionObjectNames (createCourtCollisions (Some court) s)
  = collisionObjectNames s ++ map childName (filter isCollisionChild (courtChildren court)).
Proof.
  unfold createCourtCollisions. cbv zeta.
  destruct (visitChild_fold court (courtChildren court) (set_collisionBoxes [] s))
    as [-> ->].
  split; [ | f_equal; frame ].
  transitivity ([] ++ map (worldBoxOf court)
                        (filter isCollisionChild (courtChildren court)));
    [ f_equal; frame | reflexivity ].
Qed.

Lemma collision_names (children : list SceneChild) :
  Forall (fun n => n = collisionName) (map childName (filter isCollisionChild children)).
Proof.
  induction children as [| c rest IH]; simpl; [ constructor | ].
  unfold isCollisionChild at 1.
  destruct (String.eqb (childName c) collisionName) eqn:E; simpl; [ | exact IH ].
  destruct (isMesh c); simpl; [ | exact IH ].
  constructor; [ apply String.eqb_eq; exact E | exact IH ].
Qed.

Lemma scanBoxes_unrestricted (names : list string) (p : Vector3) :
  Forall (fun n => n = collisionName) names ->
  forall (boxes : list Box3) (i : nat),
    hasCollision (scanBoxes names i boxes p)
    = existsb (fun box => surfaceHit basketballRadius box p) boxes.
Proof.
  intros Hnames. induction boxes as [| b rest IH]; intros i; simpl; [ reflexivity | ].
  destruct (surfaceHit basketballRadius b p); simpl; [ | apply IH ].
  assert (Ha : faceAllowed (nth_error names i) (classifyFace b p) = true).
  { destruct (nth_error names i) as [n |] eqn:En; [ | reflexivity ].
    apply nth_error_In in En. rewrite Forall_forall in Hnames.
    rewrite (Hnames n En). reflexivity. }
  rewrite Ha. reflexivity.
Qed.

(** X21.  [createCourtCollisions] discards the boxes it finds and builds one
    box for each mesh of the court named [Object_7], in traversal order; the
    names are appended to [collisionObjectNames], which is not emptied.  So
    building twice gives the same boxes, and twice the names. *)
Theorem rebuilding_court_boxes_appends_names_again :
  forall (court : Court) (s : State),
    let once := createCourtCollisions (Some court) s in
    let twice := createCourtCollisions (Some court) once in
    collisionBoxes once
    = map (worldBoxOf court) (filter isCollisionChild (courtChildren court)) /\
    collisionBoxes twice = collisionBoxes once /\
    collisionObjectNames twice
    = collisionObjectNames s
      ++ map childName (filter isCollisionChild (courtChildren court))
      ++ map childName (filter isCollisionChild (courtChildren court)).
Proof.
  intros court s once twice. unfold twice, once.
  destruct (createCourtCollisions_lists court s) as [B1 N1].
  destruct (createCourtCollisions_lists court (createCourtCollisions (Some court) s))
    as [B2 N2].
  rewrite B2, N2, B1, N1, <- app_assoc. repeat split; reflexivity.
Qed.

(** X22.  With the boxes and names [createCourtCollisions] builds on a
    component whose name list holds nothing but [Object_7] (it is empty at
    construction), the face rule of [Object_28] never applies: the ball query
    reports a hit exactly when the ball touches one of the boxes. *)
Theorem court_boxes_are_never_face_restricted :
  forall (court : Court) (s : State) (center : Vector3),
    Forall (fun n => n = collisionName) (collisionObjectNames s) ->
    let s' := createCourtCollisions (Some court) s in
    hasCollision
      (checkBasketballCollision (collisionBoxes s') (collisionObjectNames s') center)
    = existsb (fun box => surfaceHit basketballRadius box center) (collisionBoxes s').
Proof.
  intros court s center Hnames s'. unfold checkBasketballCollision.
  apply scanBoxes_unrestricted. unfold s'.
  destruct (createCourtCollisions_lists court s) as [_ ->].
  apply Forall_app. split; [ exact Hnames | apply collision_names ].
Qed.

(** X23.  Every box built for the court as [loadBasketballCourt] places it
    (scale 4, 3, 3, lowered by 2.1) comes from a mesh named [Object_7]: the
    bounding box of the mesh scaled and moved with the court, with the top
    raised by two more units. *)
Theorem court_box_is_scaled_and_raised :
  forall (children : list SceneChild) (s : State) (b : Box3),
    In b (collisionBoxes (createCourtCollisions (Some (loadedCourt children)) s)) ->
    exists child,
      In child children /\ childName child = collisionName /\ isMesh child = true /\
      box_min b = vec3 (vec_x (box_min (localBox child)) * 4)
                       (vec_y (box_min (localBox child)) * 3 - 21 / 10)
                       (vec_z (box_min (localBox child)) * 3) /\
      box_max b = vec3 (vec_x (box_max (localBox child)) * 4)
                       (vec_y (box_max (localBox child)) * 3 - 21 / 10 + 2)
                       (vec_z (box_max (localBox child)) * 3).
Proof.
  intros children s b Hin.
  destruct (createCourtCollisions_lists (loadedCourt children) s) as [Hb _].
  rewrite Hb in Hin. apply in_map_iff in Hin. destruct Hin as (child & <- & Hc).
  apply filter_In in Hc. destruct Hc as [Hc Hk].
  unfold isCollisionChild in Hk. apply andb_prop in Hk. destruct Hk as [Hname Hmesh].
  exists child. split; [ exact Hc | ]. split; [ apply String.eqb_eq; exact Hname | ].
  split; [ exact Hmesh | ].
  unfold worldBoxOf. rewrite Hname. unfold loadedCourt.
  cbn [courtScale courtPosition box_min box_max vec_x vec_y vec_z].
  split; f_equal; ring.
Qed.

Lemma court_boxes_are_never_face_restricted_witness :
  let s' := createCourtCollisions (Some (loadedCourt demoChildren)) st0 in
  hasCollision
    (checkBasketballCollision (collisionBoxes s') (collisionObjectNames s') (vec3 0 0 0))
  = existsb (fun box => surfaceHit basketballRadius box (vec3 0 0 0)) (collisionBoxes s').
Proof.
  apply (court_boxes_are_never_face_restricted (loadedCourt demoChildren) st0 (vec3 0 0 0)).
  constructor.
Defined.

Lemma court_box_is_scaled_and_raised_witness :
  exists child,
    In child demoChildren /\ childName child = collisionName /\ isMesh child = true /\
    box_min (worldBoxOf (loadedCourt demoChildren) wallChild)
    = vec3 (vec_x (box_min (localBox child)) * 4)
           (vec_y (box_min (localBox child)) * 3 - 21 / 10)
           (vec_z (box_min (localBox child)) * 3) /\
    box_max (worldBoxOf (loadedCourt demoChildren) wallChild)
    = vec3 (vec_x (box_max (localBox child)) * 4)
           (vec_y (box_max (localBox child)) * 3 - 21 / 10 + 2)
           (vec_z (box_max (localBox child)) * 3).
Proof.
  apply (court_box_is_scaled_and_raised demoChildren st0
           (worldBoxOf (loadedCourt demoChildren) wallChild)).
  destruct (createCourtCollisions_lists (loadedCourt demoChildren) st0) as [-> _].
  left. reflexivity.
Defined.

(** ** Camera controls *)

Module CameraFacts.
Import CameraControls.

Lemma clamp_range (lo hi x : R) : lo <= hi -> lo <= Rmax lo (Rmin hi x) <= hi.
Proof.
  intros H. split; [ apply Rmax_l | ].
  apply Rmax_lub; [ exact H | apply Rmin_l ].
Qed.

Lemma handle_cameraInRange (c : t) (e : MouseEvent) :
  cameraInRange c -> cameraInRange (handle c e).
Proof.
  intros [Hd Hv]. assert (Hpi := PI_RGT_0).
  destruct e as [x y | | x y | d]; unfold handle.
  - split; assumption.
  - split; assumption.
  - unfold onMouseMove. destruct (isMouseDown c); [ | split; assumption ].
    split; [ exact Hd | ]. cbn [cameraVerticalAngle]. apply clamp_range. lra.
  - unfold onWheel. split; [ | exact Hv ]. cbn [cameraDistance].
    apply clamp_range. lra.
Qed.

Lemma handleAll_cameraInRange (es : list MouseEvent) :
  forall c, cameraInRange c -> cameraInRange (handleAll es c).
Proof.
  unfold handleAll. induction es as [| e rest IH]; intros c H; simpl; [ exact H | ].
  apply IH, handle_cameraInRange, H.
Qed.

Lemma drag_angle (moves : list (R * R)) :
  forall (c : t) (x0 y0 : R),
    isMouseDown c = true -> lastMouseX c = x0 ->
    let c' := handleAll (map (fun m => MouseMove (fst m) (snd m)) moves) c in
    cameraAngle c' = cameraAngle c - (fst (last moves (x0, y0)) - x0) * (1 / 100) /\
    cameraDistance c' = cameraDistance c.
Proof.
  unfold handleAll.
  induction moves as [| [x y] rest IH]; intros c x0 y0 Hdown Hlast.
  - simpl. split; [ ring | reflexivity ].
  - cbn [map fold_left fst snd handle].
    destruct (IH (onMouseMove x y c) x y) as [Ha Hd].
    + unfold onMouseMove. rewrite Hdown. reflexivity.
    + unfold onMouseMove. rewrite Hdown. reflexivity.
    + cbv zeta in Ha, Hd |- *. rewrite Ha, Hd.
      unfold onMouseMove. rewrite Hdown. cbn [cameraAngle cameraDistance].
      rewrite Hlast. split; [ | reflexivity ].
      destruct rest as [| m rest']; [ simpl; ring | ].
      replace (last ((x, y) :: m :: rest') (x0, y0)) with (last (m :: rest') (x, y)).
      * ring.
      * clear. revert m. induction rest' as [| m' r IHr]; intros m; [ reflexivity | ].
        change (last (m :: m' :: r) (x, y)) with (last (m' :: r) (x, y)).
        change (last ((x, y) :: m :: m' :: r) (x0, y0))
          with (last ((x, y) :: m' :: r) (x0, y0)).
        apply IHr.
Qed.

End CameraFacts.

(** X24.  Whatever the mouse does (press, release, move, wheel, in any
    order), the zoom stays within 1 and 10 and the vertical angle of the
    camera within -PI/3 and PI/3. *)
Theorem camera_zoom_and_tilt_stay_in_range :
  forall es : list CameraControls.MouseEvent,
    let c := CameraControls.handleAll es CameraControls.initial in
    1 <= CameraControls.cameraDistance c <= 10 /\
    - PI / 3 <= CameraControls.cameraVerticalAngle c <= PI / 3.
Proof.
  intros es. apply CameraFacts.handleAll_cameraInRange.
  assert (Hpi := PI_RGT_0).
  unfold cameraInRange, CameraControls.initial. simpl. lra.
Qed.

(** X25.  A drag turns the camera by the horizontal distance between the
    press and the last mouse position, a hundredth of a radian per pixel and
    against the mouse: the path in between does not matter, and the zoom is
    not touched. *)
Theorem drag_turns_camera_by_net_distance :
  forall (c : CameraControls.t) (x0 y0 : R) (moves : list (R * R)),
    let events :=
      CameraControls.MouseDown x0 y0
      :: map (fun m => CameraControls.MouseMove (fst m) (snd m)) moves in
    let c' := CameraControls.handleAll events c in
    CameraControls.cameraAngle c'
    = CameraControls.cameraAngle c - (fst (last moves (x0, y0)) - x0) * (1 / 100) /\
    CameraControls.cameraDistance c' = CameraControls.cameraDistance c.
Proof.
  intros c x0 y0 moves events c'.
  exact (CameraFacts.drag_angle moves (CameraControls.onMouseDown x0 y0 c) x0 y0
           eq_refl eq_refl).
Qed.

(** ** The lock is released when the clip ends *)

Ltac sameA := unfold sameAnim; repeat (apply conj); frame.

Lemma sameAnim_refl (s : State) : sameAnim s s.
Proof. repeat split. Qed.

Lemma sameAnim_trans (s1 s2 s3 : State) :
  sameAnim s1 s2 -> sameAnim s2 s3 -> sameAnim s1 s3.
Proof.
  unfold sameAnim. intros (A1 & A2 & A3 & A4 & A5) (B1 & B2 & B3 & B4 & B5).
  repeat split; congruence.
Qed.

Lemma sameAnim_clipInv (s s' : State) : sameAnim s s' -> clipInv s -> clipInv s'.
Proof.
  unfold sameAnim, clipInv, loopsInv, lockInv, lockedClipInv, action.
  intros (A1 & A2 & A3 & A4 & A5). rewrite A1, A2, A3, A4, A5. auto.
Qed.

Lemma throwBasketball_sameAnim s : sameAnim s (throwBasketball s).
Proof. unfold throwBasketball. split_cases; sameA. Qed.

Lemma updateBasketballInHand_sameAnim s : sameAnim s (updateBasketballInHand s).
Proof.
  unfold updateBasketballInHand.
  destruct (basketball s); [ | apply sameAnim_refl ].
  destruct (avatar s); [ | apply sameAnim_refl ].
  destruct (negb (hasBall s)); [ apply sameAnim_refl | ].
  destruct (ballWasThrown s); [ sameA | ].
  destruct (negb (isThrowingBall s) && Rgtb (vlength (basketballVelocity s)) (1 / 10));
    [ sameA | ].
  cbv zeta.
  destruct (if isThrowingBall s then currentAction s else None);
    [ | sameA ].
  destruct (action s a0); [ | sameA ].
  destruct (Rleb (progressOf a1) (6 / 10)); [ sameA | ].
  destruct (hasBall s); [ | apply sameAnim_refl ].
  apply (sameAnim_trans s (set_hasBall false (log LogReleasing s)) _);
    [ sameA | apply throwBasketball_sameAnim ].
Qed.

Lemma attachBasketballToHand_sameAnim s : sameAnim s (attachBasketballToHand s).
Proof.
  unfold attachBasketballToHand.
  destruct (basketball s); [ | apply sameAnim_refl ].
  destruct (avatar s); [ | apply sameAnim_refl ].
  match goal with
  | |- sameAnim _ (updateBasketballInHand ?x) =>
      apply (sameAnim_trans _ x _); [ sameA | apply updateBasketballInHand_sameAnim ]
  end.
Qed.

Lemma groundCollision_sameAnim (b : Basketball) (s : State) :
  sameAnim s (groundCollision b s).
Proof. unfold groundCollision. split_cases; sameA. Qed.

Lemma updateBasketballPhysics_sameAnim (delta : R) (s : State) :
  sameAnim s (updateBasketballPhysics delta s).
Proof.
  unfold updateBasketballPhysics.
  destruct (basketball s) as [b |]; [ | apply sameAnim_refl ].
  destruct (hasBall s); [ apply updateBasketballInHand_sameAnim | ].
  destruct (Rltb (vec_y (ballPosition b)) (- 10)); [ sameA | ].
  destruct (Rgtb (vlength (ballPosition b)) 50); [ sameA | ].
  cbv zeta.
  match goal with
  | |- context [checkBasketballCollision ?x ?y ?z] =>
      destruct (checkBasketballCollision x y z) as [hit face]
  end.
  simpl. destruct hit; [ destruct face | ];
    (eapply sameAnim_trans; [ | apply groundCollision_sameAnim ]); sameA.
Qed.

Lemma updateCameraPosition_sameAnim (s : State) : sameAnim s (updateCameraPosition s).
Proof. destruct (updateCameraPosition_eq s) as [a ->]. sameA. Qed.

Lemma onAction_anim k f s :
  isTransitioning (onAction k f s) = isTransitioning s /\
  currentState (onAction k f s) = currentState s /\
  listeners (onAction k f s) = listeners s /\
  activeActions (onAction k f s) = activeActions s.
Proof. unfold onAction. split_cases; repeat (apply conj); frame. Qed.

(** *** Loop modes *)

Lemma lookupAction_In (k : AnimState) (l : list (AnimState * AnimationAction))
      (a : AnimationAction) :
  lookupAction k l = Some a -> In (k, a) l.
Proof.
  induction l as [| [k0 a0] rest IH]; simpl; intros H; [ discriminate | ].
  destruct (AnimState_eqb k0 k) eqn:E.
  - apply AnimState_eqb_eq in E. left. congruence.
  - right. apply IH, H.
Qed.

Lemma loopsInv_action (s : State) (k : AnimState) (a : AnimationAction) :
  loopsInv s -> action s k = Some a -> loop a = loopOf k.
Proof.
  unfold loopsInv, action. intros H Ha. apply lookupAction_In in Ha.
  rewrite Forall_forall in H. exact (H _ Ha).
Qed.

Lemma setAction_loops (k : AnimState) (a' : AnimationAction) (s : State) :
  loop a' = loopOf k -> loopsInv s -> loopsInv (setAction k a' s).
Proof.
  unfold loopsInv, setAction. cbn [actions set_actions]. intros Ha H.
  induction H as [| e rest He _ IH]; simpl; constructor; [ | exact IH ].
  destruct (AnimState_eqb (fst e) k) eqn:E; [ | exact He ].
  apply AnimState_eqb_eq in E. simpl. congruence.
Qed.

Lemma onAction_loops (k : AnimState) (f : AnimationAction -> AnimationAction)
      (s : State) :
  (forall a, loop (f a) = loop a) -> loopsInv s -> loopsInv (onAction k f s).
Proof.
  intros Hf H. unfold onAction. destruct (action s k) as [a |] eqn:Ha; [ | exact H ].
  apply setAction_loops; [ | exact H ]. rewrite Hf. apply (loopsInv_action s); assumption.
Qed.

Lemma loopsInv_same (s s' : State) : actions s' = actions s -> loopsInv s -> loopsInv s'.
Proof. unfold loopsInv. intros ->. auto. Qed.

Lemma updateTime_loop (dt : R) (a : AnimationAction) :
  loop (fst (updateTime dt a)) = loop a.
Proof.
  unfold updateTime. destruct (loop a).
  - reflexivity.
  - match goal with |- context [if ?c then _ else _] => destruct c end;
      reflexivity.
Qed.

Lemma updateWeight_loop (now : R) (a : AnimationAction) :
  loop (updateWeight now a) = loop a.
Proof.
  unfold updateWeight. destruct (enabled a); [ | reflexivity ].
  destruct (fading a) as [[kind e] |]; [ | reflexivity ].
  destruct (Rgtb now e); reflexivity.
Qed.

(** *** Starting a clip *)

Lemma playAnimation_startClip (state : AnimState) (s : State) (a : AnimationAction) :
  action s state = Some a ->
  playAnimation state s
  = match state with
    | standingtocrouched =>
        let s := set_isTransitioning true (startClip state s) in
        let (l, s) := bind OnCrouchFinished s in
        addEventListener l s
    | throwball =>
        let s := set_isTransitioning true (startClip state s) in
        let s := set_isThrowingBall true s in
        let (l, s) := bind OnThrowFinished s in
        addEventListener l s
    | _ => startClip state s
    end.
Proof. intros Ha. unfold playAnimation, startClip. rewrite Ha. reflexivity. Qed.

Lemma play_anim k s :
  isTransitioning (play k s) = isTransitioning s /\
  currentState (play k s) = currentState s /\
  listeners (play k s) = listeners s /\
  actions (play k s) = actions s /\
  In k (activeActions (play k s)).
Proof.
  unfold play. destruct (existsb (AnimState_eqb k) (activeActions s)) eqn:E.
  - repeat (apply conj); try reflexivity.
    apply existsb_exists in E. destruct E as (k' & Hin & Hk).
    apply AnimState_eqb_eq in Hk. subst k'. exact Hin.
  - repeat (apply conj); try frame.
    cbn [activeActions set_activeActions]. apply in_or_app. right. left. reflexivity.
Qed.

Lemma startClip_facts (state : AnimState) (s : State) (a : AnimationAction) :
  action s state = Some a ->
  isTransitioning (startClip state s) = isTransitioning s /\
  listeners (startClip state s) = listeners s /\
  (loopsInv s -> loopsInv (startClip state s)) /\
  In state (activeActions (startClip state s)) /\
  exists a', action (startClip state s) state = Some a' /\ inProgress a'.
Proof.
  intros Ha. unfold startClip. cbv zeta.
  set (s1 := match currentAction s with
             | Some cur =>
                 if negb (AnimState_eqb cur state)
                 then onAction cur (fadeOut (mixerTime s) (3 / 10)) s
                 else s
             | None => s
             end).
  assert (H1 : isTransitioning s1 = isTransitioning s /\ listeners s1 = listeners s /\
               (loopsInv s -> loopsInv s1) /\
               exists a1, action s1 state = Some a1).
  { unfold s1. destruct (currentAction s) as [cur |]; [ | eauto 6 ].
    destruct (AnimState_eqb cur state) eqn:E; simpl negb; cbv iota; [ eauto 6 | ].
    destruct (onAction_anim cur (fadeOut (mixerTime s) (3 / 10)) s) as (B1 & _ & B3 & _).
    split; [ exact B1 | ]. split; [ exact B3 | ].
    split; [ apply onAction_loops; reflexivity | ].
    exists a. unfold onAction. destruct (action s cur); [ | exact Ha ].
    unfold action, setAction. cbn [actions set_actions].
    rewrite lookupAction_map_other; [ exact Ha | ].
    intros ->. rewrite AnimState_eqb_refl in E. discriminate. }
  destruct H1 as (B1 & B3 & BL & a1 & Ha1).
  set (s2 := set_currentAction (Some state) s1).
  assert (Ha2 : action s2 state = Some a1) by exact Ha1.
  set (f := fun a0 => fadeIn (mixerTime s2) (3 / 10) (reset a0)).
  destruct (play_anim state (onAction state f s2)) as (C1 & _ & C3 & C4 & C5).
  destruct (onAction_anim state f s2) as (D1 & _ & D3 & _).
  split; [ rewrite C1, D1; exact B1 | ].
  split; [ rewrite C3, D3; exact B3 | ].
  split.
  { intros HL. apply (loopsInv_same (onAction state f s2)); [ exact C4 | ].
    apply onAction_loops; [ reflexivity | ].
    apply (loopsInv_same s1); [ reflexivity | apply BL, HL ]. }
  split; [ exact C5 | ].
  exists (f a1). split.
  - unfold action. rewrite C4. rewrite (onAction_eq state f s2 a1 Ha2).
    apply action_setAction_same with (a := a1). exact Ha2.
  - unfold inProgress, f. simpl. repeat split. intros e. discriminate.
Qed.

Lemma playAnimation_loops (state : AnimState) (s : State) :
  loopsInv s -> loopsInv (playAnimation state s).
Proof.
  intros H. destruct (action s state) as [a |] eqn:Ha.
  - rewrite (playAnimation_startClip state s a Ha).
    destruct (startClip_facts state s a Ha) as (_ & _ & HL & _).
    specialize (HL H).
    destruct state; try exact HL; cbv zeta; unfold bind, addEventListener;
      match goal with |- context [if ?c then _ else _] => destruct c end;
      (eapply loopsInv_same; [ | exact HL ]); frame.
  - unfold playAnimation. rewrite Ha. exact H.
Qed.

Lemma unlocked_clipInv (s : State) :
  loopsInv s -> isTransitioning s = false -> clipInv s.
Proof.
  intros HL Ht. split; [ exact HL | ].
  split; [ apply unlocked_lockInv, Ht | ].
  unfold lockedClipInv. rewrite Ht. discriminate.
Qed.

(** A clip started from the unlocked character, and recorded *)
Lemma play_clipInv (state : AnimState) (s : State) :
  loopsInv s -> isTransitioning s = false ->
  clipInv (set_currentState state (playAnimation state s)).
Proof.
  intros HL Ht.
  assert (HL' : loopsInv (set_currentState state (playAnimation state s))).
  { apply (loopsInv_same (playAnimation state s)); [ frame | ].
    apply playAnimation_loops, HL. }
  destruct (isPlayOnce state) eqn:Hp.
  - split; [ exact HL' | ]. split; [ apply play_once_lockInv; assumption | ].
    destruct (action s state) as [a |] eqn:Ha.
    + rewrite (playAnimation_startClip state s a Ha).
      destruct (startClip_facts state s a Ha) as (_ & _ & _ & Hin & a' & Ha' & Hprog).
      intros _. unfold action in Ha' |- *.
      destruct state; try discriminate Hp; cbv zeta; unfold bind, addEventListener;
        match goal with |- context [if ?c then _ else _] => destruct c end;
        (split; [ exact Hin | exists a'; split; [ exact Ha' | exact Hprog ] ]).
    + unfold playAnimation. rewrite Ha. unfold lockedClipInv.
      change (isTransitioning (set_currentState state s)) with (isTransitioning s).
      rewrite Ht. discriminate.
  - apply unlocked_clipInv; [ exact HL' | ].
    destruct (playAnimation_plain state s Hp) as (_ & A2 & _).
    change (isTransitioning (playAnimation state s) = false). rewrite A2. exact Ht.
Qed.

(** *** The completion handlers *)

Lemma call_loops (h : Handler) (s : State) : loopsInv s -> loopsInv (call h s).
Proof.
  intros H. destruct h; unfold call.
  - unfold onCrouchFinished, bind. cbv beta iota zeta.
    match goal with
    | |- loopsInv (log _ (set_currentState _ (playAnimation ?k (attachBasketballToHand ?x)))) =>
        apply (loopsInv_same (playAnimation k (attachBasketballToHand x))); [ frame | ];
        apply playAnimation_loops;
        destruct (attachBasketballToHand_sameAnim x) as (_ & _ & _ & A4 & _);
        apply (loopsInv_same x); [ exact A4 | ];
        apply (loopsInv_same s); [ frame | exact H ]
    end.
  - unfold onThrowFinished, bind. cbv beta iota zeta.
    match goal with
    | |- loopsInv (set_currentState _ (playAnimation ?k ?x)) =>
        apply (loopsInv_same (playAnimation k x)); [ frame | ];
        apply playAnimation_loops;
        apply (loopsInv_same s); [ frame | exact H ]
    end.
Qed.

Lemma dispatchFinished_loops (s : State) : loopsInv s -> loopsInv (dispatchFinished s).
Proof.
  unfold dispatchFinished. apply fold_left_inv. intros s' l. apply call_loops.
Qed.

Lemma dispatchFinished_unlocks (s : State) :
  lockInv s -> isTransitioning (dispatchFinished s) = false.
Proof.
  intros H. unfold dispatchFinished. destruct (listeners s) as [| l rest] eqn:Hl.
  - simpl. destruct (isTransitioning s) eqn:Ht; [ | reflexivity ].
    destruct (H Ht) as [_ Hne]. congruence.
  - apply dispatch_unlocks. discriminate.
Qed.

(** *** One action advanced by the mixer *)

Lemma updateTime_continue (dt : R) (a : AnimationAction) :
  snd (updateTime dt a) = false -> inProgress a -> inProgress (fst (updateTime dt a)).
Proof.
  unfold updateTime, inProgress. destruct (loop a).
  - simpl. auto.
  - match goal with |- context [if ?c then _ else _] => destruct c end; simpl;
      [ discriminate | auto ].
Qed.

Lemma updateWeight_inProgress (now : R) (a : AnimationAction) :
  inProgress a -> inProgress (updateWeight now a).
Proof.
  intros H. assert (H' := H). destruct H as (He & Hp & Hf).
  unfold updateWeight. rewrite He.
  destruct (fading a) as [[kind e] |] eqn:E; [ | exact H' ].
  destruct (Rgtb now e); [ | exact H' ].
  destruct kind; [ | exfalso; exact (Hf e eq_refl) ].
  unfold inProgress. simpl. repeat split; auto. intros e'. discriminate.
Qed.

Lemma action_setAction_other (k k' : AnimState) (a' : AnimationAction) (s : State) :
  k' <> k -> action (setAction k a' s) k' = action s k'.
Proof.
  intros Hne. unfold action, setAction. cbn [actions set_actions].
  apply lookupAction_map_other. exact Hne.
Qed.

Lemma action_onAction_other (k k' : AnimState) (f : AnimationAction -> AnimationAction)
      (s : State) :
  k' <> k -> action (onAction k f s) k' = action s k'.
Proof.
  intros Hne. unfold onAction. destruct (action s k); [ | reflexivity ].
  apply action_setAction_other. exact Hne.
Qed.

Lemma action_onAction_same (k : AnimState) (f : AnimationAction -> AnimationAction)
      (s : State) (a : AnimationAction) :
  action s k = Some a -> action (onAction k f s) k = Some (f a).
Proof.
  intros Ha. rewrite (onAction_eq k f s a Ha).
  apply action_setAction_same with (a := a). exact Ha.
Qed.

(** What [_update] does to a state that stays locked: the lock, the
    recorded state and the active actions are kept, the other actions are
    not touched, and an action in progress stays in progress *)
Lemma updateAction_shape (delta : R) (s : State) (k : AnimState) :
  lockInv s ->
  let s' := updateAction delta s k in
  isTransitioning s' = false \/
  (isTransitioning s' = isTransitioning s /\ currentState s' = currentState s /\
   activeActions s' = activeActions s /\
   (forall k', k' <> k -> action s' k' = action s k') /\
   (forall a, action s k = Some a -> inProgress a ->
              exists a', action s' k = Some a' /\ inProgress a')).
Proof.
  intros Hlock s'. unfold s', updateAction.
  destruct (action s k) as [a |] eqn:Ha.
  2:{ right. repeat split; auto. intros a Hx. discriminate Hx. }
  destruct (enabled a) eqn:He; simpl negb; cbv iota.
  2:{ right. repeat split; auto. intros a0 Hx Hp. exists a0. split; [ congruence | assumption ]. }
  cbv zeta.
  set (dt := if paused a then 0 else delta).
  destruct (Rltb dt 0 || Rltb 0 dt).
  - destruct (updateTime dt a) as [a1 finished] eqn:Hu.
    destruct finished.
    + left.
      match goal with
      | |- isTransitioning (onAction k ?f ?x) = false =>
          destruct (onAction_anim k f x) as (-> & _)
      end.
      apply dispatchFinished_unlocks.
      apply (lockInv_same s); [ frame | frame | frame | exact Hlock ].
    + right.
      match goal with
      | |- context [onAction k ?f ?x] =>
          destruct (onAction_anim k f x) as (-> & -> & _ & ->)
      end.
      split; [ frame | ]. split; [ frame | ]. split; [ frame | ].
      split.
      * intros k' Hne. rewrite action_onAction_other by exact Hne.
        apply action_setAction_other. exact Hne.
      * intros a0 Ha0 Hprog. assert (a0 = a) as -> by congruence.
        eexists. split.
        { apply action_onAction_same. apply action_setAction_same with (a := a).
          exact Ha. }
        apply updateWeight_inProgress.
        replace a1 with (fst (updateTime dt a)) by (rewrite Hu; reflexivity).
        apply updateTime_continue; [ rewrite Hu; reflexivity | exact Hprog ].
  - right.
    match goal with
    | |- context [onAction k ?f ?x] =>
        destruct (onAction_anim k f x) as (-> & -> & _ & ->)
    end.
    repeat (split; [ reflexivity | ]).
    split.
    + intros k' Hne. apply action_onAction_other. exact Hne.
    + intros a0 Ha0 Hprog. assert (a0 = a) as -> by congruence.
      eexists. split; [ apply action_onAction_same; exact Ha | ].
      apply updateWeight_inProgress, Hprog.
Qed.

Lemma updateAction_loops (delta : R) (s : State) (k : AnimState) :
  loopsInv s -> loopsInv (updateAction delta s k).
Proof.
  intros H. unfold updateAction.
  destruct (action s k) as [a |] eqn:Ha; [ | exact H ].
  destruct (negb (enabled a)); [ exact H | ].
  cbv zeta. apply onAction_loops; [ intros a0; apply updateWeight_loop | ].
  match goal with |- loopsInv (if ?c then _ else _) => destruct c end; [ | exact H ].
  match goal with
  | |- context [updateTime ?dt a] =>
      assert (Hl := updateTime_loop dt a); destruct (updateTime dt a) as [a1 finished]
  end.
  simpl in Hl.
  assert (H1 : loopsInv (setAction k a1 s)).
  { apply setAction_loops; [ | exact H ]. rewrite Hl.
    apply (loopsInv_action s); assumption. }
  destruct finished; [ apply dispatchFinished_loops | ]; exact H1.
Qed.

Lemma updateAction_clipInv (delta : R) (s : State) (k : AnimState) :
  clipInv s -> clipInv (updateAction delta s k).
Proof.
  intros (HL & Hlock & Hclip).
  assert (HL' := updateAction_loops delta s k HL).
  destruct (updateAction_shape delta s k Hlock) as [Hu | (B1 & B2 & B3 & B4 & B5)].
  - apply unlocked_clipInv; assumption.
  - split; [ exact HL' | ]. split; [ apply updateAction_lockInv, Hlock | ].
    intros Ht. rewrite B1 in Ht. destruct (Hclip Ht) as (Hin & a & Ha & Hprog).
    rewrite B2, B3. split; [ exact Hin | ].
    destruct (AnimState_eqb (currentState s) k) eqn:E.
    + apply AnimState_eqb_eq in E. rewrite E in Ha |- *. apply (B5 a); assumption.
    + exists a. split; [ | exact Hprog ]. rewrite B4; [ exact Ha | ].
      intros Hx. rewrite Hx, AnimState_eqb_refl in E. discriminate.
Qed.

Lemma mixerUpdate_clipInv (delta : R) (s : State) :
  clipInv s -> clipInv (mixerUpdate delta s).
Proof.
  intros H. unfold mixerUpdate. cbv zeta. apply fold_left_inv.
  - intros s' k. apply updateAction_clipInv.
  - apply (sameAnim_clipInv s); [ sameA | exact H ].
Qed.

Lemma handleMovement_clipInv (delta : R) (s : State) :
  clipInv s -> clipInv (handleMovement delta s).
Proof.
  intros H. unfold handleMovement.
  destruct (avatar s) as [av |]; [ | exact H ].
  destruct (isTransitioning s) eqn:Htr; [ exact H | ].
  destruct H as (HL & _). cbv zeta.
  eapply sameAnim_clipInv; [ apply updateCameraPosition_sameAnim | ].
  destruct (Rgtb (vlength (moveDirOf s)) 0).
  - match goal with
    | |- clipInv (if _ then set_currentState ?n (playAnimation ?n ?x) else ?x) =>
        assert (Hx : loopsInv x /\ isTransitioning x = false)
    end.
    { match goal with |- context [if ?c then _ else _] => destruct c end;
        (split; [ apply (loopsInv_same s); [ frame | exact HL ] | exact Htr ]). }
    destruct Hx as [HxL Hxt].
    match goal with |- clipInv (if ?c then _ else _) => destruct c end.
    + apply play_clipInv; assumption.
    + apply unlocked_clipInv; assumption.
  - match goal with |- clipInv (if ?c then _ else _) => destruct c end.
    + apply play_clipInv; assumption.
    + apply unlocked_clipInv; assumption.
Qed.

Lemma onKeyDown_clipInv (name : string) (s : State) :
  clipInv s -> clipInv (onKeyDown name s).
Proof.
  intros H. unfold onKeyDown. cbv zeta.
  assert (Hk : clipInv (setKey name true s))
    by (apply (sameAnim_clipInv s); [ sameA | exact H ]).
  destruct H as (HL & _).
  match goal with |- clipInv (if ?c then _ else _) => destruct c eqn:Hpick end.
  - assert (Htr : isTransitioning s = false).
    { apply andb_prop in Hpick. destruct Hpick as [Hpick _].
      apply andb_prop in Hpick. destruct Hpick as [_ Hpick].
      simpl in Hpick. destruct (isTransitioning s); [ discriminate | reflexivity ]. }
    apply play_clipInv; [ apply (loopsInv_same s); [ frame | exact HL ] | exact Htr ].
  - match goal with |- clipInv (if ?c then _ else _) => destruct c eqn:Hthrow end;
      [ | exact Hk ].
    assert (Htr : isTransitioning s = false).
    { apply andb_prop in Hthrow. destruct Hthrow as [_ Hthrow].
      simpl in Hthrow. destruct (isTransitioning s); [ discriminate | reflexivity ]. }
    apply play_clipInv; [ apply (loopsInv_same s); [ frame | exact HL ] | exact Htr ].
Qed.

Lemma step_clipInv (e : Event) (s : State) : clipInv s -> clipInv (step e s).
Proof.
  intros H. destruct e; simpl.
  - unfold animate. cbv zeta.
    eapply sameAnim_clipInv; [ apply updateCameraPosition_sameAnim | ].
    eapply sameAnim_clipInv; [ apply updateBasketballPhysics_sameAnim | ].
    apply handleMovement_clipInv, mixerUpdate_clipInv, H.
  - apply onKeyDown_clipInv, H.
  - apply (sameAnim_clipInv s); [ sameA | exact H ].
  - apply (sameAnim_clipInv s); [ sameA | exact H ].
Qed.

Lemma loadedActions_loops (clips : AnimState -> option R) :
  Forall (fun e => loop (snd e) = loopOf (fst e)) (loadedActions clips).
Proof.
  unfold loadedActions. rewrite Forall_forall. intros [k a] Hin.
  apply in_flat_map in Hin. destruct Hin as (k' & _ & Hin).
  destruct (clips k') as [d |]; [ | destruct Hin ].
  destruct Hin as [Heq | []]. injection Heq as <- <-. reflexivity.
Qed.

Lemma reachable_clipInv clips boxes names (s : State) :
  reachable clips boxes names s -> clipInv s.
Proof.
  induction 1 as [| s e _ IH _].
  - unfold initialState.
    match goal with
    | |- clipInv (playAnimation idle ?x) =>
        apply unlocked_clipInv;
          [ apply playAnimation_loops; exact (loadedActions_loops clips)
          | destruct (playAnimation_plain idle x eq_refl) as (_ & A2 & _);
            rewrite A2; reflexivity ]
    end.
  - apply step_clipInv, IH.
Qed.

(** *** The frame in which the clip ends *)

Lemma updateAction_unlocked (delta : R) (s : State) (k : AnimState) :
  isTransitioning s = false -> isTransitioning (updateAction delta s k) = false.
Proof.
  intros Ht.
  destruct (updateAction_shape delta s k (unlocked_lockInv s Ht)) as [H | (H & _)].
  - exact H.
  - rewrite H. exact Ht.
Qed.

Lemma updateAction_finishing (delta : R) (s : State) (k : AnimState)
      (a : AnimationAction) :
  lockInv s -> action s k = Some a -> inProgress a -> loop a = LoopOnce ->
  0 < delta -> clipDuration a <= time a + delta ->
  isTransitioning (updateAction delta s k) = false.
Proof.
  intros Hlock Ha (He & Hp & _) Hl Hd Ht. unfold updateAction.
  rewrite Ha, He, Hp. simpl negb. cbv iota.
  rewrite (Rltb_intro_true 0 delta) by exact Hd.
  rewrite orb_true_r. cbv iota zeta.
  unfold updateTime, Rgeb. rewrite Hl.
  rewrite Rleb_intro_true by lra. simpl orb. cbv iota.
  match goal with
  | |- isTransitioning (onAction k ?f ?x) = false =>
      destruct (onAction_anim k f x) as (-> & _)
  end.
  apply dispatchFinished_unlocks.
  apply (lockInv_same s); [ frame | frame | frame | exact Hlock ].
Qed.

Lemma mixer_fold_unlocks (delta : R) (l : list AnimState) :
  0 < delta ->
  forall s,
    clipInv s ->
    (isTransitioning s = true ->
     In (currentState s) l /\
     exists a, action s (currentState s) = Some a /\ inProgress a /\
               clipDuration a <= time a + delta) ->
    isTransitioning (fold_left (updateAction delta) l s) = false.
Proof.
  intros Hd. induction l as [| k rest IH]; intros s Hinv Hlocked.
  - simpl. destruct (isTransitioning s); [ | reflexivity ].
    destruct (Hlocked eq_refl) as [[] _].
  - simpl. apply IH; [ apply updateAction_clipInv, Hinv | ].
    intros Ht'. destruct Hinv as (HL & Hlock & _).
    destruct (isTransitioning s) eqn:Ht.
    2:{ rewrite (updateAction_unlocked delta s k Ht) in Ht'. discriminate. }
    destruct (Hlocked eq_refl) as (Hin & a & Ha & Hprog & Hend).
    destruct (AnimState_eqb (currentState s) k) eqn:E.
    + apply AnimState_eqb_eq in E. exfalso.
      assert (Hl : loop a = LoopOnce).
      { rewrite (loopsInv_action s (currentState s) a HL Ha). unfold loopOf.
        destruct (Hlock Ht) as [[-> | ->] _]; reflexivity. }
      rewrite E in Ha.
      rewrite (updateAction_finishing delta s k a Hlock Ha Hprog Hl Hd Hend) in Ht'.
      discriminate.
    + assert (Hne : currentState s <> k).
      { intros Hx. rewrite Hx, AnimState_eqb_refl in E. discriminate. }
      destruct (updateAction_shape delta s k Hlock) as [Hu | (_ & B2 & _ & B4 & _)].
      * rewrite Hu in Ht'. discriminate.
      * rewrite B2. split.
        { destruct Hin as [Hx | Hx]; [ congruence | exact Hx ]. }
        exists a. rewrite (B4 _ Hne). auto.
Qed.

Lemma handleMovement_unlocked (delta : R) (s : State) :
  clipInv s -> isTransitioning s = false ->
  isTransitioning (handleMovement delta s) = false.
Proof.
  intros Hinv Ht. assert (H := handleMovement_clipInv delta s Hinv).
  destruct (isTransitioning (handleMovement delta s)) eqn:E; [ | reflexivity ].
  exfalso. destruct H as (_ & Hlock & _). destruct (Hlock E) as [Hc _].
  revert Hc E. unfold handleMovement.
  destruct (avatar s) as [av |]; [ | congruence ].
  rewrite Ht. cbv zeta.
  match goal with
  | |- context [updateCameraPosition ?x] =>
      destruct (updateCameraPosition_sameAnim x) as (-> & -> & _)
  end.
  assert (Hplay : forall k x, isPlayOnce k = false -> isTransitioning x = false ->
            isTransitioning (set_currentState k (playAnimation k x)) = false).
  { intros k x Hk Hx. destruct (playAnimation_plain k x Hk) as (_ & A2 & _).
    transitivity (isTransitioning (playAnimation k x)); [ frame | ].
    rewrite A2. exact Hx. }
  intros _.
  destruct (Rgtb (vlength (moveDirOf s)) 0).
  - match goal with
    | |- context [checkCollision ?b ?p] => destruct (checkCollision b p)
    end; simpl negb; cbv iota;
      match goal with |- context [if ?c then _ else _] => destruct c end;
      first [ rewrite Hplay; [ discriminate | apply newStateOf_plain | exact Ht ]
            | intros Hx; change (isTransitioning s = true) in Hx; congruence ].
  - match goal with |- context [if ?c then _ else _] => destruct c end;
      first [ rewrite Hplay;
              [ discriminate | destruct (hasBall s); reflexivity | exact Ht ]
            | intros Hx; congruence ].
Qed.

Lemma mixerUpdate_at_clip_end (s : State) (a : AnimationAction) (delta : R) :
  clipInv s -> isTransitioning s = true ->
  action s (currentState s) = Some a ->
  0 < delta -> clipDuration a <= time a + delta ->
  isTransitioning (mixerUpdate delta s) = false.
Proof.
  intros Hinv Ht Ha Hd Hend.
  unfold mixerUpdate. cbv zeta. apply mixer_fold_unlocks; [ exact Hd | | ].
  - apply (sameAnim_clipInv s); [ sameA | exact Hinv ].
  - intros _. destruct Hinv as (_ & _ & Hclip).
    destruct (Hclip Ht) as (Hin & a0 & Ha0 & Hprog).
    assert (a0 = a) as -> by congruence.
    split; [ exact Hin | ]. exists a. split; [ exact Ha | ]. split; assumption.
Qed.

(** X26.  The lock is always released: from any reachable state in which the
    character is locked, a frame that carries the clip of the recorded state
    to its end leaves the character unlocked, whatever listeners are
    registered and whatever else is playing. *)
Theorem frame_at_clip_end_unlocks :
  forall (clips : AnimState -> option R) (boxes : list Box3) (names : list string)
         (s : State) (a : AnimationAction) (delta : R),
    reachable clips boxes names s ->
    isTransitioning s = true ->
    action s (currentState s) = Some a ->
    0 < delta -> clipDuration a <= time a + delta ->
    isTransitioning (animate delta s) = false.
Proof.
  intros clips boxes names s a delta Hr Ht Ha Hd Hend.
  assert (Hinv := reachable_clipInv _ _ _ _ Hr).
  assert (Hmix := mixerUpdate_at_clip_end s a delta Hinv Ht Ha Hd Hend).
  unfold animate. cbv zeta.
  destruct (updateCameraPosition_sameAnim
              (updateBasketballPhysics delta
                 (handleMovement delta (mixerUpdate delta s)))) as (-> & _).
  destruct (updateBasketballPhysics_sameAnim delta
              (handleMovement delta (mixerUpdate delta s))) as (-> & _).
  apply handleMovement_unlocked; [ apply mixerUpdate_clipInv, Hinv | exact Hmix ].
Qed.

Lemma frame_at_clip_end_unlocks_witness : isTransitioning (animate 1 st6) = false.
Proof.
  apply (frame_at_clip_end_unlocks demoClips [] [] st6
           (mkAction 0 1 LoopOnce true false true (Some (FadeIn, 23 / 10))) 1
           reachable_st6).
  - rcbv. reflexivity.
  - rcbv. reflexivity.
  - lra.
  - simpl. lra.
Defined.

(** ** The flags at the end of a transition *)

Ltac sameF := unfold sameFlags; repeat (apply conj); frame.

Lemma sameFlags_refl (s : State) : sameFlags s s.
Proof. repeat split. Qed.

Lemma sameFlags_trans (s1 s2 s3 : State) :
  sameFlags s1 s2 -> sameFlags s2 s3 -> sameFlags s1 s3.
Proof.
  unfold sameFlags. intros (A1 & A2 & A3 & A4 & A5) (B1 & B2 & B3 & B4 & B5).
  repeat split; congruence.
Qed.

Lemma endedFlags_same (h : Handler) (s s' : State) :
  sameFlags s s' -> endedFlags h s -> endedFlags h s'.
Proof.
  unfold sameFlags, endedFlags. intros (A1 & A2 & A3 & A4 & A5).
  rewrite A1, A2, A3, A4, A5. auto.
Qed.

Lemma onAction_sameFlags k f s : sameFlags s (onAction k f s).
Proof. unfold onAction. split_cases; sameF. Qed.

Lemma playAnimation_plain_sameFlags (state : AnimState) (s : State) :
  isPlayOnce state = false -> sameFlags s (playAnimation state s).
Proof.
  intros Hp. destruct (playAnimation_plain state s Hp) as (A1 & A2 & _).
  repeat split; [ exact A2 | exact A1 | apply playAnimation_hasBall
                | apply playAnimation_isCrouched | apply playAnimation_ballWasThrown ].
Qed.

Lemma updateBasketballInHand_keeps_hold (s : State) :
  hasBall s = true -> ballWasThrown s = false -> isThrowingBall s = false ->
  sameFlags s (updateBasketballInHand s).
Proof.
  intros Hh Hw Ht. unfold updateBasketballInHand.
  destruct (basketball s); [ | apply sameFlags_refl ].
  destruct (avatar s); [ | apply sameFlags_refl ].
  rewrite Hh, Hw, Ht. simpl negb. cbv iota.
  destruct (true && Rgtb (vlength (basketballVelocity s)) (1 / 10)); [ sameF | ].
  cbv zeta. unfold placeBallInHand. sameF.
Qed.

Lemma attachBasketballToHand_keeps_hold (s : State) :
  hasBall s = true -> ballWasThrown s = false -> isThrowingBall s = false ->
  sameFlags s (attachBasketballToHand s).
Proof.
  intros Hh Hw Ht. unfold attachBasketballToHand.
  destruct (basketball s); [ | apply sameFlags_refl ].
  destruct (avatar s); [ | apply sameFlags_refl ].
  match goal with
  | |- sameFlags _ (updateBasketballInHand ?x) =>
      apply (sameFlags_trans _ x _);
        [ sameF | apply updateBasketballInHand_keeps_hold; assumption ]
  end.
Qed.

Lemma onCrouchFinished_flags (s : State) :
  isThrowingBall s = false -> endedFlags OnCrouchFinished (onCrouchFinished s).
Proof.
  intros Ht. unfold onCrouchFinished, bind. cbv beta iota zeta.
  match goal with
  | |- endedFlags _
         (log _ (set_currentState _ (playAnimation ?k (attachBasketballToHand ?x)))) =>
      apply (endedFlags_same _ (playAnimation k (attachBasketballToHand x))); [ sameF | ];
      apply (endedFlags_same _ (attachBasketballToHand x));
        [ apply playAnimation_plain_sameFlags; reflexivity | ];
      apply (endedFlags_same _ x);
        [ apply attachBasketballToHand_keeps_hold;
          [ frame | frame | rewrite <- Ht; frame ]
        | ];
      unfold endedFlags; repeat (apply conj); try frame; rewrite <- Ht; frame
  end.
Qed.

Lemma onThrowFinished_flags (s : State) :
  endedFlags OnThrowFinished (onThrowFinished s).
Proof.
  unfold onThrowFinished, bind. cbv beta iota zeta.
  match goal with
  | |- endedFlags _ (set_currentState _ (playAnimation ?k ?x)) =>
      apply (endedFlags_same _ (playAnimation k x)); [ sameF | ];
      apply (endedFlags_same _ x);
        [ apply playAnimation_plain_sameFlags; reflexivity | ];
      unfold endedFlags; repeat (apply conj); frame
  end.
Qed.

Lemma dispatch_ends (h : Handler) (ls : list Listener) (l : Listener) (s : State) :
  freshIds s -> listeners s = ls ++ [l] -> handler l = h ->
  (h = OnCrouchFinished -> isThrowingBall s = false) ->
  endedFlags h (dispatchFinished s).
Proof.
  intros Hf Hl Hh Hc. unfold dispatchFinished. rewrite Hl, fold_left_app.
  simpl. rewrite Hh. destruct h; simpl.
  - apply onCrouchFinished_flags.
    destruct (dispatch_control ls s Hf (or_introl (Hc eq_refl))) as [_ H]. exact H.
  - apply onThrowFinished_flags.
Qed.

Lemma updateAction_cases (delta : R) (s : State) (k : AnimState) :
  (exists a1 f,
     updateAction delta s k = onAction k f (dispatchFinished (setAction k a1 s))) \/
  sameFlags s (updateAction delta s k).
Proof.
  unfold updateAction.
  destruct (action s k) as [a |]; [ | right; apply sameFlags_refl ].
  destruct (negb (enabled a)); [ right; apply sameFlags_refl | ].
  cbv zeta.
  match goal with |- context [if ?c then _ else _] => destruct c end.
  - destruct (updateTime _ a) as [a1 finished]. destruct finished.
    + left. eexists. eexists. reflexivity.
    + right. eapply sameFlags_trans; [ | apply onAction_sameFlags ]. sameF.
  - right. apply onAction_sameFlags.
Qed.

Lemma updateAction_ends (h : Handler) (delta : R) (s : State) (k : AnimState)
      (ls : list Listener) (l : Listener) :
  throwingInv s -> listeners s = ls ++ [l] -> handler l = h ->
  (h = OnCrouchFinished -> isThrowingBall s = false) ->
  isTransitioning s = true \/ endedFlags h s ->
  (h = OnCrouchFinished -> isThrowingBall (updateAction delta s k) = false) /\
  (isTransitioning (updateAction delta s k) = true \/
   endedFlags h (updateAction delta s k)).
Proof.
  intros [Hf _] Hl Hh Hc HG.
  destruct (updateAction_cases delta s k) as [(a1 & f & ->) | Hsame].
  - assert (He : endedFlags h (onAction k f (dispatchFinished (setAction k a1 s)))).
    { eapply endedFlags_same; [ apply onAction_sameFlags | ].
      apply (dispatch_ends h ls l); [ exact Hf | exact Hl | exact Hh | exact Hc ]. }
    split; [ | right; exact He ]. intros _. destruct He as (_ & He & _). exact He.
  - split.
    + intros Hx. destruct Hsame as (_ & -> & _). apply Hc, Hx.
    + destruct HG as [HG | HG].
      * left. destruct Hsame as (-> & _). exact HG.
      * right. apply (endedFlags_same h s); assumption.
Qed.

Lemma mixer_fold_ends (h : Handler) (delta : R) (ls : list Listener) (l : Listener)
      (acts : list AnimState) :
  handler l = h ->
  forall s,
    throwingInv s -> listeners s = ls ++ [l] ->
    (h = OnCrouchFinished -> isThrowingBall s = false) ->
    isTransitioning s = true \/ endedFlags h s ->
    isTransitioning (fold_left (updateAction delta) acts s) = true \/
    endedFlags h (fold_left (updateAction delta) acts s).
Proof.
  intros Hh. induction acts as [| k rest IH]; intros s Hinv Hl Hc HG.
  - exact HG.
  - simpl.
    destruct (updateAction_ends h delta s k ls l Hinv Hl Hh Hc HG) as [Hc' HG'].
    apply IH; [ apply updateAction_throwingInv, Hinv | | exact Hc' | exact HG' ].
    destruct Hinv as [Hf _].
    destruct (updateAction_listeners delta s k Hf) as [-> _]. exact Hl.
Qed.

Lemma handleMovement_sameFlags (delta : R) (s : State) :
  sameFlags s (handleMovement delta s).
Proof.
  unfold handleMovement.
  destruct (avatar s); [ | apply sameFlags_refl ].
  destruct (isTransitioning s); [ apply sameFlags_refl | ].
  cbv zeta.
  match goal with
  | |- context [updateCameraPosition ?x] =>
      destruct (updateCameraPosition_eq x) as [angle ->]
  end.
  assert (Hplay : forall k x, isPlayOnce k = false -> sameFlags s x ->
            sameFlags s (set_cameraAngle angle
                           (set_currentState k (playAnimation k x)))).
  { intros k x Hk Hx.
    apply (sameFlags_trans _ x _ Hx).
    apply (sameFlags_trans _ (playAnimation k x) _);
      [ apply playAnimation_plain_sameFlags, Hk | sameF ]. }
  destruct (Rgtb (vlength (moveDirOf s)) 0).
  - match goal with
    | |- context [checkCollision ?b ?p] => destruct (checkCollision b p)
    end; simpl negb; cbv iota;
      match goal with |- context [if ?c then _ else _] => destruct c end;
      first [ apply Hplay; [ apply newStateOf_plain | sameF ] | sameF ].
  - match goal with |- context [if ?c then _ else _] => destruct c end;
      first [ apply Hplay; [ destruct (hasBall s); reflexivity | sameF ] | sameF ].
Qed.

Lemma groundCollision_sameFlags (b : Basketball) (s : State) :
  sameFlags s (groundCollision b s).
Proof. unfold groundCollision. split_cases; sameF. Qed.

Lemma physics_end_flags (h : Handler) (delta : R) (s : State) :
  endedFlags h s -> endedFlags h (updateBasketballPhysics delta s).
Proof.
  intros He. unfold updateBasketballPhysics.
  destruct (basketball s) as [b |]; [ | exact He ].
  destruct (hasBall s) eqn:Hh.
  { destruct h; destruct He as (H1 & H2 & H3).
    - destruct H3 as (_ & H4 & H5).
      apply (endedFlags_same _ s);
        [ apply updateBasketballInHand_keeps_hold; assumption | ].
      unfold endedFlags. rewrite Hh. auto.
    - destruct H3 as [H3 _]. congruence. }
  assert (Hfree : exists Hc, h = OnThrowFinished /\ isCrouched s = Hc /\ Hc = false).
  { destruct h; destruct He as (_ & _ & H3).
    - destruct H3 as [H3 _]. congruence.
    - destruct H3 as [_ H3]. exists false. auto. }
  destruct Hfree as (c & -> & Hc & ->).
  destruct He as (H1 & H2 & _).
  assert (Hreset : forall x, isTransitioning x = false -> isCrouched x = false ->
            endedFlags OnThrowFinished (resetBasketball b x)).
  { intros x Hx1 Hx2. unfold endedFlags, resetBasketball. cbv zeta.
    repeat (apply conj); try frame; [ rewrite <- Hx1 | rewrite <- Hx2 ]; frame. }
  destruct (Rltb (vec_y (ballPosition b)) (- 10)); [ apply Hreset; assumption | ].
  destruct (Rgtb (vlength (ballPosition b)) 50); [ apply Hreset; assumption | ].
  cbv zeta.
  match goal with
  | |- context [checkBasketballCollision ?x ?y ?z] =>
      destruct (checkBasketballCollision x y z) as [hit face]
  end.
  simpl. destruct hit; [ destruct face | ];
    (eapply endedFlags_same; [ apply groundCollision_sameFlags | ]);
    (apply (endedFlags_same _ s);
       [ sameF | unfold endedFlags; rewrite Hh; auto ]).
Qed.

Lemma lastHandler_app (ls : list Listener) (l : Listener) :
  lastHandler (ls ++ [l]) = Some (handler l).
Proof. unfold lastHandler. rewrite map_app. simpl. apply last_last. Qed.

Lemma lastHandler_some (ls : list Listener) (h : Handler) :
  lastHandler ls = Some h -> exists ls' l, ls = ls' ++ [l] /\ handler l = h.
Proof.
  induction ls as [| x rest _] using rev_ind; intros H.
  - discriminate H.
  - rewrite lastHandler_app in H. injection H as H. exists rest, x. auto.
Qed.

(** *** The newest handler belongs to the running transition *)

Lemma fold_unlocked (delta : R) (acts : list AnimState) (s : State) :
  isTransitioning s = false ->
  isTransitioning (fold_left (updateAction delta) acts s) = false.
Proof.
  revert s. apply (fold_left_inv (fun s => isTransitioning s = false)).
  intros s k. apply updateAction_unlocked.
Qed.

Lemma fold_shape (delta : R) (acts : list AnimState) :
  forall s, lockInv s ->
    isTransitioning (fold_left (updateAction delta) acts s) = false \/
    (isTransitioning (fold_left (updateAction delta) acts s) = isTransitioning s /\
     currentState (fold_left (updateAction delta) acts s) = currentState s).
Proof.
  induction acts as [| k rest IH]; intros s Hlock; simpl.
  - right. split; reflexivity.
  - destruct (updateAction_shape delta s k Hlock) as [Hu | (B1 & B2 & _)].
    + left. apply fold_unlocked, Hu.
    + destruct (IH _ (updateAction_lockInv delta s k Hlock)) as [Hu | [C1 C2]].
      * left. exact Hu.
      * right. split; congruence.
Qed.

Lemma animate_shape (delta : R) (s : State) :
  lockInv s ->
  isTransitioning (animate delta s) = false \/
  (isTransitioning s = true /\ currentState (animate delta s) = currentState s).
Proof.
  intros Hlock. unfold animate. cbv zeta.
  set (s1 := mixerUpdate delta s).
  assert (Hrest : sameAnim (handleMovement delta s1)
                    (updateCameraPosition
                       (updateBasketballPhysics delta (handleMovement delta s1)))).
  { eapply sameAnim_trans;
      [ apply updateBasketballPhysics_sameAnim | apply updateCameraPosition_sameAnim ]. }
  destruct Hrest as (R1 & R2 & _). rewrite R1, R2.
  destruct (handleMovement_sameFlags delta s1) as (F1 & _). rewrite F1.
  assert (H1 : isTransitioning s1 = false \/
               (isTransitioning s1 = isTransitioning s /\
                currentState s1 = currentState s)).
  { unfold s1, mixerUpdate. cbv zeta.
    apply (fold_shape delta (activeActions s) (set_mixerTime (mixerTime s + delta) s)).
    apply (lockInv_same s); [ frame | frame | frame | exact Hlock ]. }
  destruct H1 as [Hu | [B1 B2]]; [ left; exact Hu | ].
  destruct (isTransitioning s) eqn:Ht; [ | left; exact B1 ].
  right. split; [ reflexivity | ].
  rewrite (handleMovement_locked delta s1 B1). exact B2.
Qed.

Lemma play_once_newest (state : AnimState) (s : State) :
  isPlayOnce state = true -> freshIds s -> isTransitioning s = false ->
  newestHandlerInv (set_currentState state (playAnimation state s)).
Proof.
  intros Hp Hf Ht. unfold newestHandlerInv.
  change (listeners (set_currentState state (playAnimation state s)))
    with (listeners (playAnimation state s)).
  change (currentState (set_currentState state (playAnimation state s))) with state.
  change (isTransitioning (set_currentState state (playAnimation state s)))
    with (isTransitioning (playAnimation state s)).
  destruct (action s state) as [a |] eqn:Ha.
  - intros _.
    assert (Hs : state = standingtocrouched \/ state = throwball)
      by (destruct state; try discriminate Hp; auto).
    destruct Hs as [-> | ->].
    + destruct (playAnimation_once_control standingtocrouched OnCrouchFinished s a
                  (or_introl (conj eq_refl eq_refl)) Ha Hf) as (_ & -> & _).
      apply lastHandler_app.
    + destruct (playAnimation_once_control throwball OnThrowFinished s a
                  (or_intror (conj eq_refl eq_refl)) Ha Hf) as (_ & -> & _).
      apply lastHandler_app.
  - unfold playAnimation. rewrite Ha, Ht. discriminate.
Qed.

Lemma step_newest (e : Event) (s : State) :
  lockInv s -> throwingInv s -> newestHandlerInv s -> newestHandlerInv (step e s).
Proof.
  intros Hlock [Hf _] H. destruct e as [delta | name | name | dx]; simpl.
  - intros Ht.
    destruct (animate_shape delta s Hlock) as [Hu | [Hs Hc]]; [ congruence | ].
    rewrite (animate_listeners delta s Hf), Hc. apply H, Hs.
  - unfold onKeyDown. cbv zeta.
    match goal with |- newestHandlerInv (if ?c then _ else _) => destruct c eqn:Hpick end.
    + assert (Htr : isTransitioning s = false).
      { apply andb_prop in Hpick. destruct Hpick as [Hpick _].
        apply andb_prop in Hpick. destruct Hpick as [_ Hpick].
        simpl in Hpick. destruct (isTransitioning s); [ discriminate | reflexivity ]. }
      apply play_once_newest; [ reflexivity | exact Hf | exact Htr ].
    + match goal with
      | |- newestHandlerInv (if ?c then _ else _) => destruct c eqn:Hthrow
      end; [ | exact H ].
      assert (Htr : isTransitioning s = false).
      { apply andb_prop in Hthrow. destruct Hthrow as [_ Hthrow].
        simpl in Hthrow. destruct (isTransitioning s); [ discriminate | reflexivity ]. }
      apply play_once_newest; [ reflexivity | exact Hf | exact Htr ].
  - exact H.
  - exact H.
Qed.

Lemma reachable_newest clips boxes names (s : State) :
  reachable clips boxes names s -> newestHandlerInv s.
Proof.
  induction 1 as [| s e Hr IH _].
  - unfold newestHandlerInv, initialState.
    match goal with
    | |- isTransitioning (playAnimation idle ?x) = true -> _ =>
        destruct (playAnimation_plain idle x eq_refl) as (_ & A2 & _);
        rewrite A2; discriminate
    end.
  - apply step_newest; [ | | exact IH ].
    + exact (reachable_lockInv _ _ _ _ Hr).
    + exact (reachable_throwingInv _ _ _ _ Hr).
Qed.

(** *** The frame in which the clip ends *)

Lemma transition_end_flags clips boxes names (s : State) (a : AnimationAction)
      (delta : R) (h : Handler) :
  reachable clips boxes names s ->
  isTransitioning s = true -> handlerOf (currentState s) = Some h ->
  action s (currentState s) = Some a ->
  0 < delta -> clipDuration a <= time a + delta ->
  endedFlags h (animate delta s).
Proof.
  intros Hr Ht Hh Ha Hd Hend.
  assert (Hclip := reachable_clipInv _ _ _ _ Hr).
  assert (Hthrow := reachable_throwingInv _ _ _ _ Hr).
  assert (Hnew := reachable_newest _ _ _ _ Hr Ht). rewrite Hh in Hnew.
  destruct (lastHandler_some _ _ Hnew) as (ls & l & Hl & Hhl).
  assert (Hc : h = OnCrouchFinished -> isThrowingBall s = false).
  { intros ->. destruct Hthrow as [_ Hi].
    destruct (isThrowingBall s); [ | reflexivity ].
    destruct (Hi eq_refl) as (_ & Hx & _). rewrite Hx in Hh. discriminate Hh. }
  assert (Hmix : endedFlags h (mixerUpdate delta s)).
  { assert (Hu := mixerUpdate_at_clip_end s a delta Hclip Ht Ha Hd Hend).
    revert Hu. unfold mixerUpdate. cbv zeta. intros Hu.
    destruct (mixer_fold_ends h delta ls l (activeActions s) Hhl
                (set_mixerTime (mixerTime s + delta) s)) as [Hx | Hx].
    - apply (sameControl_throwingInv s); [ same | exact Hthrow ].
    - exact Hl.
    - exact Hc.
    - left. exact Ht.
    - change (activeActions (set_mixerTime (mixerTime s + delta) s))
        with (activeActions s) in Hu.
      congruence.
    - exact Hx. }
  unfold animate. cbv zeta.
  match goal with
  | |- endedFlags h (updateCameraPosition ?x) =>
      apply (endedFlags_same h x);
        [ destruct (updateCameraPosition_eq x) as [angle ->]; sameF | ]
  end.
  apply physics_end_flags.
  apply (endedFlags_same h (mixerUpdate delta s));
    [ apply handleMovement_sameFlags | exact Hmix ].
Qed.

(** X27.  A throw always ends with the ball released: from any reachable
    state locked in the throw clip, the frame that carries the clip to its
    end leaves the ball not held, the throw flag and the crouch flag cleared
    and the character unlocked, although stale handlers of earlier
    transitions run in that frame too. *)
Theorem throw_ends_with_ball_released :
  forall (clips : AnimState -> option R) (boxes : list Box3) (names : list string)
         (s : State) (a : AnimationAction) (delta : R),
    reachable clips boxes names s ->
    isTransitioning s = true -> currentState s = throwball ->
    action s throwball = Some a ->
    0 < delta -> clipDuration a <= time a + delta ->
    let s' := animate delta s in
    hasBall s' = false /\ isThrowingBall s' = false /\ isCrouched s' = false /\
    isTransitioning s' = false.
Proof.
  intros clips boxes names s a delta Hr Ht Hc Ha Hd Hend s'.
  rewrite <- Hc in Ha.
  destruct (transition_end_flags clips boxes names s a delta OnThrowFinished
              Hr Ht ltac:(rewrite Hc; reflexivity) Ha Hd Hend)
    as (H1 & H2 & H3 & H4).
  repeat split; assumption.
Qed.

Lemma throw_ends_with_ball_released_witness :
  let s' := animate 1 st6 in
  hasBall s' = false /\ isThrowingBall s' = false /\ isCrouched s' = false /\
  isTransitioning s' = false.
Proof.
  apply (throw_ends_with_ball_released demoClips [] [] st6
           (mkAction 0 1 LoopOnce true false true (Some (FadeIn, 23 / 10))) 1
           reachable_st6).
  - rcbv. reflexivity.
  - rcbv. reflexivity.
  - rcbv. reflexivity.
  - lra.
  - simpl. lra.
Defined.

Lemma run_to_st4 : run (firstn 4 playThrough) (initialState demoClips [] []) = st4.
Proof.
  rewrite st0_eq. unfold playThrough, run. cbn [firstn fold_left].
  rewrite st1_eq, st2_eq, st3_eq, st4_eq. reflexivity.
Qed.

Lemma reachable_st4 : reachable demoClips [] [] st4.
Proof.
  rewrite <- run_to_st4. apply reachable_run.
  - apply Forall_firstn, playThrough_valid.
  - apply reachable_init.
Qed.

(** X28.  A pickup always ends with the ball in hand: from any reachable
    state locked in the crouch clip, the frame that carries the clip to its
    end leaves the ball held and not marked thrown, the character crouched
    and unlocked, and no throw under way. *)
Theorem pickup_ends_with_ball_in_hand :
  forall (clips : AnimState -> option R) (boxes : list Box3) (names : list string)
         (s : State) (a : AnimationAction) (delta : R),
    reachable clips boxes names s ->
    isTransitioning s = true -> currentState s = standingtocrouched ->
    action s standingtocrouched = Some a ->
    0 < delta -> clipDuration a <= time a + delta ->
    let s' := animate delta s in
    hasBall s' = true /\ isCrouched s' = true /\ ballWasThrown s' = false /\
    isThrowingBall s' = false /\ isTransitioning s' = false.
Proof.
  intros clips boxes names s a delta Hr Ht Hc Ha Hd Hend s'.
  rewrite <- Hc in Ha.
  destruct (transition_end_flags clips boxes names s a delta OnCrouchFinished
              Hr Ht ltac:(rewrite Hc; reflexivity) Ha Hd Hend)
    as (H1 & H2 & H3 & H4 & H5).
  repeat split; assumption.
Qed.

Lemma pickup_ends_with_ball_in_hand_witness :
  let s' := animate 1 st4 in
  hasBall s' = true /\ isCrouched s' = true /\ ballWasThrown s' = false /\
  isThrowingBall s' = false /\ isTransitioning s' = false.
Proof.
  apply (pickup_ends_with_ball_in_hand demoClips [] [] st4
           (mkAction 0 1 LoopOnce true false true (Some (FadeIn, 13 / 10))) 1
           reachable_st4).
  - rcbv. reflexivity.
  - rcbv. reflexivity.
  - rcbv. reflexivity.
  - lra.
  - simpl. lra.
Defined.
